(** * Release tooling of obsidian-paste-cleaner: changelog parser, changelog
      writer, version resolver and release orchestrator; the scripts that
      print the release notes and the metadata; the rules of the plugin and
      its paste handler.

    Shallow embedding of [tools/release-utils.ts] (parseChangelog,
    updateChangelog, checkVersionCoherency) and of [tools/release.ts] (main),
    together with the part of the semantic-version library (semver-ts, a port
    of node-semver) that those files call: valid, prerelease, gt and inc; of
    [tools/get-release-notes.ts] and [tools/get-meta.ts]; and of
    [src/rule.ts] (RemovalRule, applyRules), [src/main.ts] (compileRules) and
    [src/events.ts] (onPaste), over an engine of regular expressions that is
    a parameter.

    JavaScript strings are sequences of UTF-16 code units; a code unit is a
    number of type [N].  Exceptions and [process.exit] are explicit results. *)

From Stdlib Require Import List Arith NArith Lia Bool String Ascii DecimalN.
Import ListNotations.
Local Open Scope list_scope.

(* ===================================================================== *)
(** ** JavaScript strings *)
(* ===================================================================== *)

Module JS.

Definition char := N.
Definition jstring := list char.

Definition ch (a : ascii) : char := N_of_ascii a.
Definition lit (s : string) : jstring := map ch (list_ascii_of_string s).

Definition LF : char := 10%N.
Definition CR : char := 13%N.

Fixpoint eqb (a b : jstring) : bool :=
  match a, b with
  | [], [] => true
  | x :: a', y :: b' => N.eqb x y && eqb a' b'
  | _, _ => false
  end.

(** LineTerminator of ECMAScript: LF, CR, LS, PS.  The regular-expression
    atom [.] matches every code unit but these. *)
Definition isLineTerminator (c : char) : bool :=
  N.eqb c 10 || N.eqb c 13 || N.eqb c 8232 || N.eqb c 8233.

(** WhiteSpace and LineTerminator of ECMAScript: what [String.prototype.trim]
    strips and what the regular-expression class [\s] matches. *)
Definition isWhiteSpace (c : char) : bool :=
  N.eqb c 9 || N.eqb c 11 || N.eqb c 12 || N.eqb c 32 || N.eqb c 160
  || N.eqb c 5760 || (N.leb 8192 c && N.leb c 8202)
  || N.eqb c 8239 || N.eqb c 8287 || N.eqb c 12288 || N.eqb c 65279
  || isLineTerminator c.

Definition isDigit (c : char) : bool := N.leb 48 c && N.leb c 57.
Definition isUpper (c : char) : bool := N.leb 65 c && N.leb c 90.
Definition isLower (c : char) : bool := N.leb 97 c && N.leb c 122.
Definition isLetter (c : char) : bool := isUpper c || isLower c.

Fixpoint dropWhile (p : char -> bool) (s : jstring) : jstring :=
  match s with
  | [] => []
  | c :: s' => if p c then dropWhile p s' else s
  end.

Fixpoint takeWhile (p : char -> bool) (s : jstring) : jstring :=
  match s with
  | [] => []
  | c :: s' => if p c then c :: takeWhile p s' else []
  end.

Definition trimStart (s : jstring) : jstring := dropWhile isWhiteSpace s.
Definition trimEnd (s : jstring) : jstring := rev (trimStart (rev s)).
Definition trim (s : jstring) : jstring := trimEnd (trimStart s).

Fixpoint startsWith (p s : jstring) : bool :=
  match p, s with
  | [], _ => true
  | x :: p', y :: s' => N.eqb x y && startsWith p' s'
  | _ :: _, [] => false
  end.

Fixpoint includes (p s : jstring) : bool :=
  startsWith p s || match s with [] => false | _ :: s' => includes p s' end.

(** [toLowerCase], on the letters A-Z.  Outside ASCII no code unit is mapped
    to an ASCII letter that occurs in the word the parser searches for. *)
Definition lower (c : char) : char := if isUpper c then (c + 32)%N else c.
Definition toLowerCase (s : jstring) : jstring := map lower s.

(** [s.split(/\r?\n/)]: a separator is LF, or CR immediately followed by LF. *)
Fixpoint splitLines (s : jstring) : list jstring :=
  match s with
  | [] => [[]]
  | c :: s' =>
      if N.eqb c LF then [] :: splitLines s'
      else if N.eqb c CR && match s' with d :: _ => N.eqb d LF | [] => false end
      then splitLines s'
      else match splitLines s' with
           | l :: ls => (c :: l) :: ls
           | [] => [[c]]
           end
  end.

(** [xs.join(sep)] *)
Fixpoint join (sep : jstring) (xs : list jstring) : jstring :=
  match xs with
  | [] => []
  | [x] => x
  | x :: xs' => x ++ sep ++ join sep xs'
  end.

(** [s.split(".")] *)
Fixpoint splitOn (d : char) (s : jstring) : list jstring :=
  match s with
  | [] => [[]]
  | c :: s' =>
      if N.eqb c d then [] :: splitOn d s'
      else match splitOn d s' with
           | l :: ls => (c :: l) :: ls
           | [] => [[c]]
           end
  end.

(** JavaScript truthiness of a string: the empty string is falsy. *)
Definition truthy (s : jstring) : bool :=
  match s with [] => false | _ :: _ => true end.

(** [a < b] on strings: lexicographic on code units. *)
Fixpoint ltb (a b : jstring) : bool :=
  match a, b with
  | _, [] => false
  | [], _ :: _ => true
  | x :: a', y :: b' => N.ltb x y || (N.eqb x y && ltb a' b')
  end.

End JS.
Import JS.

(* ===================================================================== *)
(** ** Decimal numerals *)
(* ===================================================================== *)

Module Dec.

Definition digitChar (d : N) : char := (48 + d)%N.

Fixpoint ofUint (u : Decimal.uint) : jstring :=
  match u with
  | Decimal.Nil => []
  | Decimal.D0 u' => digitChar 0 :: ofUint u'
  | Decimal.D1 u' => digitChar 1 :: ofUint u'
  | Decimal.D2 u' => digitChar 2 :: ofUint u'
  | Decimal.D3 u' => digitChar 3 :: ofUint u'
  | Decimal.D4 u' => digitChar 4 :: ofUint u'
  | Decimal.D5 u' => digitChar 5 :: ofUint u'
  | Decimal.D6 u' => digitChar 6 :: ofUint u'
  | Decimal.D7 u' => digitChar 7 :: ofUint u'
  | Decimal.D8 u' => digitChar 8 :: ofUint u'
  | Decimal.D9 u' => digitChar 9 :: ofUint u'
  end.

Fixpoint toUint (s : jstring) : Decimal.uint :=
  match s with
  | [] => Decimal.Nil
  | c :: s' =>
      let u := toUint s' in
      match (c - 48)%N with
      | 0%N => Decimal.D0 u
      | 1%N => Decimal.D1 u
      | 2%N => Decimal.D2 u
      | 3%N => Decimal.D3 u
      | 4%N => Decimal.D4 u
      | 5%N => Decimal.D5 u
      | 6%N => Decimal.D6 u
      | 7%N => Decimal.D7 u
      | 8%N => Decimal.D8 u
      | _ => Decimal.D9 u
      end
  end.

(** [String(n)] for a non-negative integer below 10^21. *)
Definition toDec (n : N) : jstring := ofUint (N.to_uint n).

(** [+s] for a string of decimal digits, before rounding to a double. *)
Definition ofDec (s : jstring) : N := N.of_uint (toUint s).

Definition allDigits (s : jstring) : bool := forallb isDigit s.

(** [/^[0-9]+$/.test(s)] *)
Definition isNumeric (s : jstring) : bool := truthy s && allDigits s.

(** The numeral [0|[1-9]\d*]: digits without a superfluous leading zero. *)
Definition isCanonical (s : jstring) : bool :=
  match s with
  | [] => false
  | [c] => isDigit c
  | c :: _ => isDigit c && negb (N.eqb c 48) && allDigits s
  end.

Definition MAX_SAFE_INTEGER : N := 9007199254740991%N.

(** The value of an integer as a JavaScript Number: exact up to 53 bits,
    rounded to the nearest double (ties to even) above. *)
Definition roundDouble (n : N) : N :=
  let bits := N.size n in
  if N.leb bits 53 then n
  else
    let e := (bits - 53)%N in
    let q := N.shiftr n e in
    let r := (n - N.shiftl q e)%N in
    let half := N.shiftl 1 (e - 1) in
    let q' := if N.ltb half r || (N.eqb r half && N.odd q) then (q + 1)%N else q in
    N.shiftl q' e.

Definition toNumber (s : jstring) : N := roundDouble (ofDec s).

End Dec.

(* ===================================================================== *)
(** ** The semantic-version library (semver-ts)

    The release tooling imports [valid], [prerelease], [gt] and [inc] from the
    npm package semver-ts, a TypeScript port of node-semver.  The package is a
    third-party dependency and its code is not part of the repository; this
    module follows node-semver 7 in strict mode (options [{}]), which is how
    the tooling calls it: the grammar of a version, the limits on its length
    and numbers, the order of versions and the increments. *)
(* ===================================================================== *)

Module SemVer.
Import Dec.

(** A pre-release identifier is kept as a number when it consists of digits
    and lies below [MAX_SAFE_INTEGER], as a string otherwise. *)
Inductive ident : Type :=
| INum (n : N)
| IStr (s : jstring).

Record t : Type := mk {
  major : N;
  minor : N;
  patch : N;
  prerelease : list ident;
  build : list jstring
}.

Definition identString (i : ident) : jstring :=
  match i with
  | INum n => toDec n
  | IStr s => s
  end.

(** [SemVer.prototype.format] *)
Definition format (v : t) : jstring :=
  toDec (major v) ++ lit "." ++ toDec (minor v) ++ lit "." ++ toDec (patch v)
  ++ match prerelease v with
     | [] => []
     | p => lit "-" ++ join (lit ".") (map identString p)
     end.

(** [[0-9A-Za-z-]] *)
Definition isIdChar (c : char) : bool :=
  isDigit c || isLetter c || N.eqb c (ch "-").

(** [[0-9A-Za-z.-]] *)
Definition isPreChar (c : char) : bool := isIdChar c || N.eqb c (ch ".").

(** PRERELEASEIDENTIFIER: [0|[1-9]\d*] or [\d*[a-zA-Z-][a-zA-Z0-9-]*]. *)
Definition validPreId (s : jstring) : bool :=
  truthy s && forallb isIdChar s && (negb (allDigits s) || isCanonical s).

(** BUILDIDENTIFIER: [[0-9A-Za-z-]+]. *)
Definition validBuildId (s : jstring) : bool :=
  truthy s && forallb isIdChar s.

Definition toIdent (s : jstring) : ident :=
  if isNumeric s && N.ltb (ofDec s) MAX_SAFE_INTEGER then INum (ofDec s)
  else IStr s.

Definition expect (c : char) (s : jstring) : option jstring :=
  match s with
  | x :: s' => if N.eqb x c then Some s' else None
  | [] => None
  end.

Definition MAX_LENGTH : nat := 256.

(** The three numerals of MAINVERSION, each followed by what must follow it. *)
Definition parseMain (s : jstring) : option (N * N * N * jstring) :=
  let a := takeWhile isDigit s in
  match expect (ch ".") (dropWhile isDigit s) with
  | None => None
  | Some s1 =>
      let b := takeWhile isDigit s1 in
      match expect (ch ".") (dropWhile isDigit s1) with
      | None => None
      | Some s2 =>
          let c := takeWhile isDigit s2 in
          if isCanonical a && isCanonical b && isCanonical c
             && N.leb (ofDec a) MAX_SAFE_INTEGER
             && N.leb (ofDec b) MAX_SAFE_INTEGER
             && N.leb (ofDec c) MAX_SAFE_INTEGER
          then Some (ofDec a, ofDec b, ofDec c, dropWhile isDigit s2)
          else None
      end
  end.

(** [new SemVer(version, {})]: the length limit, [version.trim()] against
    [^v?MAIN(?:-PRE)?(?:\+BUILD)?$], and the range of the three numbers.
    [None] stands for the TypeError the constructor throws. *)
Definition parse (version : jstring) : option t :=
  if Nat.ltb MAX_LENGTH (List.length version) then None
  else
    let s := trim version in
    let s := match s with
             | c :: s' => if N.eqb c (ch "v") then s' else s
             | [] => s
             end in
    match parseMain s with
    | None => None
    | Some (ma, mi, pa, s3) =>
        let '(pre, s4) :=
          match s3 with
          | x :: r =>
              if N.eqb x (ch "-")
              then (Some (takeWhile isPreChar r), dropWhile isPreChar r)
              else (None, s3)
          | [] => (None, s3)
          end in
        let '(bld, s5) :=
          match s4 with
          | x :: r => if N.eqb x (ch "+") then (Some r, []) else (None, s4)
          | [] => (None, [])
          end in
        let preIds := match pre with Some p => splitOn (ch ".") p | None => [] end in
        let bldIds := match bld with Some b => splitOn (ch ".") b | None => [] end in
        if truthy s5 then None
        else if forallb validPreId preIds && forallb validBuildId bldIds
        then Some (mk ma mi pa (map toIdent preIds) bldIds)
        else None
    end.

(** [valid(version)]: the formatted version, or null. *)
Definition valid (version : jstring) : option jstring :=
  option_map format (parse version).

(** [prerelease(version)]: the identifiers when there are some, else null. *)
Definition prereleaseOf (version : jstring) : option (list ident) :=
  match parse version with
  | Some v => match prerelease v with [] => None | p => Some p end
  | None => None
  end.

Definition identNumeric (i : ident) : bool :=
  match i with
  | INum _ => true
  | IStr s => isNumeric s
  end.

Definition identNumber (i : ident) : N :=
  match i with
  | INum n => n
  | IStr s => toNumber s
  end.

(** [a === b] on identifiers. *)
Definition identEqb (a b : ident) : bool :=
  match a, b with
  | INum x, INum y => N.eqb x y
  | IStr x, IStr y => JS.eqb x y
  | _, _ => false
  end.

(** [compareIdentifiers(a, b)] *)
Definition compareIdentifiers (a b : ident) : comparison :=
  let anum := identNumeric a in
  let bnum := identNumeric b in
  if anum && bnum then N.compare (identNumber a) (identNumber b)
  else if identEqb a b then Eq
  else if anum && negb bnum then Lt
  else if bnum && negb anum then Gt
  else if JS.ltb (identString a) (identString b) then Lt
  else Gt.

(** The loop of [comparePre], both lists non-empty on entry. *)
Fixpoint comparePreLoop (p q : list ident) : comparison :=
  match p, q with
  | [], [] => Eq
  | _ :: _, [] => Gt
  | [], _ :: _ => Lt
  | a :: p', b :: q' =>
      if identEqb a b then comparePreLoop p' q' else compareIdentifiers a b
  end.

Definition comparePre (x y : t) : comparison :=
  match prerelease x, prerelease y with
  | _ :: _, [] => Lt
  | [], _ :: _ => Gt
  | [], [] => Eq
  | p, q => comparePreLoop p q
  end.

Definition compareMain (x y : t) : comparison :=
  match N.compare (major x) (major y) with
  | Eq => match N.compare (minor x) (minor y) with
          | Eq => N.compare (patch x) (patch y)
          | c => c
          end
  | c => c
  end.

(** [SemVer.prototype.compare]: [compareMain(other) || comparePre(other)]. *)
Definition compare (x y : t) : comparison :=
  match compareMain x y with
  | Eq => comparePre x y
  | c => c
  end.

(** [gt(a, b)]: [None] when either argument is not a version (TypeError). *)
Definition gt (a b : jstring) : option bool :=
  match parse a, parse b with
  | Some x, Some y => Some (match compare x y with Gt => true | _ => false end)
  | _, _ => None
  end.

Inductive ReleaseType : Type :=
| Major | Minor | Patch | Premajor | Preminor | Prepatch | Prerelease.

(** The backwards search of case ['pre'] for the last identifier of type
    number, which it increments. *)
Fixpoint bumpLastNumber (p : list ident) : option (list ident) :=
  match p with
  | [] => None
  | i :: p' =>
      match bumpLastNumber p' with
      | Some q => Some (i :: q)
      | None => match i with
                | INum n => Some (INum (n + 1) :: p')
                | IStr _ => None
                end
      end
  end.

(** [isNaN(x)] for a string of identifier characters: false exactly on the
    spellings StringToNumber accepts within that alphabet. *)
Definition isHexDigit (c : char) : bool :=
  isDigit c || (N.leb 65 c && N.leb c 70) || (N.leb 97 c && N.leb c 102).

Definition isExpChar (c : char) : bool := N.eqb c (ch "e") || N.eqb c (ch "E").

Definition unsignedDecimal (s : jstring) : bool :=
  JS.eqb s (lit "Infinity")
  || (let m := takeWhile isDigit s in
      let r := dropWhile isDigit s in
      truthy m &&
      match r with
      | [] => true
      | e :: r' =>
          isExpChar e &&
          isNumeric (match r' with
                     | sg :: r'' => if N.eqb sg (ch "-") then r'' else r'
                     | [] => r'
                     end)
      end).

Definition stringIsNumber (s : jstring) : bool :=
  match s with
  | [] => true
  | c :: s' =>
      (if N.eqb c (ch "-") then unsignedDecimal s' else unsignedDecimal s)
      || match s with
         | z :: x :: ds =>
             N.eqb z (ch "0") && truthy ds &&
             (((N.eqb x (ch "x") || N.eqb x (ch "X")) && forallb isHexDigit ds)
              || ((N.eqb x (ch "o") || N.eqb x (ch "O"))
                  && forallb (fun d => N.leb 48 d && N.leb d 55) ds)
              || ((N.eqb x (ch "b") || N.eqb x (ch "B"))
                  && forallb (fun d => N.leb 48 d && N.leb d 49) ds))
         | _ => false
         end
  end.

(** [isNaN(this.prerelease[1])] *)
Definition secondIsNaN (p : list ident) : bool :=
  match p with
  | _ :: INum _ :: _ => false
  | _ :: IStr s :: _ => negb (stringIsNumber s)
  | _ => true
  end.

(** Case ['pre'] of [SemVer.prototype.inc]. *)
Definition incPre (identifier : option jstring) (v : t) : t :=
  let p1 :=
    match prerelease v with
    | [] => [INum 0]
    | p => match bumpLastNumber p with
           | Some q => q
           | None => p ++ [INum 0]
           end
    end in
  let p2 :=
    match identifier with
    | Some id =>
        if truthy id then
          match p1 with
          | first :: _ =>
              match compareIdentifiers first (IStr id) with
              | Eq => if secondIsNaN p1 then [IStr id; INum 0] else p1
              | _ => [IStr id; INum 0]
              end
          | [] => [IStr id; INum 0]
          end
        else p1
    | None => p1
    end in
  mk (major v) (minor v) (patch v) p2 (build v).

(** Case ['patch']. *)
Definition incPatch (v : t) : t :=
  mk (major v) (minor v)
     (match prerelease v with [] => (patch v + 1)%N | _ => patch v end)
     [] (build v).

(** [SemVer.prototype.inc(release, identifier)] *)
Definition incRelease (release : ReleaseType) (identifier : option jstring) (v : t) : t :=
  match release with
  | Premajor => incPre identifier (mk (major v + 1) 0 0 [] (build v))
  | Preminor => incPre identifier (mk (major v) (minor v + 1) 0 [] (build v))
  | Prepatch =>
      incPre identifier (incPatch (mk (major v) (minor v) (patch v) [] (build v)))
  | Prerelease =>
      match prerelease v with
      | [] => incPre identifier (incPatch v)
      | _ => incPre identifier v
      end
  | Major =>
      mk (if negb (N.eqb (minor v) 0) || negb (N.eqb (patch v) 0)
             || match prerelease v with [] => true | _ => false end
          then (major v + 1)%N else major v)
         0 0 [] (build v)
  | Minor =>
      mk (major v)
         (if negb (N.eqb (patch v) 0)
             || match prerelease v with [] => true | _ => false end
          then (minor v + 1)%N else minor v)
         0 [] (build v)
  | Patch => incPatch v
  end.

(** [release.startsWith('pre')] *)
Definition isPreType (release : ReleaseType) : bool :=
  match release with
  | Premajor | Preminor | Prepatch | Prerelease => true
  | Major | Minor | Patch => false
  end.

(** The guard of [SemVer.prototype.inc] against results that are no
    versions: for a pre-release increment, an identifier that is given must
    be matched as a whole by PRERELEASE behind a hyphen, that is, be a list
    of pre-release identifiers separated by dots; else the method throws
    [invalid identifier]. *)
Definition identifierOk (release : ReleaseType) (identifier : option jstring) : bool :=
  match identifier with
  | Some id =>
      negb (isPreType release) || negb (truthy id)
      || forallb validPreId (splitOn (ch ".") id)
  | None => true
  end.

(** [inc(version, release, {}, identifier)]: null when [version] is not a
    version or the method throws, else the formatted incremented version. *)
Definition inc (version : jstring) (release : ReleaseType)
    (identifier : option jstring) : option jstring :=
  match parse version with
  | Some v =>
      if identifierOk release identifier
      then Some (format (incRelease release identifier v))
      else None
  | None => None
  end.

End SemVer.

(* ===================================================================== *)
(** ** tools/release-utils.ts *)
(* ===================================================================== *)

Module ReleaseUtils.

(** A thrown [Error], by its message, or a value. *)
Inductive result (A : Type) : Type :=
| Ok (a : A)
| Throw (message : jstring).
Arguments Ok {A} a.
Arguments Throw {A} message.

Record Manifest : Type := {
  m_id : option jstring;
  m_version : option jstring;
  m_minAppVersion : option jstring
}.

(** The files of the project directory the tooling reads.  A JSON document is
    given by the fields the tooling looks at; [None] for a file stands for one
    that cannot be read or parsed, [readError] for the message of the error
    thrown then, and [missing] tells of such a file whether already reading
    it fails. *)
Record Files : Type := {
  manifestJson : option Manifest;
  packageJsonVersion : option (option jstring);
  versionsJson : option (list (jstring * jstring));
  changelogMd : option jstring;
  readError : jstring -> jstring;
  missing : jstring -> bool
}.

Record ProjectInfo : Type := {
  id : jstring;
  pi_version : jstring;
  minAppVersion : jstring;
  pkgVersion : jstring;
  versions : list (jstring * jstring)
}.

Definition readFile {A : Type} (fs : Files) (path : string) (file : option A) : result A :=
  match file with
  | Some a => Ok a
  | None => Throw (readError fs (lit path))
  end.

(** A field of a JSON object read as a string: absent or empty is falsy. *)
Definition field (f : option jstring) : option jstring :=
  match f with
  | Some s => if truthy s then Some s else None
  | None => None
  end.

(** Whether reading the file fails, before anything is parsed. *)
Definition unreadable {A : Type} (fs : Files) (path : string) (file : option A) : bool :=
  match file with
  | Some _ => false
  | None => missing fs (lit path)
  end.

(** The three files are read with [Promise.all] before any of them is
    parsed: a read that fails is reported before an error of [JSON.parse],
    and of several reads that fail the first of the list is taken to fail
    first. *)
Definition getProjectInfo (fs : Files) : result ProjectInfo :=
  if unreadable fs "manifest.json" (manifestJson fs) then
    Throw (readError fs (lit "manifest.json"))
  else if unreadable fs "package.json" (packageJsonVersion fs) then
    Throw (readError fs (lit "package.json"))
  else if unreadable fs "versions.json" (versionsJson fs) then
    Throw (readError fs (lit "versions.json"))
  else
  match readFile fs "manifest.json" (manifestJson fs) with
  | Throw m => Throw m
  | Ok manifest =>
  match readFile fs "package.json" (packageJsonVersion fs) with
  | Throw m => Throw m
  | Ok pkg =>
  match readFile fs "versions.json" (versionsJson fs) with
  | Throw m => Throw m
  | Ok vs =>
  match field (m_version manifest) with
  | None => Throw (lit "No version found in manifest.json")
  | Some v =>
  match field (m_id manifest) with
  | None => Throw (lit "No id found in manifest.json")
  | Some i =>
  match field (m_minAppVersion manifest) with
  | None => Throw (lit "No minAppVersion found in manifest.json")
  | Some ma =>
  match field pkg with
  | None => Throw (lit "No version found in package.json")
  | Some pv => Ok {| id := i; pi_version := v; minAppVersion := ma;
                     pkgVersion := pv; versions := vs |}
  end end end end end end end.

(** The own member of the versions map under a key. *)
Fixpoint lookup (key : jstring) (m : list (jstring * jstring)) : option jstring :=
  match m with
  | [] => None
  | (k, v) :: m' => if JS.eqb k key then Some v else lookup key m'
  end.

(** The names an object parsed from JSON inherits from [Object.prototype]. *)
Definition inheritedNames : list jstring :=
  [lit "constructor"; lit "hasOwnProperty"; lit "isPrototypeOf";
   lit "propertyIsEnumerable"; lit "toLocaleString"; lit "toString";
   lit "valueOf"; lit "__proto__"; lit "__defineGetter__";
   lit "__defineSetter__"; lit "__lookupGetter__"; lit "__lookupSetter__"].

(** Whether [obj[key]] is truthy, on the versions map: the own member when
    there is one, a string; else what the prototype holds under that name, a
    function or, for [__proto__], the prototype itself. *)
Definition truthyAt (key : jstring) (m : list (jstring * jstring)) : bool :=
  match lookup key m with
  | Some v => truthy v
  | None => existsb (JS.eqb key) inheritedNames
  end.

Definition checkVersionCoherency (info : ProjectInfo) : result unit :=
  if negb (JS.eqb (pi_version info) (pkgVersion info)) then
    Throw (lit "Version mismatch: manifest.json has " ++ pi_version info
           ++ lit ", but package.json has " ++ pkgVersion info ++ lit ".")
  else if negb (truthyAt (pi_version info) (versions info)) then
    Throw (lit "Version " ++ pi_version info ++ lit " not found in versions.json.")
  else Ok tt.

Record ChangelogEntry : Type := {
  version : option jstring;
  header : jstring;
  content : jstring
}.

Record ParsedChangelog : Type := {
  title : jstring;
  description : jstring;
  entries : list ChangelogEntry;
  warnings : list jstring
}.

Definition unreleased : jstring := lit "unreleased".

(** [e.version === "unreleased"] *)
Definition isUnreleased (e : ChangelogEntry) : bool :=
  match version e with
  | Some v => JS.eqb v unreleased
  | None => false
  end.

(** [line.match(re)] for the heading pattern: two [#] at the start of the
    line, not followed by a third, then [\s*], then capture group 1, the
    longest run without a line terminator.  The result is group 1. *)
Definition headingMatch (line : jstring) : option jstring :=
  match line with
  | a :: b :: rest =>
      if N.eqb a (ch "#") && N.eqb b (ch "#")
         && negb (match rest with c :: _ => N.eqb c (ch "#") | [] => false end)
      then Some (takeWhile (fun c => negb (isLineTerminator c))
                           (dropWhile isWhiteSpace rest))
      else None
  | _ => None
  end.

(** [[-+._]] *)
Definition isSuffixSep (c : char) : bool :=
  N.eqb c (ch "-") || N.eqb c (ch "+") || N.eqb c (ch ".") || N.eqb c (ch "_").

(** [[0-9A-Za-z.-]] *)
Definition isSuffixChar (c : char) : bool :=
  isDigit c || isLetter c || N.eqb c (ch ".") || N.eqb c (ch "-").

(** [([0-9]+\.[0-9]+\.[0-9]+(?:[-+._][0-9A-Za-z.-]+)?)] at the start of [s]:
    the captured text.  Every quantifier is greedy and what follows a run
    never matches a member of the run, so the greedy choice is the only one. *)
Definition matchCore (s : jstring) : option jstring :=
  let a := takeWhile isDigit s in
  match SemVer.expect (ch ".") (dropWhile isDigit s) with
  | None => None
  | Some s1 =>
      let b := takeWhile isDigit s1 in
      match SemVer.expect (ch ".") (dropWhile isDigit s1) with
      | None => None
      | Some s2 =>
          let c := takeWhile isDigit s2 in
          let s3 := dropWhile isDigit s2 in
          let suffix :=
            match s3 with
            | sep :: s4 =>
                if isSuffixSep sep && truthy (takeWhile isSuffixChar s4)
                then sep :: takeWhile isSuffixChar s4
                else []
            | [] => []
            end in
          if truthy a && truthy b && truthy c
          then Some (a ++ lit "." ++ b ++ lit "." ++ c ++ suffix)
          else None
      end
  end.

(** The version pattern tried at the start of [s]:
    [(?:\(|\[)?\s*v?] and then the captured core. *)
Definition matchAt (s : jstring) : option jstring :=
  let s1 := match s with
            | c :: r => if N.eqb c (ch "(") || N.eqb c (ch "[") then r else s
            | [] => s
            end in
  let s2 := dropWhile isWhiteSpace s1 in
  let s3 := match s2 with
            | c :: r => if N.eqb c (ch "v") then r else s2
            | [] => s2
            end in
  matchCore s3.

(** [headerText.match(/(?:\(|\[)?\s*v?(...)\s*(?:\)|\])?/)]: capture group 1
    of the leftmost match. *)
Fixpoint versionMatch (s : jstring) : option jstring :=
  match matchAt s with
  | Some t => Some t
  | None => match s with
            | [] => None
            | _ :: s' => versionMatch s'
            end
  end.

Definition invalidHeaderWarning (header : jstring) : jstring :=
  lit "CHANGELOG.md: Header " ++ [34%N] ++ header ++ [34%N]
  ++ lit " does not contain a valid SemVer identifier.".

(** Lines 93-109 of the loop body: the version of a heading and the warnings
    it pushes. *)
Definition classifyHeading (header headerText : jstring)
    : option jstring * list jstring :=
  match versionMatch headerText with
  | Some m1 =>
      match SemVer.valid (trim m1) with
      | Some semver =>
          if truthy semver then (Some semver, [])
          else (None, [invalidHeaderWarning header])
      | None => (None, [invalidHeaderWarning header])
      end
  | None =>
      if includes unreleased (toLowerCase headerText)
      then (Some unreleased, [])
      else (None, [])
  end.

Record LoopState : Type := {
  st_description : jstring;
  st_entries : list ChangelogEntry;
  st_warnings : list jstring;
  st_currentEntry : option ChangelogEntry;
  st_firstHeaderFound : bool
}.

(** [if (currentEntry) entries.push({...currentEntry, content: ....trim()})] *)
Definition pushCurrent (cur : option ChangelogEntry) (es : list ChangelogEntry)
    : list ChangelogEntry :=
  match cur with
  | Some e => es ++ [{| version := version e; header := header e;
                        content := trim (content e) |}]
  | None => es
  end.

(** One iteration of [for (const line of lines)]. *)
Definition step (st : LoopState) (line : jstring) : LoopState :=
  match headingMatch line with
  | Some m1 =>
      let header := trim line in
      let headerText := trim m1 in
      let '(v, ws) := classifyHeading header headerText in
      {| st_description := st_description st;
         st_entries := pushCurrent (st_currentEntry st) (st_entries st);
         st_warnings := st_warnings st ++ ws;
         st_currentEntry := Some {| version := v; header := header; content := [] |};
         st_firstHeaderFound := true |}
  | None =>
      match st_currentEntry st with
      | Some e =>
          {| st_description := st_description st;
             st_entries := st_entries st;
             st_warnings := st_warnings st;
             st_currentEntry :=
               Some {| version := version e; header := header e;
                       content := content e ++ line ++ [LF] |};
             st_firstHeaderFound := st_firstHeaderFound st |}
      | None =>
          if negb (st_firstHeaderFound st) && negb (startsWith (lit "# ") line)
          then {| st_description := st_description st ++ line ++ [LF];
                  st_entries := st_entries st;
                  st_warnings := st_warnings st;
                  st_currentEntry := None;
                  st_firstHeaderFound := st_firstHeaderFound st |}
          else st
      end
  end.

Definition initialState : LoopState :=
  {| st_description := []; st_entries := []; st_warnings := [];
     st_currentEntry := None; st_firstHeaderFound := false |}.

Definition unreleasedHeader : jstring := lit "## [Unreleased]".

Definition missingWarning : jstring :=
  lit "CHANGELOG.md: Missing [Unreleased] section; creating an empty placeholder.".

Definition emptyWarning : jstring :=
  lit "CHANGELOG.md: Unreleased section is empty.".

(** [parseChangelog] after [readFile]: from the text of CHANGELOG.md. *)
Definition parseChangelogText (text : jstring) : ParsedChangelog :=
  let lines := splitLines text in
  let title :=
    match find (startsWith (lit "# ")) lines with
    | Some l => if truthy (trim l) then trim l else lit "Changelog"
    | None => lit "Changelog"
    end in
  let st := fold_left step lines initialState in
  let entries1 := pushCurrent (st_currentEntry st) (st_entries st) in
  let unreleasedContent := trim (st_description st) in
  let promote := truthy unreleasedContent && negb (existsb isUnreleased entries1) in
  let entries2 :=
    if promote
    then {| version := Some unreleased; header := unreleasedHeader;
            content := unreleasedContent |} :: entries1
    else entries1 in
  let description2 := if promote then [] else st_description st in
  let missing := negb (existsb isUnreleased entries2) in
  let warnings3 :=
    if missing then st_warnings st ++ [missingWarning] else st_warnings st in
  let entries3 :=
    if missing
    then {| version := Some unreleased; header := unreleasedHeader;
            content := [] |} :: entries2
    else entries2 in
  let warnings4 :=
    match find isUnreleased entries3 with
    | Some u =>
        if Nat.eqb (List.length (trim (content u))) 0
        then warnings3 ++ [emptyWarning]
        else warnings3
    | None => warnings3
    end in
  {| title := title; description := trim description2;
     entries := entries3; warnings := warnings4 |}.

Definition parseChangelog (fs : Files) : result ParsedChangelog :=
  match readFile fs "CHANGELOG.md" (changelogMd fs) with
  | Throw m => Throw m
  | Ok text => Ok (parseChangelogText text)
  end.

(** [updateChangelog(parsed, nextVersion)], with [today] for
    [new Date().toISOString().split("T")[0]]: the text written to
    CHANGELOG.md and the returned content of the new entry. *)
Definition renderEntry (e : ChangelogEntry) : jstring :=
  header e ++ [LF; LF] ++ content e ++ [LF; LF].

Definition updateChangelog (parsed : ParsedChangelog) (nextVersion today : jstring)
    : result (jstring * jstring) :=
  match find isUnreleased (entries parsed) with
  | None => Throw (lit "No unreleased changes found in CHANGELOG.md.")
  | Some u =>
      if negb (truthy (content u))
      then Throw (lit "No unreleased changes found in CHANGELOG.md.")
      else
        let newHeader := lit "## [" ++ nextVersion ++ lit "] - " ++ today in
        let newEntry := {| version := Some nextVersion; header := newHeader;
                           content := content u |} in
        let otherEntries := filter (fun e => negb (isUnreleased e)) (entries parsed) in
        let newEntries := newEntry :: otherEntries in
        let newUnreleasedSection := lit "## [Unreleased]" in
        let newContent := title parsed ++ [LF; LF] in
        let newContent :=
          if truthy (description parsed)
          then newContent ++ description parsed ++ [LF; LF]
          else newContent in
        let newContent := newContent ++ newUnreleasedSection ++ [LF; LF] in
        let newContent :=
          fold_left (fun acc entry => acc ++ renderEntry entry) newEntries newContent in
        let newContent := trim newContent ++ [LF] in
        Ok (newContent, content newEntry)
  end.

End ReleaseUtils.

(* ===================================================================== *)
(** ** tools/release.ts *)
(* ===================================================================== *)

Module Release.
Import ReleaseUtils.

(** What a run does to the outside: lines on the two console streams, files
    written, external commands started with [run].  The two queries that
    [getCurrentBranch] and [getDefaultBranch] start with [capture] are read
    from the world and leave no event. *)
Inductive event : Type :=
| Stdout (text : jstring)
| Stderr (text : jstring)
| Usage (examples : option (jstring * list (option jstring)))
| WriteManifest (version : jstring)
| WritePackage (version : jstring)
| WriteVersions (map : list (jstring * jstring))
| WriteChangelog (text : jstring)
| Run (cmd : jstring).

(** A computation either goes on with a value or ends the process with
    [process.exit(code)]; either way it leaves a trace of events. *)
Inductive outcome (A : Type) : Type :=
| Done (a : A)
| Exit (code : N).
Arguments Done {A} a.
Arguments Exit {A} code.

Definition M (A : Type) : Type := list event * outcome A.

Definition ret {A : Type} (a : A) : M A := ([], Done a).

Definition bind {A B : Type} (m : M A) (f : A -> M B) : M B :=
  match m with
  | (t, Done a) => let '(t', o) := f a in (t ++ t', o)
  | (t, Exit c) => (t, Exit c)
  end.

Notation "x <- m ;; k" := (bind m (fun x => k))
  (at level 61, m at next level, right associativity).
Notation "m ;;; k" := (bind m (fun _ => k))
  (at level 61, right associativity).

Definition emit (e : event) : M unit := ([e], Done tt).
Definition exit {A : Type} (code : N) : M A := ([], Exit code).
Definition when (b : bool) (m : M unit) : M unit := if b then m else ret tt.

(** The symbols of the log helpers, as the UTF-8 bytes of the script spell
    them (check mark, warning sign, ballot X, runner, lock, party popper);
    chalk's colour codes are left out, as with colours disabled. *)
Definition checkMark : jstring := [10003%N].
Definition warnSign : jstring := [9888%N].
Definition crossMark : jstring := [10007%N].
Definition runner : jstring := [55356%N; 57283%N].
Definition lock : jstring := [55357%N; 56594%N].
Definition party : jstring := [55356%N; 57225%N].

Definition log_success (isQuiet : bool) (msg : jstring) : M unit :=
  when (negb isQuiet) (emit (Stdout (checkMark ++ lit " " ++ msg))).
Definition log_warn (msg : jstring) : M unit :=
  emit (Stdout (warnSign ++ lit " " ++ msg)).
Definition log_error (msg : jstring) : M unit :=
  emit (Stderr (crossMark ++ lit " " ++ msg)).
Definition log_step (isQuiet : bool) (msg : jstring) : M unit :=
  when (negb isQuiet) (emit (Stdout ([LF] ++ msg))).
Definition log_info (isQuiet : bool) (msg : jstring) : M unit :=
  when (negb isQuiet) (emit (Stdout (lit "  " ++ msg))).
Definition log_blank (isQuiet : bool) : M unit :=
  when (negb isQuiet) (emit (Stdout [])).

Definition exitError {A : Type} (msg : jstring) : M A :=
  log_error msg ;;; exit 1.

(** [main().catch((e) => exitError(e.message))] for a throwing call. *)
Definition try {A : Type} (r : result A) : M A :=
  match r with
  | Ok a => ret a
  | Throw m => exitError m
  end.

(** What a run reads from outside the project files. *)
Record World : Type := {
  files : Files;
  TEST_CURRENT_BRANCH : option jstring;
  TEST_DEFAULT_BRANCH : option jstring;
  (** stdout of [git rev-parse --abbrev-ref HEAD], [None] when it fails *)
  gitRevParse : option jstring;
  (** stdout of [git ls-remote --symref origin HEAD], [None] when it fails *)
  gitLsRemote : option jstring;
  stdinIsTTY : bool;
  promptValue : bool;
  runSucceeds : jstring -> bool;
  today : jstring
}.

Record Args : Type := {
  noPush : bool;
  help : bool;
  versionFlag : bool;
  yes : bool;
  quiet : bool;
  preid : option jstring;
  strict : bool;
  positionals : list jstring
}.

Definition VERSION : jstring := lit "0.3.0".
Definition SCRIPT_NAME : jstring := lit "release".

Definition run (w : World) (cmd : jstring) : M bool :=
  emit (Run cmd) ;;;
  if runSucceeds w cmd then ret true
  else log_error (lit "Command failed: " ++ cmd) ;;; ret false.

Definition getCurrentBranch (w : World) : option jstring :=
  match TEST_CURRENT_BRANCH w with
  | Some b => if truthy b then Some b else option_map trim (gitRevParse w)
  | None => option_map trim (gitRevParse w)
  end.

(** The backtracking of the greedy group before [\s+HEAD]: the longest prefix
    of the line, of length at most [k], that white space and HEAD follow. *)
Fixpoint refName (k : nat) (rest : jstring) : option jstring :=
  let r := skipn k rest in
  if match r with c :: _ => isWhiteSpace c | [] => false end
     && startsWith (lit "HEAD") (dropWhile isWhiteSpace r)
  then Some (firstn k rest)
  else match k with
       | O => None
       | S k' => refName k' rest
       end.

(** The pattern [ref: refs/heads/], a group without line terminator, [\s+]
    and [HEAD], searched in [output]; the group of the leftmost match. *)
Fixpoint execRef (output : jstring) : option jstring :=
  let here :=
    if startsWith (lit "ref: refs/heads/") output then
      let rest := skipn 16 output in
      refName (List.length (takeWhile (fun c => negb (isLineTerminator c)) rest)) rest
    else None in
  match here with
  | Some b => Some b
  | None => match output with
            | [] => None
            | _ :: o' => execRef o'
            end
  end.

Definition getDefaultBranch (w : World) : option jstring :=
  let viaGit := match gitLsRemote w with
                | Some out => execRef (trim out)
                | None => None
                end in
  match TEST_DEFAULT_BRANCH w with
  | Some b => if truthy b then Some b else viaGit
  | None => viaGit
  end.

(** [.replace(re, "")] for the pattern "a dot followed by digits up to the
    end": the leftmost such dot is removed. *)
Fixpoint removeDot (s : jstring) : jstring :=
  match s with
  | [] => []
  | c :: s' =>
      if N.eqb c (ch ".") && Dec.isNumeric s' then s'
      else c :: removeDot s'
  end.

Definition buildHelpExamples (w : World) : option (jstring * list (option jstring)) :=
  match packageJsonVersion (files w) with
  | Some (Some pv) =>
      match SemVer.valid pv with
      | Some currentVersion =>
          let preid := lit "beta" in
          Some (currentVersion,
                [SemVer.inc currentVersion SemVer.Patch None;
                 SemVer.inc currentVersion SemVer.Minor None;
                 SemVer.inc currentVersion SemVer.Major None;
                 option_map removeDot
                   (SemVer.inc currentVersion SemVer.Prerelease (Some preid));
                 Some preid])
      | None => None
      end
  | _ => None
  end.

Definition showHelp (examples : option (jstring * list (option jstring))) : M unit :=
  emit (Usage examples).

Definition releaseTypeOf (arg : jstring) : option SemVer.ReleaseType :=
  if JS.eqb arg (lit "major") then Some SemVer.Major
  else if JS.eqb arg (lit "minor") then Some SemVer.Minor
  else if JS.eqb arg (lit "patch") then Some SemVer.Patch
  else if JS.eqb arg (lit "premajor") then Some SemVer.Premajor
  else if JS.eqb arg (lit "preminor") then Some SemVer.Preminor
  else if JS.eqb arg (lit "prepatch") then Some SemVer.Prepatch
  else if JS.eqb arg (lit "prerelease") then Some SemVer.Prerelease
  else None.

(** [releaseType.startsWith("pre")] *)
Definition startsWithPre (r : SemVer.ReleaseType) : bool :=
  match r with
  | SemVer.Premajor | SemVer.Preminor | SemVer.Prepatch | SemVer.Prerelease => true
  | _ => false
  end.

(** The message of the TypeError the library throws for a string that is not
    a version. *)
Definition invalidVersionError (v : jstring) : jstring :=
  lit "Invalid Version: " ++ v.

Definition placeholder : jstring := lit "- _No changes recorded._".

(** [unreleasedEntry.content = ...]: the entry found by [find] is an element
    of [parsedChangelog.entries], so the assignment changes that element. *)
Fixpoint setFirstUnreleasedContent (c : jstring) (es : list ChangelogEntry)
    : list ChangelogEntry :=
  match es with
  | [] => []
  | e :: es' =>
      if isUnreleased e
      then {| version := version e; header := header e; content := c |} :: es'
      else e :: setFirstUnreleasedContent c es'
  end.

Definition withEntries (p : ParsedChangelog) (es : list ChangelogEntry) : ParsedChangelog :=
  {| title := title p; description := description p; entries := es;
     warnings := warnings p |}.

(** Lines 240-248: parse the changelog, report the warnings, strict mode. *)
Definition stageParse (w : World) (strictMode : bool) : M ParsedChangelog :=
  parsedChangelog <- try (parseChangelog (files w)) ;;
  when (Nat.ltb 0 (List.length (warnings parsedChangelog)))
    (fold_left (fun acc warning => acc ;;; log_warn warning)
               (warnings parsedChangelog) (ret tt) ;;;
     when strictMode
       (exitError (lit "Strict mode: aborting due to changelog warnings."))) ;;;
  ret parsedChangelog.

(** Lines 250-273: make sure there is an unreleased entry with content. *)
Definition stageEnsure (strictMode : bool) (parsedChangelog : ParsedChangelog)
    : M ParsedChangelog :=
  p1 <- match find isUnreleased (entries parsedChangelog) with
        | Some _ => ret parsedChangelog
        | None =>
            let message :=
              lit "CHANGELOG.md: Unable to locate or create [Unreleased] section." in
            when strictMode (exitError message) ;;;
            log_warn message ;;;
            ret (withEntries parsedChangelog
                   ({| version := Some unreleased; header := unreleasedHeader;
                       content := [] |} :: entries parsedChangelog))
        end ;;
  match find isUnreleased (entries p1) with
  | Some unreleasedEntry =>
      if Nat.eqb (List.length (trim (content unreleasedEntry))) 0 then
        let message :=
          lit "CHANGELOG.md: [Unreleased] section is empty; using placeholder entry for release notes." in
        when strictMode (exitError message) ;;;
        log_warn message ;;;
        ret (withEntries p1 (setFirstUnreleasedContent placeholder (entries p1)))
      else ret p1
  | None => ret p1
  end.

(** Lines 299-303: a pre-release is refused on the default branch, when both
    branch names are known. *)
Definition branchPolicy (w : World) : M unit :=
  match getDefaultBranch w, getCurrentBranch w with
  | Some defaultBranch, Some currentBranch =>
      when (truthy defaultBranch && truthy currentBranch
            && JS.eqb currentBranch defaultBranch)
        (exitError (lit "Pre-releases must be created from a non-default branch."))
  | _, _ => ret tt
  end.

(** [releaseType.startsWith("pre") || prerelease(current)] *)
Definition isPreRelease (releaseType : SemVer.ReleaseType) (current : jstring) : bool :=
  startsWithPre releaseType
  || match SemVer.prereleaseOf current with Some _ => true | None => false end.

(** Lines 311-318: an absent next version is fatal; a pre-release loses the
    dot before its trailing number. *)
Definition finishNext (versionArg : jstring) (nextVersion : option jstring) : M jstring :=
  match nextVersion with
  | None => exitError (lit "Invalid version: " ++ versionArg)
  | Some nv =>
      if negb (truthy nv) then exitError (lit "Invalid version: " ++ versionArg)
      else
        match SemVer.prereleaseOf nv with
        | Some _ => ret (removeDot nv)
        | None => ret nv
        end
  end.

(** Lines 276-318: the next version, from a bump keyword or an explicit
    version. *)
Definition stageResolve (w : World) (current versionArg : jstring)
    (preid : option jstring) : M jstring :=
  nextVersion <-
    match releaseTypeOf versionArg with
    | Some releaseType =>
        when (isPreRelease releaseType current) (branchPolicy w) ;;;
        ret (SemVer.inc current releaseType preid)
    | None => ret (SemVer.valid versionArg)
    end ;;
  finishNext versionArg nextVersion.

(** The predicate of [parsedChangelog.entries.filter(...)] at line 324:
    [e.version && e.version !== "unreleased" && gt(e.version, nextVersion)]. *)
Definition isHigher (nextVersion : jstring) (e : ChangelogEntry) : result bool :=
  match version e with
  | None => Ok false
  | Some v =>
      if negb (truthy v) then Ok false
      else if JS.eqb v unreleased then Ok false
      else match SemVer.gt v nextVersion with
           | Some b => Ok b
           | None => Throw (invalidVersionError
                              (match SemVer.parse v with
                               | None => v
                               | Some _ => nextVersion
                               end))
           end
  end.

Fixpoint filterHigher (nextVersion : jstring) (es : list ChangelogEntry)
    : result (list ChangelogEntry) :=
  match es with
  | [] => Ok []
  | e :: es' =>
      match isHigher nextVersion e with
      | Throw m => Throw m
      | Ok b =>
          match filterHigher nextVersion es' with
          | Throw m => Throw m
          | Ok l => Ok (if b then e :: l else l)
          end
      end
  end.

(** An element of [higherVersions.map((e) => e.version)] as [join] prints
    it: null becomes the empty string. *)
Definition versionString (e : ChangelogEntry) : jstring :=
  match version e with Some v => v | None => [] end.

Definition conflictMessage (higherVersions : list ChangelogEntry) : jstring :=
  lit "Changelog contains versions higher than the target version: "
  ++ join (lit ", ") (map versionString higherVersions).

(** Lines 322-332: no recorded version may be higher than the next one. *)
Definition stageCheckHigher (parsedChangelog : ParsedChangelog)
    (nextVersion : jstring) : M unit :=
  higherVersions <- try (filterHigher nextVersion (entries parsedChangelog)) ;;
  when (Nat.ltb 0 (List.length higherVersions))
    (exitError (conflictMessage higherVersions)).

(** Lines 340-355: the confirmation. *)
Definition stageConfirm (w : World) (isQuiet autoConfirm : bool) : M unit :=
  when (negb autoConfirm)
    (when (negb (stdinIsTTY w))
       (exitError (lit "Running in non-interactive mode without --yes flag. Use --yes to auto-confirm.")) ;;;
     when (negb (promptValue w))
       (log_info isQuiet (lit "Cancelled.") ;;; exit 0)).

(** [obj[key] = value] on the versions map: an existing key keeps its place. *)
Fixpoint assign (key value : jstring) (m : list (jstring * jstring))
    : list (jstring * jstring) :=
  match m with
  | [] => [(key, value)]
  | (k, v) :: m' =>
      if JS.eqb k key then (k, value) :: m' else (k, v) :: assign key value m'
  end.

(** Lines 358-392: the three metadata files and the changelog. *)
Definition stageMutate (w : World) (isQuiet : bool) (meta : ProjectInfo)
    (parsedChangelog : ParsedChangelog) (nextVersion : jstring) : M jstring :=
  log_step isQuiet (lit "Updating manifest.json...") ;;;
  _ <- try (readFile (files w) "manifest.json" (manifestJson (files w))) ;;
  emit (WriteManifest nextVersion) ;;;
  log_success isQuiet (lit "Updated manifest.json to " ++ nextVersion) ;;;
  log_step isQuiet (lit "Updating package.json...") ;;;
  _ <- try (readFile (files w) "package.json" (packageJsonVersion (files w))) ;;
  emit (WritePackage nextVersion) ;;;
  log_success isQuiet (lit "Updated package.json to " ++ nextVersion) ;;;
  log_step isQuiet (lit "Updating versions.json...") ;;;
  versionsJson <- try (readFile (files w) "versions.json" (versionsJson (files w))) ;;
  (if negb (truthyAt nextVersion versionsJson) then
     emit (WriteVersions (assign nextVersion (minAppVersion meta) versionsJson)) ;;;
     log_success isQuiet (lit "Added " ++ nextVersion ++ lit " to versions.json")
   else
     log_warn (lit "Version " ++ nextVersion ++ lit " already exists in versions.json")) ;;;
  log_step isQuiet (lit "Updating CHANGELOG.md...") ;;;
  written <- try (updateChangelog parsedChangelog nextVersion (today w)) ;;
  emit (WriteChangelog (fst written)) ;;;
  log_success isQuiet (lit "Updated CHANGELOG.md") ;;;
  ret (snd written).

Definition quote : jstring := [34%N].

(** Lines 394-444: the checks, the commit and tag, and the push. *)
Definition stagePublish (w : World) (isQuiet noPush : bool)
    (nextVersionTag changelog : jstring) : M unit :=
  log_blank isQuiet ;;;
  log_step isQuiet (lit "Running checks...") ;;;
  ok <- run w (lit "npm run check") ;;
  when (negb ok) (exitError (lit "Checks failed. Please fix issues before releasing.")) ;;;
  log_success isQuiet (lit "All checks passed!") ;;;
  log_blank isQuiet ;;;
  log_step isQuiet (lit "Creating release commit and tag...") ;;;
  let commitMessage := lit "chore: release " ++ nextVersionTag ++ [LF; LF] ++ changelog in
  ok <- run w (lit "git commit -am " ++ quote ++ commitMessage ++ quote) ;;
  when (negb ok) (exitError (lit "Git commit failed. Please check git status.")) ;;;
  log_success isQuiet (lit "Changes committed") ;;;
  ok <- run w (lit "git tag -a " ++ nextVersionTag ++ lit " -m " ++ quote ++ changelog ++ quote) ;;
  when (negb ok) (exitError (lit "Git tag creation failed.")) ;;;
  log_success isQuiet (lit "Tag " ++ nextVersionTag ++ lit " created") ;;;
  when noPush
    (log_blank isQuiet ;;;
     log_warn (runner ++ lit " no-push mode - stopping before push") ;;;
     log_blank isQuiet ;;;
     log_step isQuiet (lit "To revert:") ;;;
     log_info isQuiet (lit "git reset --hard HEAD~1 && git tag -d " ++ nextVersionTag) ;;;
     log_blank isQuiet ;;;
     log_step isQuiet (lit "To complete release:") ;;;
     log_info isQuiet (lit "git push && git push --tags") ;;;
     log_blank isQuiet ;;;
     exit 0) ;;;
  log_blank isQuiet ;;;
  log_step isQuiet (lit "Pushing to remote...") ;;;
  ok <- run w (lit "git push") ;;
  when (negb ok) (exitError (lit "Git push failed.")) ;;;
  ok <- run w (lit "git push --tags") ;;
  when (negb ok) (exitError (lit "Git push tags failed.")) ;;;
  log_success isQuiet (lit "Pushed to remote") ;;;
  log_blank isQuiet ;;;
  log_success isQuiet (party ++ lit " Release " ++ nextVersionTag ++ lit " complete!") ;;;
  log_blank isQuiet.

(** Lines 214-445 of [main], after the help and version flags. *)
Definition release (w : World) (args : Args) (versionArg : jstring) : M unit :=
  let strictMode := strict args in
  (if noPush args
   then log_warn (runner ++ lit " Running in no-push mode. No changes will be pushed to the remote.")
   else log_info false (lock ++ lit " Running in push mode. Changes will be pushed to the remote.")) ;;;
  let autoConfirm := yes args in
  let isQuiet := quiet args in
  log_step isQuiet (lit "Verifying project state...") ;;;
  meta <- try (getProjectInfo (files w)) ;;
  try (checkVersionCoherency meta) ;;;
  let current := pi_version meta in
  log_success isQuiet (lit "Project state is coherent.") ;;;
  parsedChangelog <- stageParse w strictMode ;;
  parsedChangelog <- stageEnsure strictMode parsedChangelog ;;
  nextVersion <- stageResolve w current versionArg (preid args) ;;
  let nextVersionTag := nextVersion in
  stageCheckHigher parsedChangelog nextVersion ;;;
  log_blank isQuiet ;;;
  log_info isQuiet (lit "Version bump: " ++ current ++ lit " -> " ++ nextVersion) ;;;
  log_blank isQuiet ;;;
  stageConfirm w isQuiet autoConfirm ;;;
  log_blank isQuiet ;;;
  changelog <- stageMutate w isQuiet meta parsedChangelog nextVersion ;;
  stagePublish w isQuiet (noPush args) nextVersionTag changelog.

Definition main (w : World) (args : Args) : M unit :=
  if help args then showHelp (buildHelpExamples w)
  else if versionFlag args then
    emit (Stdout (SCRIPT_NAME ++ lit " version " ++ VERSION))
  else
    match positionals args with
    | versionArg :: _ =>
        if truthy versionArg then release w args versionArg
        else showHelp (buildHelpExamples w) ;;; exitError (lit "Missing version argument.")
    | [] => showHelp (buildHelpExamples w) ;;; exitError (lit "Missing version argument.")
    end.

End Release.

(* ===================================================================== *)
(** ** Notions used to state the properties *)
(* ===================================================================== *)

Module Spec.
Import Dec SemVer ReleaseUtils Release.

(** [text] contains the strings of [parts] as disjoint substrings, in the
    order of the list. *)
Fixpoint containsInOrder (parts : list jstring) (text : jstring) : Prop :=
  match parts with
  | [] => True
  | p :: ps => exists pre post, text = pre ++ p ++ post /\ containsInOrder ps post
  end.

(** The last code unit of [s], if any, is not white space. *)
Definition noTrailingSpace (s : jstring) : Prop := trimEnd s = s.

(** An entry as the parser makes it: header and content trimmed at the end. *)
Definition entryTrimmed (e : ChangelogEntry) : Prop :=
  noTrailingSpace (header e) /\ noTrailingSpace (content e).

(** Strictly greater in the order of semantic versions. *)
Definition semverGt (a b : jstring) : Prop :=
  exists x y, SemVer.parse a = Some x /\ SemVer.parse b = Some y
              /\ SemVer.compare x y = Gt.

(** The version of a recorded entry is null, "unreleased" or a version. *)
Definition recorded (e : ChangelogEntry) : Prop :=
  match version e with
  | None => True
  | Some v => v = unreleased \/ SemVer.valid v = Some v
  end.

(** The entries the loop of the parser reads from the headings of [text]. *)
Definition headingEntries (text : jstring) : list ChangelogEntry :=
  let st := fold_left step (splitLines text) initialState in
  pushCurrent (st_currentEntry st) (st_entries st).

Definition isHeading (line : jstring) : bool :=
  match headingMatch line with Some _ => true | None => false end.

(** The styles of a version heading. *)
Inductive wrap : Type := Square | Paren | Bare.

Definition openOf (w : wrap) : jstring :=
  match w with Square => lit "[" | Paren => lit "(" | Bare => [] end.
Definition closeOf (w : wrap) : jstring :=
  match w with Square => lit "]" | Paren => lit ")" | Bare => [] end.

(** [## [X.Y.Z] - date] and its variants: brackets, parentheses or neither,
    an optional [v], an optional date. *)
Definition versionHeading (w : wrap) (v : bool) (x y z : jstring)
    (date : option jstring) : jstring :=
  lit "## " ++ openOf w ++ (if v then lit "v" else [])
  ++ x ++ lit "." ++ y ++ lit "." ++ z ++ closeOf w
  ++ match date with Some d => lit " - " ++ d | None => [] end.

(** A version-shaped token: three runs of digits separated by dots. *)
Definition hasVersionToken (s : jstring) : Prop :=
  exists p x y z q,
    s = p ++ x ++ lit "." ++ y ++ lit "." ++ z ++ q
    /\ Dec.isNumeric x = true /\ Dec.isNumeric y = true /\ Dec.isNumeric z = true.

Definition isWrite (e : event) : bool :=
  match e with
  | WriteManifest _ | WritePackage _ | WriteVersions _ | WriteChangelog _ => true
  | _ => false
  end.

Definition isRun (e : event) : bool :=
  match e with Run _ => true | _ => false end.

(** The lines a trace puts on the error stream. *)
Fixpoint stderrOf (t : list event) : list jstring :=
  match t with
  | [] => []
  | Stderr m :: t' => m :: stderrOf t'
  | _ :: t' => stderrOf t'
  end.

Fixpoint stdoutOf (t : list event) : list jstring :=
  match t with
  | [] => []
  | Stdout m :: t' => m :: stdoutOf t'
  | _ :: t' => stdoutOf t'
  end.

(** No file is written and no command is run. *)
Definition untouched (t : list event) : Prop :=
  forallb (fun e => negb (isWrite e) && negb (isRun e)) t = true.


(** *** Auxiliary notions of the proofs *)

Definition headNot (p : char -> bool) (s : jstring) : bool :=
  match s with [] => true | c :: _ => negb (p c) end.

(** [s] is not empty and its last code unit is not white space. *)
Definition endsSolid (s : jstring) : bool :=
  match rev s with
  | c :: _ => negb (isWhiteSpace c)
  | [] => false
  end.

Definition mainString (v : SemVer.t) : jstring :=
  toDec (major v) ++ lit "." ++ toDec (minor v) ++ lit "." ++ toDec (patch v).

(** Empty, or beginning with a hyphen. *)
Definition preTail (rest : jstring) : Prop :=
  rest = [] \/ exists r, rest = ch "-" :: r.

Definition plainBump (r : ReleaseType) (current : jstring) : Prop :=
  r <> Prerelease \/ prereleaseOf current = None.

(** The run ends with the message about higher versions in the changelog. *)
Definition abortsWithConflict (m : M unit) : Prop :=
  exists hs, hs <> [] /\ m = exitError (conflictMessage hs).

(** What the loop body makes of a heading line: its version and warnings. *)
Definition classifyLine (line : jstring) : option jstring * list jstring :=
  match headingMatch line with
  | Some m1 => classifyHeading (trim line) (trim m1)
  | None => (None, [])
  end.

(** [headerText] of a heading line. *)
Definition headerTextOf (line : jstring) : jstring :=
  match headingMatch line with
  | Some m1 => trim m1
  | None => []
  end.

Definition versionAndHeader (e : ChangelogEntry) : option jstring * jstring :=
  (version e, header e).

Definition pending (st : LoopState) : list ChangelogEntry :=
  pushCurrent (st_currentEntry st) (st_entries st).

Definition solid (c : char) : bool := negb (isWhiteSpace c).

Definition notLineTerminator (c : char) : bool := negb (isLineTerminator c).

(** What may follow the third numeral for the token to end there. *)
Definition stops (r : jstring) : bool :=
  match r with
  | [] => true
  | c :: _ => negb (isDigit c) && negb (isSuffixSep c)
  end.

Definition dateTail (date : option jstring) : jstring :=
  match date with Some d => lit " - " ++ d | None => [] end.

Definition token (x y z : jstring) : jstring := x ++ lit "." ++ y ++ lit "." ++ z.

(** The part of a version heading up to the closing bracket. *)
Definition headingCore (w : wrap) (v : bool) (x y z : jstring) : jstring :=
  openOf w ++ (if v then lit "v" else []) ++ x ++ lit "." ++ y ++ lit "." ++ z
  ++ closeOf w.

(** The entries the writer keeps. *)
Definition keptEntries (parsed : ParsedChangelog) : list ChangelogEntry :=
  filter (fun e => negb (isUnreleased e)) (entries parsed).

(** Header and content of each entry, in order. *)
Definition partsOf (es : list ChangelogEntry) : list jstring :=
  flat_map (fun e => [header e; content e]) es.

(** The text before the entries: title, preamble, fresh unreleased heading. *)
Definition preambleOf (parsed : ParsedChangelog) : jstring :=
  (if truthy (description parsed)
   then (title parsed ++ [LF; LF]) ++ description parsed ++ [LF; LF]
   else title parsed ++ [LF; LF])
  ++ lit "## [Unreleased]" ++ [LF; LF].

Definition entriesTrimmed (parsed : ParsedChangelog) : Prop :=
  Forall entryTrimmed (entries parsed).

(** The line [log.warn] prints for a warning. *)
Definition warnLine (w : jstring) : event := Stdout (warnSign ++ lit " " ++ w).

(** What [release] prints before it parses the changelog. *)
Definition logsBefore (args : Args) : list event :=
  (if noPush args
   then [Stdout (warnSign ++ lit " " ++ runner
                 ++ lit " Running in no-push mode. No changes will be pushed to the remote.")]
   else [Stdout (lit "  " ++ lock
                 ++ lit " Running in push mode. Changes will be pushed to the remote.")])
  ++ (if quiet args then []
      else [Stdout ([LF] ++ lit "Verifying project state...");
            Stdout (checkMark ++ lit " " ++ lit "Project state is coherent.")]).

Definition strictMessage : jstring :=
  lit "Strict mode: aborting due to changelog warnings.".

Definition policyMessage : jstring :=
  lit "Pre-releases must be created from a non-default branch.".

Definition errorLine (msg : jstring) : jstring := crossMark ++ lit " " ++ msg.


(** [s] ends with a carriage return. *)
Definition endsWithCR (s : jstring) : bool :=
  match rev s with
  | c :: _ => N.eqb c CR
  | [] => false
  end.

Definition optionEqb (a b : option jstring) : bool :=
  match a, b with
  | Some x, Some y => JS.eqb x y
  | None, None => true
  | _, _ => false
  end.

(** The lines of an entry's body, each closed by a newline, as the loop of
    the parser appends them to the content. *)
Definition closeLines (ls : list jstring) : jstring :=
  List.concat (map (fun l => l ++ [LF]) ls).

(** An entry that reads back as itself: the header is one heading line,
    trimmed, and gives the entry its version; the content is trimmed, none of
    its lines is a heading, and no carriage return stands before a newline. *)
Definition reparsable (e : ChangelogEntry) : bool :=
  isHeading (header e)
  && negb (existsb (N.eqb LF) (header e))
  && JS.eqb (trim (header e)) (header e)
  && optionEqb (version e) (fst (classifyLine (header e)))
  && JS.eqb (trim (content e)) (content e)
  && forallb (fun l => negb (isHeading l)) (splitLines (content e))
  && JS.eqb (closeLines (splitLines (content e))) (content e ++ [LF]).

(** The lines the writer's text has for an entry, after the header. *)
Definition bodyLines (e : ChangelogEntry) (last : bool) : list jstring :=
  if last && negb (truthy (content e)) then [[]]
  else [] :: splitLines (content e) ++ [[]].

Definition blockLines (e : ChangelogEntry) (last : bool) : list jstring :=
  header e :: bodyLines e last.

(** The lines of the writer's text for a sequence of entries that ends the
    text. *)
Fixpoint linesOf (es : list ChangelogEntry) : list jstring :=
  match es with
  | [] => []
  | [e] => blockLines e true
  | e :: es' => blockLines e false ++ linesOf es'
  end.

End Spec.

(* ===================================================================== *)
(** ** Concrete changelogs, projects and runs *)
(* ===================================================================== *)

Module Examples.
Import Dec SemVer ReleaseUtils Release Spec.

Definition quietWorld : World :=
  {| files := {| manifestJson := None; packageJsonVersion := None;
                 versionsJson := None; changelogMd := None;
                 readError := fun p => p; missing := fun _ => true |};
     TEST_CURRENT_BRANCH := Some (lit "develop");
     TEST_DEFAULT_BRANCH := Some (lit "main");
     gitRevParse := None; gitLsRemote := None;
     stdinIsTTY := false; promptValue := false;
     runSucceeds := fun _ => true; today := lit "2025-01-01" |}.

Definition conflictExample : ParsedChangelog :=
  parseChangelogText
    (lit "## [Unreleased]" ++ [LF] ++ lit "- x" ++ [LF]
     ++ lit "## [1.2.0] - 2024-01-01" ++ [LF] ++ lit "- Old" ++ [LF]).

Definition malformedText : jstring :=
  lit "## 2024.01.01 notes" ++ [LF] ++ lit "### sub" ++ [LF] ++ lit "##" ++ [LF].

Definition filesWith (text : jstring) : Files :=
  {| manifestJson := None; packageJsonVersion := None; versionsJson := None;
     changelogMd := Some text; readError := fun p => p;
     missing := fun _ => true |}.

(** A release heading followed by two unreleased headings. *)
Definition twoUnreleased : jstring :=
  lit "# Changelog" ++ [LF]
  ++ lit "## [1.0.0] - 2024-01-01" ++ [LF] ++ lit "- first" ++ [LF]
  ++ lit "## [Unreleased]" ++ [LF] ++ lit "- pending" ++ [LF]
  ++ lit "## Unreleased (draft)" ++ [LF] ++ lit "- more" ++ [LF].

Definition bothHeading : jstring := lit "## [1.2.3] - Unreleased".

Definition bothText : jstring :=
  lit "# Changelog" ++ [LF] ++ bothHeading ++ [LF] ++ lit "- x" ++ [LF].

(** The project of the test-suite: version 1.0.0 everywhere. *)
Definition testFiles (changelog : jstring) : Files :=
  {| manifestJson := Some {| m_id := Some (lit "test");
                             m_version := Some (lit "1.0.0");
                             m_minAppVersion := Some (lit "1.0.0") |};
     packageJsonVersion := Some (Some (lit "1.0.0"));
     versionsJson := Some [(lit "1.0.0", lit "1.0.0")];
     changelogMd := Some changelog;
     readError := fun p => lit "ENOENT: " ++ p;
     missing := fun _ => true |}.

Definition testWorld (changelog : jstring) (currentBranch defaultBranch : option jstring)
    : World :=
  {| files := testFiles changelog;
     TEST_CURRENT_BRANCH := currentBranch;
     TEST_DEFAULT_BRANCH := defaultBranch;
     gitRevParse := None; gitLsRemote := None;
     stdinIsTTY := false; promptValue := false;
     runSucceeds := fun _ => true; today := lit "2025-01-01" |}.

Definition testArgs (versionArg : jstring) (strictMode : bool) : Args :=
  {| noPush := true; help := false; versionFlag := false; yes := true;
     quiet := false; preid := None; strict := strictMode;
     positionals := [versionArg] |}.

(** The changelog of the strict-mode test: no unreleased section. *)
Definition noUnreleasedText : jstring :=
  lit "# Changelog" ++ [LF; LF] ++ lit "## [1.0.0] - 2024-01-01" ++ [LF; LF]
  ++ lit "- Initial release" ++ [LF].

Definition pendingText : jstring :=
  lit "# Changelog" ++ [LF; LF] ++ lit "## [Unreleased]" ++ [LF; LF]
  ++ lit "- Initial unreleased changes." ++ [LF].

End Examples.

(* ===================================================================== *)
(** ** tools/get-release-notes.ts *)
(* ===================================================================== *)

Module ReleaseNotes.
Import ReleaseUtils Release.

Definition isAscii (c : char) : bool := N.ltb c 128.

(** What the development uses of [String.prototype.toLowerCase]: on a string
    of ASCII code units it maps A-Z to a-z and leaves the rest. *)
Definition lowerOnAscii (f : jstring -> jstring) : Prop :=
  forall s, forallb isAscii s = true -> f s = toLowerCase s.

(** [console.error("ERROR: ..."); exit(1)], also the handler of
    [main().catch], which prints ["ERROR:"] and the message of the error. *)
Definition fail {A : Type} (message : jstring) : M A :=
  emit (Stderr (lit "ERROR: " ++ message)) ;;; exit 1.

Definition attempt {A : Type} (r : result A) : M A :=
  match r with
  | Ok a => ret a
  | Throw m => fail m
  end.

(** [versionArg?.trim() || (await getProjectInfo()).version], where
    [versionArg] is [process.argv[2]], [None] when absent. *)
Definition targetVersionOf (fs : Files) (versionArg : option jstring) : result jstring :=
  let fromProject :=
    match getProjectInfo fs with
    | Ok info => Ok (pi_version info)
    | Throw m => Throw m
    end in
  match versionArg with
  | Some a => if truthy (trim a) then Ok (trim a) else fromProject
  | None => fromProject
  end.

Definition notFound (targetVersion : jstring) : jstring :=
  lit "Could not find changelog entry for version " ++ targetVersion ++ lit ".".

(** [`${matchingEntry.header}\n\n${matchingEntry.content}`.trimEnd()] *)
Definition bodyOf (e : ChangelogEntry) : jstring :=
  trimEnd (header e ++ [LF; LF] ++ content e).

Section Main.

Variable toLowerCaseJS : jstring -> jstring.

(** [(entry.version ?? '').toLowerCase() === targetVersion.toLowerCase()] *)
Definition matchesVersion (targetVersion : jstring) (entry : ChangelogEntry) : bool :=
  JS.eqb (toLowerCaseJS (match version entry with Some v => v | None => [] end))
         (toLowerCaseJS targetVersion).

Definition main (fs : Files) (versionArg : option jstring) : M unit :=
  targetVersion <- attempt (targetVersionOf fs versionArg) ;;
  when (negb (truthy targetVersion))
    (fail (lit "No version supplied and unable to determine current version.")) ;;;
  changelog <- attempt (parseChangelog fs) ;;
  match find (matchesVersion targetVersion) (entries changelog) with
  | Some matchingEntry =>
      if truthy (content matchingEntry)
      then emit (Stdout (bodyOf matchingEntry))
      else fail (notFound targetVersion)
  | None => fail (notFound targetVersion)
  end.

End Main.

End ReleaseNotes.

(* ===================================================================== *)
(** ** tools/get-meta.ts *)
(* ===================================================================== *)

Module GetMeta.
Import Release.

(** A value as [JSON.parse] returns it.  Of a number the script observes
    whether it is zero and what [String] makes of it; an object is the list of
    its members, one for each key. *)
#[local] Unset Elimination Schemes.
Inductive json : Type :=
| JNull
| JBool (b : bool)
| JNumber (nonzero : bool) (text : jstring)
| JString (s : jstring)
| JArray (items : list json)
| JObject (members : list (jstring * json)).
#[local] Set Elimination Schemes.

(** What reading and parsing a file comes to: [Missing] is the error with
    code ENOENT, [Broken] any other error, with its message. *)
Inductive source : Type :=
| Missing
| Broken (message : jstring)
| Parsed (j : json).

(** The two files of the project, with their paths, and what node prints
    on the error stream for an uncaught TypeError before it ends the process
    with status 1. *)
Record MetaFiles : Type := {
  manifestPath : jstring;
  manifestFile : source;
  packagePath : jstring;
  packageFile : source;
  uncaughtTypeError : jstring
}.

Fixpoint member (key : jstring) (ms : list (jstring * json)) : option json :=
  match ms with
  | [] => None
  | (k, v) :: ms' => if JS.eqb k key then Some v else member key ms'
  end.

(** [value.key] for one of the keys [id], [version], [scripts], which no
    prototype defines: [None] is undefined. *)
Definition get (j : json) (key : string) : option json :=
  match j with
  | JObject ms => member (lit key) ms
  | _ => None
  end.

Definition truthyJson (j : json) : bool :=
  match j with
  | JNull => false
  | JBool b => b
  | JNumber nonzero _ => nonzero
  | JString s => truthy s
  | JArray _ | JObject _ => true
  end.

Definition truthyField (f : option json) : bool :=
  match f with
  | Some j => truthyJson j
  | None => false
  end.

Fixpoint sequence {A : Type} (xs : list (option A)) : option (list A) :=
  match xs with
  | [] => Some []
  | Some x :: xs' => option_map (cons x) (sequence xs')
  | None :: _ => None
  end.

(** [`${value}`]: the string of the value, [None] for the TypeError of an
    object that cannot be converted, which is one whose own [toString] hides
    the function of the prototype.  An array joins the strings of its items
    with commas, null as the empty string. *)
Fixpoint toText (j : json) : option jstring :=
  match j with
  | JNull => Some (lit "null")
  | JBool true => Some (lit "true")
  | JBool false => Some (lit "false")
  | JNumber _ text => Some text
  | JString s => Some s
  | JArray items =>
      option_map (join (lit ","))
        (sequence (map (fun x => match x with JNull => Some [] | _ => toText x end)
                       items))
  | JObject members =>
      match member (lit "toString") members with
      | Some _ => None
      | None => Some (lit "[object Object]")
      end
  end.

Definition fieldText (f : option json) : option jstring :=
  match f with
  | Some j => toText j
  | None => Some (lit "undefined")
  end.

Definition error {A : Type} (line : jstring) : M A :=
  emit (Stderr line) ;;; exit 1.

(** [getJson(filePath)]: the parsed value, null for a file that does not
    exist; any other failure ends the process. *)
Definition getJson (filePath : jstring) (file : source) : M json :=
  match file with
  | Parsed j => ret j
  | Missing => ret JNull
  | Broken message =>
      error (lit "ERROR: Failed to read or parse " ++ filePath ++ lit ": " ++ message)
  end.

(** [typeof value === "object" && "build" in value], for a truthy value. *)
Definition hasBuildKey (scripts : json) : bool :=
  match scripts with
  | JObject ms => match member (lit "build") ms with Some _ => true | None => false end
  | _ => false
  end.

Definition hasBuildTask (packageJson : json) : bool :=
  truthyJson packageJson
  && match get packageJson "scripts" with
     | Some scripts => truthyJson scripts && hasBuildKey scripts
     | None => false
     end.

(** The template of the last statement; its values are converted in order. *)
Definition output (id version : option json) (build : bool) : option jstring :=
  match fieldText id, fieldText version with
  | Some name, Some number =>
      Some (lit "tool_name=" ++ name ++ [LF]
            ++ lit "tool_version=" ++ number ++ [LF]
            ++ lit "has_build_task=" ++ (if build then lit "true" else lit "false"))
  | _, _ => None
  end.

(** The statements of the script, in order. *)
Definition script (fs : MetaFiles) : M unit :=
  manifest <- getJson (manifestPath fs) (manifestFile fs) ;;
  when (negb (truthyJson manifest)) (error (lit "ERROR: manifest.json not found.")) ;;;
  let id := get manifest "id" in
  let version := get manifest "version" in
  when (negb (truthyField id))
    (error (lit "ERROR: 'id' field is required in manifest.json")) ;;;
  when (negb (truthyField version))
    (error (lit "ERROR: 'version' field is required in manifest.json")) ;;;
  packageJson <- getJson (packagePath fs) (packageFile fs) ;;
  when (match packageJson with JNull => true | _ => false end)
    (error (lit "ERROR: package.json not found.")) ;;;
  match output id version (hasBuildTask packageJson) with
  | Some text => emit (Stdout text)
  | None => error (uncaughtTypeError fs)
  end.

End GetMeta.

(* ===================================================================== *)
(** ** Notions used to state further properties *)
(* ===================================================================== *)

Module Effects.
Import Dec SemVer ReleaseUtils Release Spec.

(** Every event of the trace of [m] satisfies [p]. *)
Definition traceAll {A : Type} (p : event -> bool) (m : M A) : Prop :=
  forallb p (fst m) = true.

(** [m] ends the process. *)
Definition exits {A : Type} (m : M A) : Prop :=
  exists t c, m = (t, Exit c).

(** A computation that reports on the error stream exactly when it ends the
    process with status 1, and ends it with status 0 or 1 only. *)
Definition reported {A : Type} (m : M A) : Prop :=
  match m with
  | (t, Exit c) => (c = 1%N /\ stderrOf t <> []) \/ (c = 0%N /\ stderrOf t = [])
  | (t, Done _) => stderrOf t = []
  end.

(** The commands a trace starts, in order. *)
Fixpoint commandsOf (t : list event) : list jstring :=
  match t with
  | [] => []
  | Run c :: t' => c :: commandsOf t'
  | _ :: t' => commandsOf t'
  end.

Definition isPush (c : jstring) : bool :=
  JS.eqb c (lit "git push") || JS.eqb c (lit "git push --tags").

Definition notPush (e : event) : bool :=
  match e with
  | Run c => negb (isPush c)
  | _ => true
  end.

Definition notWrite (e : event) : bool := negb (isWrite e).

Definition quietEvent (e : event) : bool := negb (isWrite e) && negb (isRun e).

(** The line of [log.info] about the push mode, printed before the quiet mode
    is set. *)
Definition pushModeLine : jstring :=
  lit "  " ++ lock
  ++ lit " Running in push mode. Changes will be pushed to the remote.".

(** What is left on the output stream in quiet mode: warnings, and the line
    about the push mode. *)
Definition essential (e : event) : bool :=
  match e with
  | Stdout line => startsWith (warnSign ++ lit " ") line || JS.eqb line pushModeLine
  | _ => true
  end.

(** Every command of the list but the last one succeeds. *)
Fixpoint allButLastSucceed (ok : jstring -> bool) (cs : list jstring) : bool :=
  match cs with
  | [] => true
  | [_] => true
  | c :: cs' => ok c && allButLastSucceed ok cs'
  end.

(** The commands of the publish stage. *)
Definition checkCommand : jstring := lit "npm run check".

Definition commitCommand (tag notes : jstring) : jstring :=
  lit "git commit -am " ++ quote
  ++ (lit "chore: release " ++ tag ++ [LF; LF] ++ notes) ++ quote.

Definition tagCommand (tag notes : jstring) : jstring :=
  lit "git tag -a " ++ tag ++ lit " -m " ++ quote ++ notes ++ quote.

(** The commands the publish stage starts and how it ends, given which
    commands succeed: it stops at the first command that fails, and after the
    tag when nothing is to be pushed. *)
Definition publishResult (ok : jstring -> bool) (noPush : bool) (tag notes : jstring)
    : list jstring * outcome unit :=
  let c1 := checkCommand in
  let c2 := commitCommand tag notes in
  let c3 := tagCommand tag notes in
  let c4 := lit "git push" in
  let c5 := lit "git push --tags" in
  if negb (ok c1) then ([c1], Exit 1%N)
  else if negb (ok c2) then ([c1; c2], Exit 1%N)
  else if negb (ok c3) then ([c1; c2; c3], Exit 1%N)
  else if noPush then ([c1; c2; c3], Exit 0%N)
  else if negb (ok c4) then ([c1; c2; c3; c4], Exit 1%N)
  else if negb (ok c5) then ([c1; c2; c3; c4; c5], Exit 1%N)
  else ([c1; c2; c3; c4; c5], Done tt).

(** The writes of the mutation stage, in order. *)
Definition mutationWrites (meta : ProjectInfo) (next out : jstring) : list event :=
  [WriteManifest next; WritePackage next]
  ++ (if truthyAt next (versions meta) then []
      else [WriteVersions (assign next (minAppVersion meta) (versions meta))])
  ++ [WriteChangelog out].

(** The run was confirmed: by [--yes], or at the prompt of a terminal. *)
Definition confirmed (w : World) (args : Args) : Prop :=
  yes args = true \/ (stdinIsTTY w = true /\ promptValue w = true).



(** The lines before the first heading line. *)
Fixpoint beforeHeading (lines : list jstring) : list jstring :=
  match lines with
  | [] => []
  | l :: ls => if isHeading l then [] else l :: beforeHeading ls
  end.

(** The heading lines, each with the lines up to the next heading line. *)
Fixpoint blocksOf (lines : list jstring) : list (jstring * list jstring) :=
  match lines with
  | [] => []
  | l :: ls =>
      if isHeading l then (l, beforeHeading ls) :: blocksOf ls else blocksOf ls
  end.

(** The entry of a heading line and the lines below it. *)
Definition entryOf (block : jstring * list jstring) : ChangelogEntry :=
  {| version := fst (classifyLine (fst block));
     header := trim (fst block);
     content := trim (closeLines (snd block)) |}.

(** The text before the first heading, title lines left out. *)
Definition preambleText (text : jstring) : jstring :=
  closeLines (filter (fun l => negb (startsWith (lit "# ") l))
                     (beforeHeading (splitLines text))).

Definition synthesized (c : jstring) : ChangelogEntry :=
  {| version := Some unreleased; header := unreleasedHeader; content := c |}.

(** The warnings of the heading lines, in order. *)
Definition headingWarnings (text : jstring) : list jstring :=
  List.concat (map (fun l => snd (classifyLine l))
                   (filter isHeading (splitLines text))).

Definition isBlank (s : jstring) : bool := Nat.eqb (List.length (trim s)) 0.

(** A date as [toISOString] writes it: digits and hyphens. *)
Definition isDate (d : jstring) : bool :=
  truthy d && forallb (fun c => isDigit c || N.eqb c (ch "-")) d.

(** A text the parser reads back line by line: no line is a heading and no
    carriage return stands before a newline. *)
Definition plainLines (s : jstring) : bool :=
  forallb (fun l => negb (isHeading l)) (splitLines s)
  && JS.eqb (closeLines (splitLines s)) (s ++ [LF]).

(** The text with Windows line ends: a carriage return before every newline. *)
Definition toCRLF (s : jstring) : jstring :=
  flat_map (fun c => if N.eqb c LF then [CR; LF] else [c]) s.

(** The entry the writer makes of the unreleased notes. *)
Definition releaseEntry (next today notes : jstring) : ChangelogEntry :=
  {| version := Some next;
     header := lit "## [" ++ next ++ lit "] - " ++ today;
     content := notes |}.

(** A text that reads back as itself between two headings: trimmed, and of
    plain lines. *)
Definition plainText (s : jstring) : bool :=
  JS.eqb (trim s) s && plainLines s.

(** A changelog the parser reads back from the writer's text: the title is
    one trimmed title line; the description and the unreleased notes are
    plain texts, the description without a title line; the released entries
    read back as themselves. *)
Definition readsBack (pc : ParsedChangelog) : bool :=
  startsWith (lit "# ") (title pc)
  && negb (existsb (N.eqb LF) (title pc))
  && JS.eqb (trim (title pc)) (title pc)
  && plainText (description pc)
  && forallb (fun l => negb (startsWith (lit "# ") l)) (splitLines (description pc))
  && forallb reparsable (keptEntries pc)
  && match find isUnreleased (entries pc) with
     | Some u => plainText (content u)
     | None => false
     end.

End Effects.

(* ===================================================================== *)
(** ** Further concrete projects *)
(* ===================================================================== *)

Module Samples.
Import Dec SemVer ReleaseUtils Release Spec Examples Effects.


(** A clone whose remote answers with the default branch main. *)
Definition remoteWorld : World :=
  {| files := filesWith [];
     TEST_CURRENT_BRANCH := None; TEST_DEFAULT_BRANCH := None;
     gitRevParse := Some (lit "main" ++ [LF]);
     gitLsRemote := Some (lit "ref: refs/heads/main" ++ [9%N] ++ lit "HEAD" ++ [LF]
                          ++ lit "0a1b2c3d" ++ [9%N] ++ lit "HEAD" ++ [LF]);
     stdinIsTTY := false; promptValue := false;
     runSucceeds := fun _ => true; today := lit "2025-01-01" |}.

(** A quiet release that pushes, confirmed by [--yes]. *)
Definition quietArgs : Args :=
  {| noPush := false; help := false; versionFlag := false; yes := true;
     quiet := true; preid := None; strict := false;
     positionals := [lit "patch"] |}.

(** The project of the tests of the metadata script. *)
Definition metaFiles : GetMeta.MetaFiles :=
  {| GetMeta.manifestPath := lit "/plugin/manifest.json";
     GetMeta.manifestFile :=
       GetMeta.Parsed
         (GetMeta.JObject
            [(lit "id", GetMeta.JString (lit "my-plugin"));
             (lit "version", GetMeta.JString (lit "1.2.3"));
             (lit "minAppVersion", GetMeta.JString (lit "1.0.0"))]);
     GetMeta.packagePath := lit "/plugin/package.json";
     GetMeta.packageFile :=
       GetMeta.Parsed
         (GetMeta.JObject
            [(lit "scripts",
              GetMeta.JObject
                [(lit "build",
                  GetMeta.JString (lit "node esbuild.config.mjs production"))])]);
     GetMeta.uncaughtTypeError :=
       lit "TypeError: Cannot convert object to primitive value" |}.

(** The changelog of the tests of the release script, for version 1.0.0. *)
Definition releasedText : jstring :=
  lit "# Changelog" ++ [LF; LF] ++ lit "## [Unreleased]" ++ [LF; LF]
  ++ lit "- New stuff for next release." ++ [LF; LF]
  ++ lit "## [1.0.0] - 2024-01-01" ++ [LF; LF] ++ lit "- Initial release" ++ [LF].

(** What the parser makes of that changelog. *)
Definition releasedChangelog : ParsedChangelog := parseChangelogText releasedText.

End Samples.

(* ===================================================================== *)
(** ** src/rule.ts, src/main.ts, src/events.ts: the plugin *)
(* ===================================================================== *)

(** What the plugin uses of regular expressions.  It builds every
    expression with the flag [g] and only ever replaces its matches in a
    text by the empty string, after resetting [lastIndex]: an expression is
    modelled by that function.  The constructor is the
    engine's; the development fixes what it does on the patterns a literal
    rule is compiled to. *)
Module RegExp.

Definition backslash : char := 92%N.

(** SyntaxCharacter of the pattern grammar. *)
Definition isSyntaxCharacter (c : char) : bool :=
  existsb (N.eqb c) (lit "^$\.*+?()[]{}|").

(** The text a pattern stands for when it is a sequence of pattern
    characters and of syntax characters escaped with a backslash; [None] for
    any other pattern. *)
Fixpoint literalOf (source : jstring) : option jstring :=
  match source with
  | [] => Some []
  | c :: rest =>
      if N.eqb c backslash then
        match rest with
        | d :: rest' =>
            if isSyntaxCharacter d then option_map (cons d) (literalOf rest')
            else None
        | [] => None
        end
      else if isSyntaxCharacter c then None
      else option_map (cons c) (literalOf rest)
  end.

(** [text.replace(expression, empty)] for a global expression that matches
    the text [p], which is not empty, and nothing else: the occurrences of [p]
    are found from left to right, each search starting where the last match
    ended.  [inside] counts the code units of the current match still to be
    dropped. *)
Fixpoint removeFrom (p : jstring) (inside : nat) (text : jstring) : jstring :=
  match text with
  | [] => []
  | c :: text' =>
      match inside with
      | S n => removeFrom p n text'
      | O =>
          if startsWith p text then removeFrom p (List.length p - 1) text'
          else c :: removeFrom p 0 text'
      end
  end.

Definition removeAll (p text : jstring) : jstring :=
  match p with
  | [] => text
  | _ :: _ => removeFrom p 0 text
  end.

(** An engine compiles a pattern that stands for a text which is not empty
    to the expression that matches that text. *)
Definition literalEngine
    (newRegExp : jstring -> ReleaseUtils.result (jstring -> jstring)) : Prop :=
  forall source p,
    literalOf source = Some p -> p <> [] ->
    exists expression,
      newRegExp source = ReleaseUtils.Ok expression
      /\ forall text, expression text = removeAll p text.

End RegExp.

Module Plugin.
Import ReleaseUtils RegExp.

(** The class of [/[.*+?^${}()|[\]\\]/]. *)
Definition special (c : char) : bool :=
  existsb (N.eqb c) (lit ".*+?^${}()|[]") || N.eqb c backslash.

(** [pattern.replace(/[.*+?^${}()|[\]\\]/g, "\\$&")] *)
Definition escaped (pattern : jstring) : jstring :=
  flat_map (fun c => if special c then [backslash; c] else [c]) pattern.

Record RemovalRule : Type := {
  pattern : jstring -> jstring;
  isRegex : bool;
  original : jstring
}.

(** The settings; their list [isRegex] is [s_isRegex] here, next to the
    field of that name of a rule. *)
Record PasteCleanerSettings : Type := {
  removalRules : list jstring;
  s_isRegex : list bool;
  settingsFormatVersion : N;
  debugMode : bool
}.

(** What the plugin does to the world around it: lines on the console, with
    the objects printed after the text, and calls on the editor and on the
    paste event. *)
Inductive effect : Type :=
| ConsoleWarn (text : jstring)
| ConsoleError (text error : jstring)
| ConsoleDebug (text : jstring)
| ConsoleDebugTypes (text : jstring) (types : option (list jstring))
| ReplaceSelection (text : jstring)
| PreventDefault.

Definition isConsole (e : effect) : bool :=
  match e with
  | ReplaceSelection _ | PreventDefault => false
  | _ => true
  end.

Record DataTransfer : Type := {
  types : list jstring;
  getData : jstring -> jstring
}.

Record ClipboardEvent : Type := {
  defaultPrevented : bool;
  clipboardData : option DataTransfer
}.

Section Engine.

(** [new RegExp(source, "g")]: the expression, or the SyntaxError. *)
Variable newRegExp : jstring -> result (jstring -> jstring).

(** [new RemovalRule(pattern, isRegex)], for a pattern that is a string. *)
Definition newRemovalRule (pattern : jstring) (isRegex : bool) : result RemovalRule :=
  if Nat.eqb (List.length pattern) 0 then Throw (lit "Pattern cannot be empty.")
  else
    match newRegExp (if isRegex then pattern else escaped pattern) with
    | Ok expression =>
        Ok {| pattern := expression; isRegex := isRegex; original := pattern |}
    | Throw message => Throw message
    end.

(** The loop of [compileRules] from index [i], with [n] rounds to go. *)
Fixpoint compileLoop (settings : PasteCleanerSettings) (n i : nat)
    : list effect * list RemovalRule :=
  match n with
  | O => ([], [])
  | S n' =>
      let pattern := nth i (removalRules settings) [] in
      let '(logs, rules) := compileLoop settings n' (S i) in
      if negb (truthy pattern) then
        ((if debugMode settings
          then [ConsoleWarn (lit "Paste Cleaner: Skipping empty removal rule at index "
                             ++ Dec.toDec (N.of_nat i) ++ lit ".")]
          else []) ++ logs, rules)
      else
        match newRemovalRule pattern (nth i (s_isRegex settings) false) with
        | Ok compiledRule => (logs, compiledRule :: rules)
        | Throw e =>
            ((if debugMode settings
              then [ConsoleError (lit "Failed to compile rule " ++ Release.quote ++ pattern
                                  ++ Release.quote ++ lit ":") e]
              else []) ++ logs, rules)
        end
  end.

(** [compileRules()]: what it prints and the new value of [this.rules]. *)
Definition compileRules (settings : PasteCleanerSettings)
    : list effect * list RemovalRule :=
  compileLoop settings
    (Nat.min (List.length (removalRules settings)) (List.length (s_isRegex settings)))
    0.

End Engine.

(** [applyRules(source, rules)]; [None] is null or undefined. *)
Definition applyRules (source : option jstring) (rules : list RemovalRule) : jstring :=
  match source with
  | None => []
  | Some text => fold_left (fun result rule => pattern rule result) rules text
  end.

(** The plugin as [onPaste] sees it; [hasEditor] tells whether
    [app.workspace.activeEditor?.editor] is there. *)
Record PasteCleaner : Type := {
  settings : PasteCleanerSettings;
  rules : list RemovalRule;
  hasEditor : bool
}.

Definition debug (this : PasteCleaner) (lines : list effect) : list effect :=
  if debugMode (settings this) then lines else [].

Definition textPlain : jstring := lit "text/plain".

Definition onPaste (this : PasteCleaner) (event : ClipboardEvent) : list effect :=
  if defaultPrevented event then
    debug this [ConsoleDebug (lit "Paste event already prevented, skipping rules.")]
  else
    let types := option_map types (clipboardData event) in
    debug this [ConsoleDebugTypes (lit "Paste Cleaner: clipboard content types:") types]
    ++
    if negb (match types with
             | Some ts => existsb (JS.eqb textPlain) ts
             | None => false
             end)
    then debug this
           [ConsoleDebug (lit "Paste Cleaner: No text/plain content available, skipping.")]
    else
      match option_map (fun d => getData d textPlain) (clipboardData event) with
      | None | Some [] =>
          debug this
            [ConsoleDebug (lit "Paste Cleaner: Empty text/plain content, skipping.")]
      | Some plainText =>
          let result := applyRules (Some plainText) (rules this) in
          debug this
            [ConsoleDebug (lit "Paste Cleaner: Original length: "
                           ++ Dec.toDec (N.of_nat (List.length plainText))
                           ++ lit ", Result length: "
                           ++ Dec.toDec (N.of_nat (List.length result)));
             ConsoleDebug (lit "Paste Cleaner: '" ++ plainText ++ lit "' -> '"
                           ++ result ++ lit "'")]
          ++
          if negb (JS.eqb result plainText) then
            (if hasEditor this then [ReplaceSelection result] else [])
            ++ [PreventDefault]
          else []
      end.

(** The calls on the editor and on the event, the console left out. *)
Definition actions (effects : list effect) : list effect :=
  filter (fun e => negb (isConsole e)) effects.

(** The rules of the settings that compile: those with a pattern that is
    not empty which the constructor accepts. *)
Definition compiles (newRegExp : jstring -> result (jstring -> jstring))
    (rule : jstring * bool) : bool :=
  truthy (fst rule)
  && match newRemovalRule newRegExp (fst rule) (snd rule) with
     | Ok _ => true
     | Throw _ => false
     end.

End Plugin.

Module PluginSamples.
Import ReleaseUtils RegExp Plugin.

(** An engine for the patterns that stand for a text, which is all a
    literal rule needs. *)
Definition textEngine (source : jstring) : result (jstring -> jstring) :=
  match literalOf source with
  | Some (c :: p) => Ok (removeAll (c :: p))
  | _ => Throw (lit "Invalid regular expression")
  end.

(** The first rule of the default settings. *)
Definition trackerRule : jstring := lit "?utm_source=chatgpt.com".

Definition trackerSettings : PasteCleanerSettings :=
  {| removalRules := [trackerRule; []];
     s_isRegex := [false; false];
     settingsFormatVersion := 2;
     debugMode := false |}.

Definition pasteOf (text : jstring) : ClipboardEvent :=
  {| defaultPrevented := false;
     clipboardData :=
       Some {| types := [lit "text/html"; textPlain];
               getData := fun format => if JS.eqb format textPlain then text else [] |} |}.

End PluginSamples.


(* ===================================================================== *)
(** ** Strings and numerals: basic facts *)
(* ===================================================================== *)

Module StringFacts.
Import Dec SemVer ReleaseUtils Release Spec Examples.

Lemma takeWhile_app_stop (p : char -> bool) (a b : jstring) :
  forallb p a = true -> headNot p b = true -> takeWhile p (a ++ b) = a.
Proof.
  induction a as [|c a IH]; simpl; intros Ha Hb.
  - destruct b as [|d b]; simpl in *; [reflexivity|].
    destruct (p d); [discriminate|reflexivity].
  - apply andb_true_iff in Ha as [Hc Ha]. rewrite Hc. f_equal. auto.
Qed.

Lemma dropWhile_app_stop (p : char -> bool) (a b : jstring) :
  forallb p a = true -> headNot p b = true -> dropWhile p (a ++ b) = b.
Proof.
  induction a as [|c a IH]; simpl; intros Ha Hb.
  - destruct b as [|d b]; simpl in *; [reflexivity|].
    destruct (p d); [discriminate|reflexivity].
  - apply andb_true_iff in Ha as [Hc Ha]. rewrite Hc. auto.
Qed.

Lemma takeWhile_dropWhile (p : char -> bool) (s : jstring) :
  takeWhile p s ++ dropWhile p s = s.
Proof.
  induction s as [|c s IH]; simpl; [reflexivity|].
  destruct (p c); simpl; [f_equal; exact IH|reflexivity].
Qed.

Lemma takeWhile_all (p : char -> bool) (s : jstring) :
  forallb p (takeWhile p s) = true.
Proof.
  induction s as [|c s IH]; simpl; [reflexivity|].
  destruct (p c) eqn:E; simpl; [rewrite E; exact IH|reflexivity].
Qed.

Lemma dropWhile_head (p : char -> bool) (s : jstring) :
  headNot p (dropWhile p s) = true.
Proof.
  induction s as [|c s IH]; simpl; [reflexivity|].
  destruct (p c) eqn:E; [exact IH|simpl; rewrite E; reflexivity].
Qed.

Lemma dropWhile_app (p : char -> bool) (x y : jstring) :
  dropWhile p (x ++ y) =
  if forallb p x then dropWhile p y else dropWhile p x ++ y.
Proof.
  induction x as [|c x IH]; simpl; [reflexivity|].
  destruct (p c); simpl; [exact IH|reflexivity].
Qed.

Lemma dropWhile_all (p : char -> bool) (x : jstring) :
  forallb p x = true -> dropWhile p x = [].
Proof.
  induction x as [|c x IH]; simpl; [reflexivity|].
  intros H. apply andb_true_iff in H as [Hc Hx]. rewrite Hc. auto.
Qed.

Lemma dropWhile_id (p : char -> bool) (s : jstring) :
  headNot p s = true -> dropWhile p s = s.
Proof.
  destruct s as [|c s]; simpl; [reflexivity|].
  destruct (p c); [discriminate|reflexivity].
Qed.

Lemma endsSolid_app (a b : jstring) :
  endsSolid b = true -> endsSolid (a ++ b) = true.
Proof.
  unfold endsSolid. rewrite rev_app_distr.
  destruct (rev b); [discriminate|]. simpl. auto.
Qed.

Lemma trimEnd_app_keep (a b : jstring) :
  endsSolid a = true -> trimEnd (a ++ b) = a ++ trimEnd b.
Proof.
  unfold endsSolid, trimEnd, trimStart. intros H.
  rewrite rev_app_distr, dropWhile_app.
  destruct (rev a) as [|c r] eqn:E; [discriminate|].
  assert (Hd : dropWhile isWhiteSpace (c :: r) = c :: r).
  { simpl. destruct (isWhiteSpace c); [discriminate|reflexivity]. }
  destruct (forallb isWhiteSpace (rev b)) eqn:F.
  - rewrite Hd, (dropWhile_all _ _ F).
    rewrite <- E, rev_involutive. simpl. rewrite app_nil_r. reflexivity.
  - rewrite rev_app_distr, <- E, rev_involutive. reflexivity.
Qed.

Lemma trimEnd_solid (a : jstring) : endsSolid a = true -> trimEnd a = a.
Proof.
  intros H. rewrite <- (app_nil_r a) at 1.
  rewrite (trimEnd_app_keep _ _ H). simpl. apply app_nil_r.
Qed.

Lemma trimEnd_nil : trimEnd [] = [].
Proof. reflexivity. Qed.

(** What [trimEnd] returns is empty or ends with a solid code unit. *)
Lemma trimEnd_shape (s : jstring) :
  trimEnd s = [] \/ endsSolid (trimEnd s) = true.
Proof.
  unfold trimEnd, trimStart, endsSolid. rewrite rev_involutive.
  pose proof (dropWhile_head isWhiteSpace (rev s)) as H.
  destruct (dropWhile isWhiteSpace (rev s)) as [|c r]; [left; reflexivity|].
  right. exact H.
Qed.

Lemma trimEnd_idem (s : jstring) : trimEnd (trimEnd s) = trimEnd s.
Proof.
  destruct (trimEnd_shape s) as [E|E]; [rewrite E; reflexivity|].
  apply trimEnd_solid, E.
Qed.

Lemma trimEnd_prefix (s : jstring) :
  exists w, s = trimEnd s ++ w /\ forallb isWhiteSpace w = true.
Proof.
  unfold trimEnd, trimStart.
  exists (rev (takeWhile isWhiteSpace (rev s))). split.
  - rewrite <- rev_app_distr, takeWhile_dropWhile, rev_involutive. reflexivity.
  - rewrite forallb_forall. intros x Hx. apply in_rev in Hx.
    pose proof (takeWhile_all isWhiteSpace (rev s)) as H.
    rewrite forallb_forall in H. auto.
Qed.

Lemma trimEnd_all_space (w : jstring) :
  forallb isWhiteSpace w = true -> trimEnd w = [].
Proof.
  intros H. unfold trimEnd, trimStart. rewrite dropWhile_all; [reflexivity|].
  rewrite forallb_forall in *. intros x Hx. apply H, in_rev, Hx.
Qed.

Lemma trimEnd_app_space (s w : jstring) :
  forallb isWhiteSpace w = true -> trimEnd (s ++ w) = trimEnd s.
Proof.
  intros H. unfold trimEnd, trimStart. rewrite rev_app_distr, dropWhile_app.
  assert (F : forallb isWhiteSpace (rev w) = true).
  { rewrite forallb_forall in *. intros x Hx. apply H, in_rev, Hx. }
  rewrite F. reflexivity.
Qed.

Lemma trim_solid (c : char) (s : jstring) :
  isWhiteSpace c = false -> trim (c :: s) = c :: trimEnd s.
Proof.
  intros H. unfold trim, trimStart. simpl. rewrite H.
  change (c :: s) with ([c] ++ s). rewrite trimEnd_app_keep; [reflexivity|].
  unfold endsSolid. simpl. rewrite H. reflexivity.
Qed.

Lemma eqb_eq (a b : jstring) : JS.eqb a b = true <-> a = b.
Proof.
  revert b. induction a as [|x a IH]; destruct b as [|y b]; simpl;
    try (split; [discriminate|discriminate]); [tauto|].
  rewrite andb_true_iff, N.eqb_eq, IH. split.
  - intros [-> ->]. reflexivity.
  - intros E. injection E. auto.
Qed.

Lemma eqb_refl (a : jstring) : JS.eqb a a = true.
Proof. apply eqb_eq. reflexivity. Qed.

Lemma eqb_neq (a b : jstring) : JS.eqb a b = false <-> a <> b.
Proof.
  rewrite <- eqb_eq. destruct (JS.eqb a b); split; congruence.
Qed.

Lemma digit_not_space (c : char) : isDigit c = true -> isWhiteSpace c = false.
Proof.
  unfold isDigit, isWhiteSpace, isLineTerminator. intros H.
  apply andb_true_iff in H as [H1 H2].
  apply N.leb_le in H1. apply N.leb_le in H2.
  repeat (apply orb_false_iff; split);
    try (apply N.eqb_neq; lia).
  apply andb_false_iff. left. apply N.leb_gt. lia.
Qed.

End StringFacts.

Module DecFacts.
Import Dec SemVer ReleaseUtils Release Spec Examples.
Import Dec StringFacts.

Lemma toUint_ofUint (u : Decimal.uint) : toUint (ofUint u) = u.
Proof. induction u; simpl; try rewrite IHu; reflexivity. Qed.

Lemma ofDec_toDec (n : N) : ofDec (toDec n) = n.
Proof.
  unfold ofDec, toDec. rewrite toUint_ofUint. apply DecimalN.Unsigned.of_to.
Qed.

Lemma allDigits_ofUint (u : Decimal.uint) : allDigits (ofUint u) = true.
Proof. induction u; simpl; auto. Qed.

Lemma allDigits_toDec (n : N) : allDigits (toDec n) = true.
Proof. apply allDigits_ofUint. Qed.

Lemma to_uint_normal (n : N) : Decimal.unorm (N.to_uint n) = N.to_uint n.
Proof.
  rewrite <- DecimalN.Unsigned.to_of, DecimalN.Unsigned.of_to. reflexivity.
Qed.

Lemma toDec_nonempty (n : N) : truthy (toDec n) = true.
Proof.
  unfold toDec. pose proof (to_uint_normal n) as H.
  destruct (N.to_uint n); simpl; try reflexivity.
  exfalso. revert H. apply DecimalFacts.unorm_nonnil.
Qed.

Lemma toDec_canonical (n : N) : isCanonical (toDec n) = true.
Proof.
  unfold toDec. pose proof (to_uint_normal n) as H.
  destruct (N.to_uint n) as [|u|u|u|u|u|u|u|u|u|u] eqn:E;
    try (simpl; destruct (ofUint u) eqn:Eu; [reflexivity|];
         rewrite <- Eu; simpl; apply allDigits_ofUint).
  - exfalso. revert H. apply DecimalFacts.unorm_nonnil.
  - rewrite DecimalFacts.unorm_D0 in H. unfold Decimal.unorm in H.
    destruct (Decimal.nzhead u) eqn:Eh.
    + injection H as <-. reflexivity.
    + exfalso. exact (DecimalFacts.nzhead_nonzero _ _ Eh).
    + discriminate. + discriminate. + discriminate. + discriminate.
    + discriminate. + discriminate. + discriminate. + discriminate.
    + discriminate.
Qed.

Lemma toDec_numeric (n : N) : isNumeric (toDec n) = true.
Proof.
  unfold isNumeric. rewrite toDec_nonempty, allDigits_toDec. reflexivity.
Qed.

Lemma numeric_endsSolid (s : jstring) : isNumeric s = true -> endsSolid s = true.
Proof.
  unfold isNumeric, allDigits, endsSolid. intros H.
  apply andb_true_iff in H as [H1 H2].
  destruct (rev s) as [|c r] eqn:E.
  - destruct s; [discriminate|]. apply (f_equal (@List.length _)) in E.
    rewrite length_rev in E. discriminate.
  - rewrite forallb_forall in H2.
    rewrite (digit_not_space c); [reflexivity|].
    apply H2, in_rev. rewrite E. left. reflexivity.
Qed.

Lemma numeric_head_digit (s : jstring) :
  isNumeric s = true -> exists c r, s = c :: r /\ isDigit c = true.
Proof.
  unfold isNumeric. destruct s as [|c r]; simpl; [discriminate|].
  intros H. apply andb_true_iff in H as [H _]. eauto.
Qed.

End DecFacts.

Module SemVerFacts.
Import Dec SemVer ReleaseUtils Release Spec Examples.
Import Dec SemVer StringFacts DecFacts.

Lemma format_shape (v : SemVer.t) :
  exists rest, format v = mainString v ++ rest /\ preTail rest
               /\ (prerelease v = [] -> rest = []).
Proof.
  unfold format, mainString. destruct (prerelease v) as [|i p].
  - exists []. repeat rewrite <- app_assoc. repeat split; auto. left. reflexivity.
  - eexists. repeat rewrite <- app_assoc. split; [reflexivity|]. split.
    + right. eexists. reflexivity.
    + discriminate.
Qed.

Lemma expect_dot (s : jstring) : expect (ch ".") (lit "." ++ s) = Some s.
Proof. reflexivity. Qed.

Lemma parseMain_numerals (a b c : N) (rest : jstring) :
  headNot isDigit rest = true ->
  parseMain (toDec a ++ lit "." ++ toDec b ++ lit "." ++ toDec c ++ rest) =
  if N.leb a MAX_SAFE_INTEGER && N.leb b MAX_SAFE_INTEGER && N.leb c MAX_SAFE_INTEGER
  then Some (a, b, c, rest) else None.
Proof.
  intros Hr. unfold parseMain.
  rewrite (takeWhile_app_stop isDigit (toDec a)), (dropWhile_app_stop isDigit (toDec a));
    try apply allDigits_toDec; try reflexivity.
  rewrite expect_dot.
  rewrite (takeWhile_app_stop isDigit (toDec b)), (dropWhile_app_stop isDigit (toDec b));
    try apply allDigits_toDec; try reflexivity.
  rewrite expect_dot.
  rewrite (takeWhile_app_stop isDigit (toDec c)), (dropWhile_app_stop isDigit (toDec c));
    try apply allDigits_toDec; try exact Hr.
  rewrite !toDec_canonical, !ofDec_toDec. simpl.
  destruct (N.leb a MAX_SAFE_INTEGER), (N.leb b MAX_SAFE_INTEGER),
    (N.leb c MAX_SAFE_INTEGER); reflexivity.
Qed.

Lemma mainString_head (v : SemVer.t) (rest : jstring) :
  exists c r, mainString v ++ rest = c :: r /\ isDigit c = true.
Proof.
  unfold mainString.
  destruct (numeric_head_digit _ (toDec_numeric (major v))) as (c & r & E & Hc).
  rewrite E. simpl. eauto.
Qed.

Lemma mainString_endsSolid (v : SemVer.t) : endsSolid (mainString v) = true.
Proof.
  unfold mainString. rewrite !app_assoc. apply endsSolid_app.
  apply numeric_endsSolid, toDec_numeric.
Qed.

Lemma preTail_trimEnd (rest : jstring) :
  preTail rest -> preTail (trimEnd rest) /\ (rest = [] -> trimEnd rest = []).
Proof.
  intros [->|[r ->]].
  - split; [left; reflexivity|reflexivity].
  - split; [|discriminate]. right. exists (trimEnd r).
    change (ch "-" :: r) with ([ch "-"] ++ r).
    rewrite trimEnd_app_keep; reflexivity.
Qed.

Lemma preTail_headNot (rest : jstring) : preTail rest -> headNot isDigit rest = true.
Proof. intros [->|[r ->]]; reflexivity. Qed.

(** A string made of the three numerals of [v] and a pre-release tail, if
    it is a version at all, has the numbers of [v]. *)
Lemma parse_main_numbers (v nv : SemVer.t) (rest : jstring) :
  preTail rest ->
  parse (mainString v ++ rest) = Some nv ->
  major nv = major v /\ minor nv = minor v /\ patch nv = patch v
  /\ (rest = [] -> prerelease nv = []).
Proof.
  intros Hrest. unfold parse.
  destruct (Nat.ltb MAX_LENGTH (List.length (mainString v ++ rest))); [discriminate|].
  assert (Ht : trim (mainString v ++ rest) = mainString v ++ trimEnd rest).
  { unfold trim, trimStart.
    destruct (mainString_head v rest) as (c & r & E & Hc).
    rewrite dropWhile_id.
    - apply trimEnd_app_keep, mainString_endsSolid.
    - rewrite E. simpl. rewrite (digit_not_space c Hc). reflexivity. }
  rewrite Ht.
  destruct (mainString_head v (trimEnd rest)) as (c & r & E & Hc).
  assert (Hv : N.eqb c (ch "v") = false).
  { apply N.eqb_neq. unfold isDigit in Hc. apply andb_true_iff in Hc as [_ Hc].
    apply N.leb_le in Hc. change (ch "v") with 118%N. lia. }
  rewrite E, Hv, <- E. unfold mainString. rewrite <- !app_assoc.
  destruct (preTail_trimEnd rest Hrest) as [Hp Hnil].
  rewrite (parseMain_numerals _ _ _ _ (preTail_headNot _ Hp)).
  destruct (N.leb (major v) MAX_SAFE_INTEGER && N.leb (minor v) MAX_SAFE_INTEGER
            && N.leb (patch v) MAX_SAFE_INTEGER); [|discriminate].
  destruct Hp as [E0|[r0 E0]]; rewrite E0.
  - simpl. intros H. injection H as <-. simpl. auto.
  - change (N.eqb (ch "-") (ch "-")) with true. cbv iota beta.
    destruct (dropWhile isPreChar r0) as [|x q].
    + simpl. destruct (forallb validPreId _ && true); [|discriminate].
      intros H. injection H as <-. simpl. repeat split; auto.
      intros ->. specialize (Hnil eq_refl). rewrite Hnil in E0. discriminate.
    + destruct (N.eqb x (ch "+")); simpl.
      * destruct (forallb validPreId _ && forallb validBuildId _); [|discriminate].
        intros H. injection H as <-. simpl. repeat split; auto.
        intros ->. specialize (Hnil eq_refl). rewrite Hnil in E0. discriminate.
      * discriminate.
Qed.

Lemma compareMain_refl (x : SemVer.t) : compareMain x x = Eq.
Proof. unfold compareMain. rewrite !N.compare_refl. reflexivity. Qed.

Lemma identEqb_refl (a : ident) : identEqb a a = true.
Proof. destruct a; simpl; [apply N.eqb_refl|apply eqb_refl]. Qed.

Lemma comparePreLoop_refl (p : list ident) : comparePreLoop p p = Eq.
Proof.
  induction p as [|a p IH]; simpl; [reflexivity|].
  rewrite identEqb_refl. exact IH.
Qed.

Lemma compare_refl (x : SemVer.t) : compare x x = Eq.
Proof.
  unfold compare. rewrite compareMain_refl. unfold comparePre.
  destruct (prerelease x) eqn:E; [reflexivity|]. apply comparePreLoop_refl.
Qed.

(** The four ways the next version of a bump exceeds the current one. *)
Lemma compare_gt_intro (x y : SemVer.t) :
  (major y < major x)%N
  \/ (major x = major y /\ (minor y < minor x)%N)
  \/ (major x = major y /\ minor x = minor y /\ (patch y < patch x)%N)
  \/ (major x = major y /\ minor x = minor y /\ patch x = patch y
      /\ prerelease x = [] /\ prerelease y <> []) ->
  compare x y = Gt.
Proof.
  unfold compare, compareMain, comparePre.
  intros [H|[[E H]|[(E1 & E2 & H)|(E1 & E2 & E3 & Hx & Hy)]]].
  - apply N.compare_gt_iff in H. rewrite H. reflexivity.
  - rewrite E, N.compare_refl. apply N.compare_gt_iff in H. rewrite H. reflexivity.
  - rewrite E1, E2, !N.compare_refl. apply N.compare_gt_iff in H. rewrite H.
    reflexivity.
  - rewrite E1, E2, E3, !N.compare_refl, Hx.
    destruct (prerelease y); [congruence|reflexivity].
Qed.

Lemma parse_nil : parse [] = None.
Proof. reflexivity. Qed.

Lemma valid_parse (v s : jstring) : valid v = Some s -> exists x, parse v = Some x /\ s = format x.
Proof.
  unfold valid. destruct (parse v) as [x|]; simpl; [|discriminate].
  intros H. injection H as <-. eauto.
Qed.

Lemma format_head (x : SemVer.t) : exists c r, format x = c :: r /\ isDigit c = true.
Proof.
  destruct (format_shape x) as (rest & E & _). rewrite E. apply mainString_head.
Qed.

Lemma valid_truthy (v s : jstring) : valid v = Some s -> truthy s = true.
Proof.
  intros H. destruct (valid_parse _ _ H) as (x & _ & ->).
  destruct (format_head x) as (c & r & -> & _). reflexivity.
Qed.

Lemma valid_not_unreleased (v s : jstring) :
  valid v = Some s -> s <> ReleaseUtils.unreleased.
Proof.
  intros H. destruct (valid_parse _ _ H) as (x & _ & ->).
  destruct (format_head x) as (c & r & -> & Hc). intros E.
  injection E as -> _. discriminate.
Qed.

End SemVerFacts.

(* ===================================================================== *)
(** ** The version resolver *)
(* ===================================================================== *)

Module ResolverProps.
Import Dec SemVer ReleaseUtils Release Spec Examples.
Import Dec SemVer ReleaseUtils Release Spec StringFacts DecFacts SemVerFacts.

Lemma removeDot_past_hyphen (p r : jstring) :
  removeDot (p ++ ch "-" :: r) = p ++ ch "-" :: removeDot r.
Proof.
  induction p as [|c p IH]; [reflexivity|].
  change (removeDot ((c :: p) ++ ch "-" :: r))
    with (if N.eqb c (ch ".") && isNumeric (p ++ ch "-" :: r)
          then p ++ ch "-" :: r else c :: removeDot (p ++ ch "-" :: r)).
  replace (isNumeric (p ++ ch "-" :: r)) with false.
  - rewrite andb_false_r, IH. reflexivity.
  - symmetry. unfold isNumeric, allDigits. rewrite forallb_app. simpl.
    rewrite andb_false_r. apply andb_false_r.
Qed.

Lemma removeDot_suffix (base ds : jstring) :
  isNumeric ds = true -> removeDot (base ++ lit "." ++ ds) = base ++ ds.
Proof.
  intros Hd. induction base as [|c base IH].
  - simpl. rewrite Hd. reflexivity.
  - change (removeDot ((c :: base) ++ lit "." ++ ds))
      with (if N.eqb c (ch ".") && isNumeric (base ++ lit "." ++ ds)
            then base ++ lit "." ++ ds else c :: removeDot (base ++ lit "." ++ ds)).
    replace (isNumeric (base ++ lit "." ++ ds)) with false.
    + rewrite andb_false_r. simpl. f_equal. exact IH.
    + symmetry. unfold isNumeric, allDigits. rewrite forallb_app. simpl.
      rewrite andb_false_r. apply andb_false_r.
Qed.

(** C7.  When the version computed for the release carries a pre-release
    component and ends with a dot followed by digits, the resolved version is
    the same string without that dot; and the bump [prerelease] with
    identifier [beta] from 1.0.0 resolves to exactly 1.0.1-beta0 (on a run
    whose branches do not trigger the pre-release policy). *)
Theorem prerelease_dot_removed :
  (forall (versionArg base ds : jstring),
      isNumeric ds = true ->
      prereleaseOf (base ++ lit "." ++ ds) <> None ->
      finishNext versionArg (Some (base ++ lit "." ++ ds)) = ret (base ++ ds))
  /\ (forall w : World,
         branchPolicy w = ret tt ->
         stageResolve w (lit "1.0.0") (lit "prerelease") (Some (lit "beta"))
         = ret (lit "1.0.1-beta0")).
Proof.
  split.
  - intros versionArg base ds Hd Hp. unfold finishNext.
    assert (Ht : truthy (base ++ lit "." ++ ds) = true) by (destruct base; reflexivity).
    rewrite Ht. cbv [negb].
    destruct (prereleaseOf (base ++ lit "." ++ ds)); [|congruence].
    rewrite removeDot_suffix by exact Hd. reflexivity.
  - intros w Hw. unfold stageResolve.
    change (releaseTypeOf (lit "prerelease")) with (Some Prerelease).
    change (isPreRelease Prerelease (lit "1.0.0")) with true.
    unfold when. rewrite Hw. vm_compute. reflexivity.
Qed.

Lemma prerelease_dot_removed_witness :
  finishNext (lit "prerelease") (Some (lit "1.0.1-beta" ++ lit "." ++ lit "0"))
  = ret (lit "1.0.1-beta" ++ lit "0")
  /\ stageResolve quietWorld (lit "1.0.0") (lit "prerelease") (Some (lit "beta"))
     = ret (lit "1.0.1-beta0").
Proof.
  split.
  - apply (proj1 prerelease_dot_removed).
    + reflexivity.
    + vm_compute. discriminate.
  - apply (proj2 prerelease_dot_removed). reflexivity.
Defined.

(** What a successful resolution of a bump keyword returns. *)
Lemma resolve_keyword (w : World) (current versionArg : jstring)
    (preid : option jstring) (r : ReleaseType) (t : list event) (next : jstring) :
  releaseTypeOf versionArg = Some r ->
  stageResolve w current versionArg preid = (t, Done next) ->
  exists cv, parse current = Some cv
    /\ next = match prereleaseOf (format (incRelease r preid cv)) with
              | Some _ => removeDot (format (incRelease r preid cv))
              | None => format (incRelease r preid cv)
              end.
Proof.
  intros Hr. unfold stageResolve. rewrite Hr. unfold when.
  assert (Hfin : forall t0 t1,
    (let '(t', o) := finishNext versionArg (inc current r preid) in (t0 ++ t', o))
    = (t1, Done next) ->
    exists cv, parse current = Some cv
    /\ next = match prereleaseOf (format (incRelease r preid cv)) with
              | Some _ => removeDot (format (incRelease r preid cv))
              | None => format (incRelease r preid cv)
              end).
  { intros t0 t1. unfold inc, finishNext.
    destruct (parse current) as [cv|]; [|simpl; discriminate].
    destruct (identifierOk r preid); [|simpl; discriminate].
    exists cv. split; [reflexivity|].
    destruct (truthy (format (incRelease r preid cv))); [|simpl in H; discriminate].
    simpl in H. destruct (prereleaseOf (format (incRelease r preid cv)));
      simpl in H; injection H as _ <-; reflexivity. }
  destruct (isPreRelease r current).
  - destruct (branchPolicy w) as [t0 [[]|c]]; simpl; [|discriminate].
    intros H. eapply Hfin. rewrite app_nil_r in H. exact H.
  - simpl. intros H. eapply (Hfin []). exact H.
Qed.

(** The resolved version of a bump keyword spells the numbers of the
    incremented version, followed by nothing or by a pre-release part. *)
Lemma resolved_shape (r : ReleaseType) (preid : option jstring) (cv : SemVer.t) :
  let v := incRelease r preid cv in
  exists rest,
    match prereleaseOf (format v) with
    | Some _ => removeDot (format v)
    | None => format v
    end = mainString v ++ rest
    /\ preTail rest /\ (prerelease v = [] -> rest = []).
Proof.
  intros v. destruct (format_shape v) as (rest & E & Hp & Hnil).
  destruct (prereleaseOf (format v)) as [p|] eqn:Ep.
  - rewrite E. destruct Hp as [->|[r0 ->]].
    + exfalso. rewrite E in Ep. unfold prereleaseOf in Ep.
      destruct (parse (mainString v ++ [])) as [nv|] eqn:En; [|discriminate].
      destruct (parse_main_numbers v nv [] (or_introl eq_refl) En) as (_ & _ & _ & H).
      rewrite (H eq_refl) in Ep. discriminate.
    + rewrite removeDot_past_hyphen. eexists. split; [reflexivity|].
      split; [right; eexists; reflexivity|].
      intros H. specialize (Hnil H). discriminate.
  - exists rest. auto.
Qed.

(** The keyword paths on which a bump does increase the version: for a bump
    keyword among major, minor, patch, premajor, preminor and prepatch, and
    for prerelease when the current version has no pre-release component,
    the resolved next version, whenever it is itself a semantic version, is
    strictly greater than the current version. *)
Theorem bump_strictly_greater (w : World) (current versionArg : jstring)
    (preid : option jstring) (r : ReleaseType) (t : list event)
    (next : jstring) (nv : SemVer.t) :
  releaseTypeOf versionArg = Some r ->
  plainBump r current ->
  stageResolve w current versionArg preid = (t, Done next) ->
  parse next = Some nv ->
  semverGt next current /\ gt next current = Some true.
Proof.
  intros Hr Hplain Hres Hnv.
  destruct (resolve_keyword _ _ _ _ _ _ _ Hr Hres) as (cv & Hcv & Hnext).
  destruct (resolved_shape r preid cv) as (rest & E & Hp & Hnil).
  cbv zeta in E, Hnil. rewrite <- Hnext in E. rewrite E in Hnv.
  destruct (parse_main_numbers _ _ _ Hp Hnv) as (Ma & Mi & Pa & Hpre).
  assert (G : compare nv cv = Gt).
  { apply compare_gt_intro. rewrite Ma, Mi, Pa.
    assert (Hcur : prereleaseOf current = None -> prerelease cv = []).
    { unfold prereleaseOf. rewrite Hcv. destruct (prerelease cv); [auto|discriminate]. }
    destruct r; simpl in *.
    - (* major *)
      destruct (N.eqb (minor cv) 0) eqn:E1; simpl; [|left; lia].
      destruct (N.eqb (patch cv) 0) eqn:E2; simpl; [|left; lia].
      destruct (prerelease cv) eqn:E3; [left; lia|].
      apply N.eqb_eq in E1. apply N.eqb_eq in E2.
      right. right. right. repeat split; auto. discriminate.
    - (* minor *)
      destruct (N.eqb (patch cv) 0) eqn:E2; simpl; [|right; left; split; [auto|lia]].
      destruct (prerelease cv) eqn:E3; [right; left; split; [auto|lia]|].
      apply N.eqb_eq in E2.
      right. right. right. repeat split; auto. discriminate.
    - (* patch *)
      destruct (prerelease cv) eqn:E3.
      + right. right. left. repeat split; auto. lia.
      + right. right. right. repeat split; auto. discriminate.
    - left. lia.
    - right. left. split; [auto|lia].
    - right. right. left. repeat split; auto. lia.
    - destruct Hplain as [H|H]; [congruence|].
      rewrite (Hcur H). simpl. rewrite (Hcur H).
      right. right. left. repeat split; auto. lia. }
  split.
  - exists nv, cv. rewrite E. auto.
  - unfold gt. rewrite E, Hnv, Hcv, G. reflexivity.
Qed.

Lemma bump_strictly_greater_witness :
  semverGt (lit "1.2.4") (lit "1.2.3")
  /\ gt (lit "1.2.4") (lit "1.2.3") = Some true.
Proof.
  apply (bump_strictly_greater quietWorld (lit "1.2.3") (lit "patch") None Patch []
           (lit "1.2.4") (mk 1 2 4 [] [])).
  - reflexivity.
  - left. discriminate.
  - reflexivity.
  - reflexivity.
Defined.

(** C4.  The code breaks the claim: the bump [prerelease] with identifier
    [beta] from 1.0.1-beta0, the version this tool makes of 1.0.0 by the same
    bump, resolves to 1.0.1-beta0 again, which is not greater than the
    current version.  The removal of the dot has made the counter of the
    pre-release unreadable to the increment, which starts again at
    [beta.0]. *)
Lemma bump_not_greater_counterexample :
  releaseTypeOf (lit "prerelease") = Some Prerelease
  /\ valid (lit "1.0.1-beta0") = Some (lit "1.0.1-beta0")
  /\ stageResolve quietWorld (lit "1.0.1-beta0") (lit "prerelease") (Some (lit "beta"))
     = ret (lit "1.0.1-beta0")
  /\ gt (lit "1.0.1-beta0") (lit "1.0.1-beta0") = Some false
  /\ ~ semverGt (lit "1.0.1-beta0") (lit "1.0.1-beta0").
Proof.
  repeat split; try reflexivity.
  intros (x & y & Hx & Hy & G). rewrite Hx in Hy. injection Hy as <-.
  rewrite compare_refl in G. discriminate.
Qed.

End ResolverProps.

(* ===================================================================== *)
(** ** The check against recorded versions *)
(* ===================================================================== *)

Module ConflictProps.
Import Dec SemVer ReleaseUtils Release Spec Examples.
Import Dec SemVer ReleaseUtils Release Spec StringFacts DecFacts SemVerFacts.

Lemma exitError_eq (A : Type) (msg : jstring) :
  @exitError A msg = ([Stderr (crossMark ++ lit " " ++ msg)], Exit 1%N).
Proof. reflexivity. Qed.

Lemma isHigher_true (next : jstring) (e : ChangelogEntry) :
  isHigher next e = Ok true <->
  exists v, version e = Some v /\ v <> unreleased /\ semverGt v next.
Proof.
  unfold isHigher, semverGt, gt. split.
  - destruct (version e) as [v|]; [|discriminate].
    destruct (truthy v); simpl; [|discriminate].
    destruct (JS.eqb v unreleased) eqn:Eu; [discriminate|].
    apply eqb_neq in Eu.
    destruct (parse v) as [x|] eqn:Hx; [|discriminate].
    destruct (parse next) as [y|] eqn:Hy; [|discriminate].
    destruct (compare x y) eqn:G; try discriminate.
    intros _. exists v. repeat split; auto. exists x, y. auto.
  - intros (v & -> & Hu & x & y & Hx & Hy & G).
    assert (Ht : truthy v = true).
    { destruct v; [rewrite parse_nil in Hx; discriminate|reflexivity]. }
    rewrite Ht. simpl. apply eqb_neq in Hu. rewrite Hu, Hx, Hy, G. reflexivity.
Qed.

Lemma isHigher_defined (next : jstring) (e : ChangelogEntry) :
  recorded e -> parse next <> None -> exists b, isHigher next e = Ok b.
Proof.
  unfold recorded, isHigher, gt. intros Hr Hn.
  destruct (version e) as [v|]; [|eauto].
  destruct (truthy v); simpl; [|eauto].
  destruct (JS.eqb v unreleased) eqn:Eu; [eauto|].
  destruct Hr as [->|Hv]; [rewrite eqb_refl in Eu; discriminate|].
  destruct (valid_parse _ _ Hv) as (x & -> & _).
  destruct (parse next); [eauto|congruence].
Qed.

Lemma filterHigher_in (next : jstring) (es l : list ChangelogEntry) :
  filterHigher next es = Ok l ->
  forall e, In e l <-> In e es /\ isHigher next e = Ok true.
Proof.
  revert l. induction es as [|a es IH]; simpl; intros l H e.
  - injection H as <-. simpl. tauto.
  - destruct (isHigher next a) as [b|] eqn:Ea; [|discriminate].
    destruct (filterHigher next es) as [l'|]; [|discriminate].
    injection H as <-. specialize (IH l' eq_refl e).
    destruct b; simpl; rewrite ?IH; split.
    + intros [<-|[H1 H2]]; auto.
    + intros [[<-|H1] H2]; auto.
    + intros [H1 H2]; auto.
    + intros [[<-|H1] H2]; [congruence|auto].
Qed.

Lemma filterHigher_defined (next : jstring) (es : list ChangelogEntry) :
  Forall recorded es -> parse next <> None ->
  exists l, filterHigher next es = Ok l.
Proof.
  intros Hall Hn. induction Hall as [|a es Ha _ IH]; simpl; [eauto|].
  destruct (isHigher_defined next a Ha Hn) as [b ->].
  destruct IH as [l ->]. eauto.
Qed.

Lemma filterHigher_throw (next : jstring) (es : list ChangelogEntry) (m : jstring) :
  filterHigher next es = Throw m -> exists v, m = invalidVersionError v.
Proof.
  induction es as [|a es IH]; simpl; [discriminate|].
  destruct (isHigher next a) as [b|m'] eqn:Ea.
  - destruct (filterHigher next es); [discriminate|].
    intros H. injection H as <-. auto.
  - intros H. injection H as <-. revert Ea. unfold isHigher.
    destruct (version a) as [v|]; [|discriminate].
    destruct (truthy v); simpl; [|discriminate].
    destruct (JS.eqb v unreleased); [discriminate|].
    destruct (gt v next); [discriminate|].
    intros H. injection H as <-. eauto.
Qed.

Lemma checkHigher_cases (pc : ParsedChangelog) (next : jstring) :
  match filterHigher next (entries pc) with
  | Ok [] => stageCheckHigher pc next = ret tt
  | Ok hs => stageCheckHigher pc next = exitError (conflictMessage hs)
  | Throw m => stageCheckHigher pc next = exitError m
  end.
Proof.
  unfold stageCheckHigher.
  destruct (filterHigher next (entries pc)) as [[|h hs]|m]; reflexivity.
Qed.

(** On recorded entries, the check ends the run with the message about
    higher versions exactly when some entry is strictly greater than the next
    version. *)
Lemma conflict_iff_recorded (pc : ParsedChangelog) (next : jstring) :
  Forall recorded (entries pc) ->
  (abortsWithConflict (stageCheckHigher pc next) <->
   exists e v, In e (entries pc) /\ version e = Some v /\ v <> unreleased
               /\ semverGt v next)
  /\ (forall e, In e (entries pc) -> version e = Some next ->
                isHigher next e = Ok false /\ ~ semverGt next next).
Proof.
  intros Hrec. split; [split|].
  - intros (hs & Hne & E).
    pose proof (checkHigher_cases pc next) as C.
    destruct (filterHigher next (entries pc)) as [l|m] eqn:F.
    + destruct l as [|h l].
      * rewrite C in E. discriminate.
      * assert (Hin : In h (h :: l)) by (left; reflexivity).
        apply (filterHigher_in _ _ _ F) in Hin as [Hin Hh].
        apply isHigher_true in Hh as (v & Hv & Hu & G).
        exists h, v. auto.
    + exfalso. rewrite C in E. destruct (filterHigher_throw _ _ _ F) as [v ->].
      rewrite !exitError_eq in E.
      unfold conflictMessage, invalidVersionError in E. simpl in E.
      discriminate E.
  - intros (e & v & Hin & Hv & Hu & G).
    assert (Hh : isHigher next e = Ok true).
    { apply isHigher_true. eauto. }
    assert (Hn : parse next <> None).
    { destruct G as (x & y & _ & Hy & _). congruence. }
    destruct (filterHigher_defined next _ Hrec Hn) as [l F].
    pose proof (checkHigher_cases pc next) as C. rewrite F in C.
    assert (Hl : In e l) by (apply (filterHigher_in _ _ _ F); auto).
    destruct l as [|h l]; [contradiction|].
    exists (h :: l). split; [discriminate|exact C].
  - intros e Hin Hv. split.
    + rewrite Forall_forall in Hrec. specialize (Hrec e Hin).
      unfold recorded in Hrec. rewrite Hv in Hrec.
      unfold isHigher, gt. rewrite Hv.
      destruct (truthy next); simpl; [|reflexivity].
      destruct (JS.eqb next unreleased) eqn:Eu; [reflexivity|].
      destruct Hrec as [->|Hvalid]; [rewrite eqb_refl in Eu; discriminate|].
      destruct (valid_parse _ _ Hvalid) as (x & -> & _).
      rewrite compare_refl. reflexivity.
    + intros (x & y & Hx & Hy & G). rewrite Hx in Hy. injection Hy as <-.
      rewrite compare_refl in G. discriminate.
Qed.

End ConflictProps.

(* ===================================================================== *)
(** ** The changelog parser *)
(* ===================================================================== *)

Module ParserProps.
Import Dec SemVer ReleaseUtils Release Spec Examples.
Import Dec SemVer ReleaseUtils Release Spec StringFacts DecFacts SemVerFacts.

Lemma pending_push (e : ChangelogEntry) (es : list ChangelogEntry) :
  map versionAndHeader (pushCurrent (Some e) es)
  = map versionAndHeader es ++ [(version e, header e)].
Proof. unfold pushCurrent. rewrite map_app. reflexivity. Qed.

Lemma step_summary (st : LoopState) (l : jstring) :
  map versionAndHeader (pending (step st l))
  = map versionAndHeader (pending st)
    ++ (if isHeading l then [(fst (classifyLine l), trim l)] else [])
  /\ st_warnings (step st l)
     = st_warnings st ++ (if isHeading l then snd (classifyLine l) else []).
Proof.
  unfold pending, step, isHeading, classifyLine.
  destruct (headingMatch l) as [m1|].
  - destruct (classifyHeading (trim l) (trim m1)) as [v ws]. simpl.
    rewrite map_app. simpl. auto.
  - rewrite !app_nil_r. destruct (st_currentEntry st) as [e|] eqn:E.
    + simpl. rewrite !map_app. simpl. auto.
    + destruct (negb (st_firstHeaderFound st) && negb (startsWith (lit "# ") l));
        simpl; rewrite ?E; auto.
Qed.

Lemma loop_summary (lines : list jstring) (st : LoopState) :
  map versionAndHeader (pending (fold_left step lines st))
  = map versionAndHeader (pending st)
    ++ map (fun l => (fst (classifyLine l), trim l)) (filter isHeading lines)
  /\ st_warnings (fold_left step lines st)
     = st_warnings st
       ++ List.concat (map (fun l => snd (classifyLine l)) (filter isHeading lines)).
Proof.
  revert st. induction lines as [|l lines IH]; intros st; simpl.
  - rewrite !app_nil_r. auto.
  - destruct (IH (step st l)) as [H1 H2].
    destruct (step_summary st l) as [S1 S2].
    rewrite H1, H2, S1, S2.
    destruct (isHeading l); simpl; rewrite <- !app_assoc; simpl; auto.
Qed.

Lemma headingEntries_summary (text : jstring) :
  map versionAndHeader (headingEntries text)
  = map (fun l => (fst (classifyLine l), trim l))
        (filter isHeading (splitLines text)).
Proof.
  unfold headingEntries.
  destruct (loop_summary (splitLines text) initialState) as [H _].
  exact H.
Qed.

(** The entries of the result: the entries read from the headings, behind
    at most one entry made up by the parser. *)
Lemma entries_cases (text : jstring) :
  (existsb isUnreleased (headingEntries text) = true
   /\ entries (parseChangelogText text) = headingEntries text)
  \/ (existsb isUnreleased (headingEntries text) = false
      /\ exists c, noTrailingSpace c
                   /\ entries (parseChangelogText text)
                      = {| version := Some unreleased; header := unreleasedHeader;
                           content := c |} :: headingEntries text).
Proof.
  unfold parseChangelogText. fold (headingEntries text).
  set (st := fold_left step (splitLines text) initialState).
  destruct (existsb isUnreleased (headingEntries text)) eqn:E.
  - left. split; [reflexivity|]. rewrite andb_false_r. simpl.
    rewrite E. reflexivity.
  - right. split; [reflexivity|]. rewrite andb_true_r.
    destruct (truthy (trim (st_description st))); simpl.
    + eexists. split; [|reflexivity]. apply trimEnd_idem.
    + rewrite E. simpl. exists []. split; reflexivity.
Qed.

Lemma entries_suffix (text : jstring) :
  exists synth, entries (parseChangelogText text) = synth ++ headingEntries text.
Proof.
  destruct (entries_cases text) as [[_ E]|[_ (c & _ & E)]]; rewrite E.
  - exists []. reflexivity.
  - eexists [_]. reflexivity.
Qed.

Lemma warnings_cases (text : jstring) (w : jstring) :
  In w (warnings (parseChangelogText text)) ->
  w = missingWarning \/ w = emptyWarning
  \/ exists line, In line (splitLines text) /\ isHeading line = true
                  /\ In w (snd (classifyLine line)).
Proof.
  unfold parseChangelogText.
  set (st := fold_left step (splitLines text) initialState).
  assert (Hst : In w (st_warnings st) ->
                exists line, In line (splitLines text) /\ isHeading line = true
                             /\ In w (snd (classifyLine line))).
  { unfold st. destruct (loop_summary (splitLines text) initialState) as [_ H].
    rewrite H. simpl. rewrite in_concat. intros (ws & Hws & Hw).
    apply in_map_iff in Hws as (line & <- & Hl). apply filter_In in Hl as [Hl Hh].
    eauto. }
  simpl.
  repeat match goal with
         | |- context [if ?b then _ else _] => destruct b
         | |- context [match find ?f ?l with _ => _ end] => destruct (find f l)
         end;
    rewrite ?in_app_iff; simpl; intuition auto.
Qed.

Lemma classifyLine_warning (line w : jstring) :
  In w (snd (classifyLine line)) -> w = invalidHeaderWarning (trim line).
Proof.
  unfold classifyLine, classifyHeading.
  destruct (headingMatch line) as [m1|]; [|intros []].
  destruct (versionMatch (trim m1)) as [tok|].
  - destruct (valid (trim tok)) as [s|].
    + destruct (truthy s); simpl; [intros []|intros [<-|[]]; reflexivity].
    + simpl. intros [<-|[]]. reflexivity.
  - destruct (includes unreleased (toLowerCase (trim m1))); intros [].
Qed.

(** C5.  When CHANGELOG.md can be read, the parser returns a result and does
    not throw, whatever the text: the result has entries, and each of its
    warnings is the missing-section warning, the empty-section warning, or
    the warning about a heading line of the text without a valid version. *)
Theorem parser_total (fs : Files) (text : jstring) :
  changelogMd fs = Some text ->
  parseChangelog fs = Ok (parseChangelogText text)
  /\ entries (parseChangelogText text) <> []
  /\ forall w, In w (warnings (parseChangelogText text)) ->
       w = missingWarning \/ w = emptyWarning
       \/ exists line, In line (splitLines text) /\ isHeading line = true
                       /\ w = invalidHeaderWarning (trim line).
Proof.
  intros Hfs. split; [|split].
  - unfold parseChangelog, readFile. rewrite Hfs. reflexivity.
  - destruct (entries_cases text) as [[Hex E]|[_ (c & _ & E)]]; rewrite E.
    + destruct (headingEntries text); [discriminate|discriminate].
    + discriminate.
  - intros w Hw. destruct (warnings_cases text w Hw) as [H|[H|(line & Hl & Hh & Hin)]];
      auto.
    right. right. exists line. repeat split; auto.
    apply classifyLine_warning, Hin.
Qed.

Lemma parser_total_witness :
  parseChangelog (filesWith malformedText) = Ok (parseChangelogText malformedText)
  /\ entries (parseChangelogText malformedText) <> []
  /\ forall w, In w (warnings (parseChangelogText malformedText)) ->
       w = missingWarning \/ w = emptyWarning
       \/ exists line, In line (splitLines malformedText) /\ isHeading line = true
                       /\ w = invalidHeaderWarning (trim line).
Proof.
  apply (parser_total (filesWith malformedText) malformedText). reflexivity.
Defined.

(** C2, as stated, fails: a text with a release heading followed by two
    unreleased headings is parsed into two entries with version
    "unreleased", and the first entry of the result is the release. *)
Lemma two_unreleased_counterexample :
  let es := entries (parseChangelogText twoUnreleased) in
  List.length (filter isUnreleased es) = 2
  /\ ~ (List.length (filter isUnreleased es) <= 1)
  /\ option_map isUnreleased (hd_error es) = Some false.
Proof.
  vm_compute. repeat split; try reflexivity. intros H. inversion H as [|m H1]. inversion H1.
Qed.

Lemma existsb_app_r {A : Type} (f : A -> bool) (a b : list A) :
  existsb f b = true -> existsb f (a ++ b) = true.
Proof. intros H. rewrite existsb_app, H. apply orb_true_r. Qed.

(** C2, as amended.  The result of the parser has at least one entry with
    version "unreleased".  Its entries are the entries read from the
    headings, with the headers in the order of the heading lines of the text,
    preceded, exactly when none of them is unreleased, by one unreleased
    entry with the header [## [Unreleased]]. *)
Theorem parser_unreleased_and_order (text : jstring) :
  let pc := parseChangelogText text in
  existsb isUnreleased (entries pc) = true
  /\ map header (headingEntries text)
     = map trim (filter isHeading (splitLines text))
  /\ ((existsb isUnreleased (headingEntries text) = true
       /\ entries pc = headingEntries text)
      \/ (existsb isUnreleased (headingEntries text) = false
          /\ exists c, noTrailingSpace c
               /\ entries pc
                  = {| version := Some unreleased; header := unreleasedHeader;
                       content := c |} :: headingEntries text)).
Proof.
  cbv zeta. split; [|split].
  - destruct (entries_cases text) as [[Hex E]|[_ (c & _ & E)]]; rewrite E.
    + exact Hex.
    + reflexivity.
  - pose proof (headingEntries_summary text) as H.
    apply (f_equal (map snd)) in H. rewrite !map_map in H. simpl in H.
    exact H.
  - apply entries_cases.
Qed.

End ParserProps.

(* ===================================================================== *)
(** ** Headings and their versions *)
(* ===================================================================== *)

Module HeadingProps.
Import Dec SemVer ReleaseUtils Release Spec Examples.
Import Dec SemVer ReleaseUtils Release Spec StringFacts DecFacts SemVerFacts ParserProps.

Lemma isDigit_cases (c : char) :
  isDigit c = true ->
  c = 48%N \/ c = 49%N \/ c = 50%N \/ c = 51%N \/ c = 52%N
  \/ c = 53%N \/ c = 54%N \/ c = 55%N \/ c = 56%N \/ c = 57%N.
Proof.
  unfold isDigit. intros H. apply andb_true_iff in H as [H1 H2].
  apply N.leb_le in H1. apply N.leb_le in H2. lia.
Qed.

Lemma ofUint_toUint (x : jstring) : allDigits x = true -> ofUint (toUint x) = x.
Proof.
  induction x as [|c x IH]; simpl; [reflexivity|].
  intros H. apply andb_true_iff in H as [Hc Hx]. specialize (IH Hx).
  destruct (isDigit_cases c Hc) as [->|[->|[->|[->|[->|[->|[->|[->|[->| ->]]]]]]]]];
    simpl; rewrite IH; reflexivity.
Qed.

Lemma canonical_allDigits (x : jstring) : isCanonical x = true -> allDigits x = true.
Proof.
  destruct x as [|c [|d r]]; simpl; [discriminate| |].
  - intros ->. reflexivity.
  - intros H. apply andb_true_iff in H as [_ H]. exact H.
Qed.

Lemma canonical_normal (x : jstring) :
  isCanonical x = true -> Decimal.unorm (toUint x) = toUint x.
Proof.
  destruct x as [|c [|d r]]; [discriminate| |].
  - simpl. intros Hc.
    destruct (isDigit_cases c Hc) as [->|[->|[->|[->|[->|[->|[->|[->|[->| ->]]]]]]]]];
      reflexivity.
  - intros H. change (isCanonical (c :: d :: r))
      with (isDigit c && negb (N.eqb c 48) && allDigits (c :: d :: r)) in H.
    apply andb_true_iff in H as [H _]. apply andb_true_iff in H as [Hc Hz].
    apply negb_true_iff, N.eqb_neq in Hz.
    destruct (isDigit_cases c Hc) as [->|[->|[->|[->|[->|[->|[->|[->|[->| ->]]]]]]]]];
      try congruence; reflexivity.
Qed.

Lemma toDec_ofDec (x : jstring) : isCanonical x = true -> toDec (ofDec x) = x.
Proof.
  intros H. unfold toDec, ofDec.
  rewrite DecimalN.Unsigned.to_of, (canonical_normal x H).
  apply ofUint_toUint, canonical_allDigits, H.
Qed.

Lemma takeWhile_app_all (p : char -> bool) (a b : jstring) :
  forallb p a = true -> takeWhile p (a ++ b) = a ++ takeWhile p b.
Proof.
  induction a as [|c a IH]; simpl; [reflexivity|].
  intros H. apply andb_true_iff in H as [Hc Ha]. rewrite Hc, IH; auto.
Qed.

Lemma numeric_allDigits (x : jstring) : isNumeric x = true -> allDigits x = true.
Proof. unfold isNumeric. intros H. apply andb_true_iff in H as [_ H]. exact H. Qed.

Lemma numeric_truthy (x : jstring) : isNumeric x = true -> truthy x = true.
Proof. unfold isNumeric. intros H. apply andb_true_iff in H as [H _]. exact H. Qed.

Lemma parseMain_digits (x y z rest : jstring) :
  allDigits x = true -> allDigits y = true -> allDigits z = true ->
  headNot isDigit rest = true ->
  parseMain (x ++ lit "." ++ y ++ lit "." ++ z ++ rest) =
  if isCanonical x && isCanonical y && isCanonical z
     && N.leb (ofDec x) MAX_SAFE_INTEGER
     && N.leb (ofDec y) MAX_SAFE_INTEGER
     && N.leb (ofDec z) MAX_SAFE_INTEGER
  then Some (ofDec x, ofDec y, ofDec z, rest) else None.
Proof.
  intros Hx Hy Hz Hr. unfold parseMain.
  rewrite (takeWhile_app_stop isDigit x), (dropWhile_app_stop isDigit x);
    try exact Hx; try reflexivity.
  rewrite expect_dot.
  rewrite (takeWhile_app_stop isDigit y), (dropWhile_app_stop isDigit y);
    try exact Hy; try reflexivity.
  rewrite expect_dot.
  rewrite (takeWhile_app_stop isDigit z), (dropWhile_app_stop isDigit z);
    try exact Hz; try exact Hr.
  reflexivity.
Qed.

Lemma token_trim (x y z : jstring) :
  isNumeric x = true -> isNumeric z = true -> trim (token x y z) = token x y z.
Proof.
  intros Hx Hz. unfold token.
  destruct (numeric_head_digit x Hx) as (c & r & -> & Hc).
  change ((c :: r) ++ lit "." ++ y ++ lit "." ++ z)
    with (c :: (r ++ lit "." ++ y ++ lit "." ++ z)).
  rewrite trim_solid by (apply digit_not_space, Hc). f_equal.
  apply trimEnd_solid. rewrite !app_assoc. apply endsSolid_app.
  apply numeric_endsSolid, Hz.
Qed.

(** A plain [X.Y.Z] token that the library accepts is returned unchanged. *)
Lemma valid_plain_token (x y z s : jstring) :
  isNumeric x = true -> isNumeric y = true -> isNumeric z = true ->
  valid (token x y z) = Some s -> s = token x y z.
Proof.
  intros Hx Hy Hz. unfold valid, parse.
  destruct (Nat.ltb MAX_LENGTH (List.length (token x y z))); [discriminate|].
  rewrite (token_trim x y z Hx Hz).
  assert (Hv : match token x y z with
               | c :: s' => if N.eqb c (ch "v") then s' else token x y z
               | [] => token x y z
               end = token x y z).
  { unfold token. destruct (numeric_head_digit x Hx) as (c & r & -> & Hc). simpl.
    replace (N.eqb c 118) with false; [reflexivity|].
    symmetry. apply N.eqb_neq. destruct (isDigit_cases c Hc) as
      [->|[->|[->|[->|[->|[->|[->|[->|[->| ->]]]]]]]]]; discriminate. }
  rewrite Hv. unfold token.
  rewrite <- (app_nil_r z) at 1.
  rewrite (parseMain_digits x y z [] (numeric_allDigits _ Hx)
             (numeric_allDigits _ Hy) (numeric_allDigits _ Hz) eq_refl).
  destruct (isCanonical x) eqn:Cx; [|discriminate].
  destruct (isCanonical y) eqn:Cy; [|discriminate].
  destruct (isCanonical z) eqn:Cz; [|discriminate].
  simpl. destruct (_ && _); simpl; [|discriminate].
  intros H. injection H as <-. unfold format. simpl.
  rewrite !toDec_ofDec by assumption. rewrite app_nil_r. reflexivity.
Qed.

Lemma matchCore_token (x y z r : jstring) :
  isNumeric x = true -> isNumeric y = true -> isNumeric z = true ->
  stops r = true ->
  matchCore (x ++ lit "." ++ y ++ lit "." ++ z ++ r) = Some (token x y z).
Proof.
  intros Hx Hy Hz Hr. unfold matchCore, token.
  assert (Hd : headNot isDigit r = true).
  { destruct r as [|c r]; [reflexivity|]. simpl in *.
    apply andb_true_iff in Hr as [Hr _]. exact Hr. }
  rewrite (takeWhile_app_stop isDigit x), (dropWhile_app_stop isDigit x);
    try (apply numeric_allDigits, Hx); try reflexivity.
  rewrite expect_dot.
  rewrite (takeWhile_app_stop isDigit y), (dropWhile_app_stop isDigit y);
    try (apply numeric_allDigits, Hy); try reflexivity.
  rewrite expect_dot.
  rewrite (takeWhile_app_stop isDigit z), (dropWhile_app_stop isDigit z);
    try (apply numeric_allDigits, Hz); try exact Hd.
  rewrite (numeric_truthy _ Hx), (numeric_truthy _ Hy), (numeric_truthy _ Hz).
  simpl. destruct r as [|c r].
  - rewrite app_nil_r. reflexivity.
  - simpl in Hr. apply andb_true_iff in Hr as [_ Hr].
    apply negb_true_iff in Hr. rewrite Hr. simpl. rewrite app_nil_r. reflexivity.
Qed.

Lemma matchAt_token (w : wrap) (v : bool) (x y z r : jstring) :
  isNumeric x = true -> isNumeric y = true -> isNumeric z = true ->
  stops r = true ->
  matchAt (openOf w ++ (if v then lit "v" else [])
           ++ x ++ lit "." ++ y ++ lit "." ++ z ++ r) = Some (token x y z).
Proof.
  intros Hx Hy Hz Hr.
  rewrite <- (matchCore_token x y z r Hx Hy Hz Hr).
  destruct (numeric_head_digit x Hx) as (c & x' & -> & Hc).
  pose proof (digit_not_space c Hc) as Hs.
  unfold matchAt.
  destruct (isDigit_cases c Hc) as [->|[->|[->|[->|[->|[->|[->|[->|[->| ->]]]]]]]]];
    destruct w, v; reflexivity.
Qed.

Lemma stops_after (w : wrap) (date : option jstring) :
  stops (closeOf w ++ trimEnd (takeWhile notLineTerminator (dateTail date))) = true.
Proof.
  destruct w; try reflexivity.
  destruct date as [d|]; [|reflexivity].
  change (takeWhile notLineTerminator (dateTail (Some d)))
    with ([32%N; 45%N] ++ 32%N :: takeWhile notLineTerminator d).
  rewrite trimEnd_app_keep by reflexivity. reflexivity.
Qed.

Lemma solid_digits (x : jstring) : allDigits x = true -> forallb solid x = true.
Proof.
  unfold allDigits, solid. rewrite !forallb_forall. intros H c Hc.
  rewrite digit_not_space; auto.
Qed.

Lemma solid_notLT (s : jstring) :
  forallb solid s = true -> forallb notLineTerminator s = true.
Proof.
  unfold solid, notLineTerminator. rewrite !forallb_forall. intros H c Hc.
  specialize (H c Hc). apply negb_true_iff in H. apply negb_true_iff.
  unfold isWhiteSpace in H. apply orb_false_iff in H as [_ H]. exact H.
Qed.

Lemma solid_endsSolid (s : jstring) :
  truthy s = true -> forallb solid s = true -> endsSolid s = true.
Proof.
  intros Ht H. unfold endsSolid. destruct (rev s) as [|c r] eqn:E.
  - destruct s; [discriminate|]. apply (f_equal (@List.length _)) in E.
    rewrite length_rev in E. discriminate.
  - rewrite forallb_forall in H. apply (H c). apply in_rev. rewrite E. left.
    reflexivity.
Qed.

Lemma versionHeading_split (w : wrap) (v : bool) (x y z : jstring)
    (date : option jstring) :
  versionHeading w v x y z date = lit "## " ++ headingCore w v x y z ++ dateTail date.
Proof.
  unfold versionHeading, headingCore, dateTail. rewrite <- !app_assoc. reflexivity.
Qed.

Lemma headingCore_solid (w : wrap) (v : bool) (x y z : jstring) :
  isNumeric x = true -> isNumeric y = true -> isNumeric z = true ->
  forallb solid (headingCore w v x y z) = true /\ truthy (headingCore w v x y z) = true.
Proof.
  intros Hx Hy Hz. split.
  - unfold headingCore. rewrite !forallb_app.
    rewrite (solid_digits x), (solid_digits y), (solid_digits z)
      by (apply numeric_allDigits; assumption).
    destruct w, v; reflexivity.
  - unfold headingCore. destruct (numeric_head_digit x Hx) as (c & x' & -> & _).
    destruct w, v; reflexivity.
Qed.

Lemma headingMatch_intro (r : jstring) :
  headingMatch (lit "## " ++ r)
  = Some (takeWhile notLineTerminator (dropWhile isWhiteSpace r)).
Proof. reflexivity. Qed.

Lemma headerText_versionHeading (w : wrap) (v : bool) (x y z : jstring)
    (date : option jstring) :
  isNumeric x = true -> isNumeric y = true -> isNumeric z = true ->
  headerTextOf (versionHeading w v x y z date)
  = headingCore w v x y z ++ trimEnd (takeWhile notLineTerminator (dateTail date)).
Proof.
  intros Hx Hy Hz. destruct (headingCore_solid w v x y z Hx Hy Hz) as [Hs Ht].
  unfold headerTextOf. rewrite versionHeading_split, headingMatch_intro.
  destruct (headingCore w v x y z) as [|c core] eqn:E; [discriminate|].
  assert (Hc : isWhiteSpace c = false).
  { simpl in Hs. apply andb_true_iff in Hs as [Hs _]. apply negb_true_iff, Hs. }
  rewrite dropWhile_id by (simpl; rewrite Hc; reflexivity).
  rewrite takeWhile_app_all by (apply solid_notLT, Hs).
  unfold trim, trimStart. rewrite dropWhile_id by (simpl; rewrite Hc; reflexivity).
  apply trimEnd_app_keep, solid_endsSolid; assumption.
Qed.

Lemma versionMatch_versionHeading (w : wrap) (v : bool) (x y z : jstring)
    (date : option jstring) :
  isNumeric x = true -> isNumeric y = true -> isNumeric z = true ->
  versionMatch (headerTextOf (versionHeading w v x y z date)) = Some (token x y z).
Proof.
  intros Hx Hy Hz. rewrite headerText_versionHeading by assumption.
  unfold headingCore. rewrite <- !app_assoc.
  pose proof (matchAt_token w v x y z _ Hx Hy Hz (stops_after w date)) as H.
  destruct (openOf w ++ (if v then lit "v" else []) ++ x ++ lit "." ++ y ++ lit "."
            ++ z ++ closeOf w
            ++ trimEnd (takeWhile notLineTerminator (dateTail date))) as [|c s].
  - discriminate H.
  - change (versionMatch (c :: s))
      with (match matchAt (c :: s) with
            | Some t => Some t
            | None => versionMatch s
            end).
    rewrite H. reflexivity.
Qed.

Lemma isHeading_versionHeading (w : wrap) (v : bool) (x y z : jstring)
    (date : option jstring) :
  isHeading (versionHeading w v x y z date) = true.
Proof. rewrite versionHeading_split. reflexivity. Qed.

Lemma classifyLine_unfold (line : jstring) :
  isHeading line = true ->
  classifyLine line = classifyHeading (trim line) (headerTextOf line).
Proof.
  unfold isHeading, classifyLine, headerTextOf.
  destruct (headingMatch line); [reflexivity|discriminate].
Qed.

Lemma classify_versionHeading (w : wrap) (v : bool) (x y z : jstring)
    (date : option jstring) :
  isNumeric x = true -> isNumeric y = true -> isNumeric z = true ->
  let line := versionHeading w v x y z date in
  (valid (token x y z) = Some (token x y z)
   /\ classifyLine line = (Some (token x y z), []))
  \/ (valid (token x y z) = None
      /\ classifyLine line = (None, [invalidHeaderWarning (trim line)])).
Proof.
  intros Hx Hy Hz line.
  rewrite (classifyLine_unfold line (isHeading_versionHeading w v x y z date)).
  unfold classifyHeading, line.
  rewrite (versionMatch_versionHeading w v x y z date Hx Hy Hz).
  rewrite (token_trim x y z Hx Hz).
  destruct (valid (token x y z)) as [s|] eqn:E.
  - left. rewrite (valid_truthy _ _ E).
    rewrite (valid_plain_token x y z s Hx Hy Hz E). auto.
  - right. auto.
Qed.

(** An entry is made for every heading line of the text. *)
Lemma heading_entry (text line : jstring) :
  In line (splitLines text) -> isHeading line = true ->
  exists e, In e (entries (parseChangelogText text))
            /\ header e = trim line /\ version e = fst (classifyLine line).
Proof.
  intros Hin Hh.
  assert (H : In (fst (classifyLine line), trim line)
                 (map versionAndHeader (headingEntries text))).
  { rewrite headingEntries_summary. apply in_map_iff. exists line. split; [reflexivity|].
    apply filter_In. auto. }
  apply in_map_iff in H as (e & He & Hine). injection He as Hv Hhd.
  destruct (entries_suffix text) as [synth E].
  exists e. rewrite E, in_app_iff. auto.
Qed.

Lemma heading_warning (text line w : jstring) :
  In line (splitLines text) -> isHeading line = true ->
  In w (snd (classifyLine line)) -> In w (warnings (parseChangelogText text)).
Proof.
  intros Hin Hh Hw.
  assert (H : In w (st_warnings (fold_left step (splitLines text) initialState))).
  { destruct (loop_summary (splitLines text) initialState) as [_ H]. rewrite H.
    simpl. apply in_concat. exists (snd (classifyLine line)). split; [|exact Hw].
    apply in_map_iff. exists line. split; [reflexivity|]. apply filter_In. auto. }
  revert H. unfold parseChangelogText. simpl.
  repeat match goal with
         | |- context [if ?b then _ else _] => destruct b
         | |- context [match find ?f ?l with _ => _ end] => destruct (find f l)
         end;
    rewrite ?in_app_iff; simpl; intuition auto.
Qed.

(** C6.  A heading [## ] followed by a version [X.Y.Z] of three digit runs,
    in square brackets, in parentheses or bare, with or without a leading [v]
    and with or without a date after [ - ], is a heading line whose entry gets
    exactly the version [X.Y.Z] when the library accepts that token; when it
    does not, the version is null and the warning naming the header is
    pushed.  This holds for the entry of every such line of a changelog. *)
Theorem version_heading_extracted (w : wrap) (v : bool) (x y z : jstring)
    (date : option jstring) :
  isNumeric x = true -> isNumeric y = true -> isNumeric z = true ->
  let line := versionHeading w v x y z date in
  let tok := x ++ lit "." ++ y ++ lit "." ++ z in
  versionMatch (headerTextOf line) = Some tok
  /\ ((valid tok = Some tok /\ classifyLine line = (Some tok, []))
      \/ (valid tok = None
          /\ classifyLine line = (None, [invalidHeaderWarning (trim line)])))
  /\ forall text, In line (splitLines text) ->
       exists e, In e (entries (parseChangelogText text))
         /\ header e = trim line
         /\ ((valid tok = Some tok /\ version e = Some tok)
             \/ (valid tok = None /\ version e = None
                 /\ In (invalidHeaderWarning (trim line))
                       (warnings (parseChangelogText text)))).
Proof.
  intros Hx Hy Hz line tok.
  pose proof (classify_versionHeading w v x y z date Hx Hy Hz) as C.
  fold line in C. fold (token x y z) in tok. fold tok in C.
  split; [exact (versionMatch_versionHeading w v x y z date Hx Hy Hz)|].
  split; [exact C|].
  intros text Hin.
  pose proof (isHeading_versionHeading w v x y z date) as Hh. fold line in Hh.
  destruct (heading_entry text line Hin Hh) as (e & He & Hhd & Hv).
  exists e. split; [exact He|]. split; [exact Hhd|].
  destruct C as [[Hval Hc]|[Hval Hc]]; rewrite Hc in Hv; simpl in Hv.
  - left. auto.
  - right. repeat split; auto.
    apply (heading_warning text line _ Hin Hh). rewrite Hc. left. reflexivity.
Qed.

Lemma version_heading_extracted_witness :
  let line := versionHeading Square true (lit "1") (lit "2") (lit "3")
                (Some (lit "2024-01-01")) in
  let tok := lit "1" ++ lit "." ++ lit "2" ++ lit "." ++ lit "3" in
  versionMatch (headerTextOf line) = Some tok
  /\ ((valid tok = Some tok /\ classifyLine line = (Some tok, []))
      \/ (valid tok = None
          /\ classifyLine line = (None, [invalidHeaderWarning (trim line)])))
  /\ forall text, In line (splitLines text) ->
       exists e, In e (entries (parseChangelogText text))
         /\ header e = trim line
         /\ ((valid tok = Some tok /\ version e = Some tok)
             \/ (valid tok = None /\ version e = None
                 /\ In (invalidHeaderWarning (trim line))
                       (warnings (parseChangelogText text)))).
Proof.
  apply (version_heading_extracted Square true (lit "1") (lit "2") (lit "3")
           (Some (lit "2024-01-01"))); reflexivity.
Defined.

End HeadingProps.

(* ===================================================================== *)
(** ** Version token against the word "unreleased" *)
(* ===================================================================== *)

Module PriorityProps.
Import Dec SemVer ReleaseUtils Release Spec Examples.
Import Dec SemVer ReleaseUtils Release Spec StringFacts DecFacts SemVerFacts
  ParserProps HeadingProps.

Lemma expect_inv (c : char) (s s' : jstring) :
  expect c s = Some s' -> s = c :: s'.
Proof.
  unfold expect. destruct s as [|x s]; [discriminate|].
  destruct (N.eqb x c) eqn:E; [|discriminate].
  apply N.eqb_eq in E. intros H. injection H as <-. congruence.
Qed.

Lemma takeWhile_numeric (s : jstring) :
  truthy (takeWhile isDigit s) = true -> isNumeric (takeWhile isDigit s) = true.
Proof.
  intros H. unfold isNumeric, allDigits. rewrite H, takeWhile_all. reflexivity.
Qed.

Lemma matchCore_inv (s t : jstring) :
  matchCore s = Some t -> hasVersionToken s.
Proof.
  unfold matchCore.
  destruct (expect (ch ".") (dropWhile isDigit s)) as [s1|] eqn:E1; [|discriminate].
  destruct (expect (ch ".") (dropWhile isDigit s1)) as [s2|] eqn:E2; [|discriminate].
  destruct (truthy (takeWhile isDigit s)) eqn:Ta; [|discriminate].
  destruct (truthy (takeWhile isDigit s1)) eqn:Tb; [|discriminate].
  destruct (truthy (takeWhile isDigit s2)) eqn:Tc; [|discriminate].
  intros _. apply expect_inv in E1, E2.
  exists [], (takeWhile isDigit s), (takeWhile isDigit s1), (takeWhile isDigit s2),
    (dropWhile isDigit s2).
  split.
  - cbn [app]. rewrite (takeWhile_dropWhile isDigit s2).
    change (lit "." ++ s2) with (ch "." :: s2).
    rewrite <- E2, (takeWhile_dropWhile isDigit s1).
    change (lit "." ++ s1) with (ch "." :: s1).
    rewrite <- E1, (takeWhile_dropWhile isDigit s). reflexivity.
  - auto using takeWhile_numeric.
Qed.

Lemma hasVersionToken_prefix (p s : jstring) :
  hasVersionToken s -> hasVersionToken (p ++ s).
Proof.
  intros (p0 & x & y & z & q & -> & H). exists (p ++ p0), x, y, z, q.
  rewrite <- app_assoc. auto.
Qed.

Lemma matchAt_inv (s t : jstring) : matchAt s = Some t -> hasVersionToken s.
Proof.
  unfold matchAt.
  set (s1 := match s with
             | c :: r => if N.eqb c (ch "(") || N.eqb c (ch "[") then r else s
             | [] => s
             end).
  set (s2 := dropWhile isWhiteSpace s1).
  set (s3 := match s2 with
             | c :: r => if N.eqb c (ch "v") then r else s2
             | [] => s2
             end).
  intros H. apply matchCore_inv in H.
  assert (H3 : exists p, s2 = p ++ s3).
  { unfold s3. destruct s2 as [|c r]; [exists []; reflexivity|].
    destruct (N.eqb c (ch "v")); [exists [c]|exists []]; reflexivity. }
  assert (H2 : exists p, s1 = p ++ s2).
  { exists (takeWhile isWhiteSpace s1). symmetry. apply takeWhile_dropWhile. }
  assert (H1 : exists p, s = p ++ s1).
  { unfold s1. destruct s as [|c r]; [exists []; reflexivity|].
    destruct (N.eqb c (ch "(") || N.eqb c (ch "[")); [exists [c]|exists []]; reflexivity. }
  destruct H1 as [p1 E1], H2 as [p2 E2], H3 as [p3 E3].
  rewrite E1. apply hasVersionToken_prefix.
  rewrite E2. apply hasVersionToken_prefix.
  rewrite E3. apply hasVersionToken_prefix. exact H.
Qed.

Lemma versionMatch_unfold (s : jstring) :
  versionMatch s = match matchAt s with
                   | Some t => Some t
                   | None => match s with
                             | [] => None
                             | _ :: s' => versionMatch s'
                             end
                   end.
Proof. destruct s; reflexivity. Qed.

Lemma versionMatch_inv (s t : jstring) :
  versionMatch s = Some t -> hasVersionToken s.
Proof.
  induction s as [|c s IH]; rewrite versionMatch_unfold.
  - discriminate.
  - destruct (matchAt (c :: s)) as [t'|] eqn:E.
    + intros _. eapply matchAt_inv, E.
    + intros H. apply (hasVersionToken_prefix [c]), IH, H.
Qed.

Lemma matchCore_some (x y z q : jstring) :
  isNumeric x = true -> isNumeric y = true -> isNumeric z = true ->
  matchCore (x ++ lit "." ++ y ++ lit "." ++ z ++ q) <> None.
Proof.
  intros Hx Hy Hz. unfold matchCore.
  rewrite (takeWhile_app_stop isDigit x), (dropWhile_app_stop isDigit x);
    try (apply numeric_allDigits, Hx); try reflexivity.
  rewrite expect_dot.
  rewrite (takeWhile_app_stop isDigit y), (dropWhile_app_stop isDigit y);
    try (apply numeric_allDigits, Hy); try reflexivity.
  rewrite expect_dot.
  rewrite (takeWhile_app_all isDigit z) by (apply numeric_allDigits, Hz).
  rewrite (numeric_truthy _ Hx), (numeric_truthy _ Hy).
  destruct (numeric_head_digit z Hz) as (c & z' & -> & _). simpl. discriminate.
Qed.

Lemma matchAt_digit (c : char) (s : jstring) :
  isDigit c = true -> matchAt (c :: s) = matchCore (c :: s).
Proof.
  intros Hc. unfold matchAt.
  destruct (isDigit_cases c Hc) as [->|[->|[->|[->|[->|[->|[->|[->|[->| ->]]]]]]]]];
    reflexivity.
Qed.

Lemma versionMatch_some (s : jstring) : hasVersionToken s -> versionMatch s <> None.
Proof.
  intros (p & x & y & z & q & -> & Hx & Hy & Hz).
  induction p as [|c p IH]; rewrite versionMatch_unfold.
  - pose proof (matchCore_some x y z q Hx Hy Hz) as H.
    destruct (numeric_head_digit x Hx) as (c & x' & -> & Hc).
    simpl app in *. rewrite (matchAt_digit c _ Hc).
    destruct (matchCore _); [discriminate|congruence].
  - simpl app. destruct (matchAt _); [discriminate|exact IH].
Qed.

(** C10.  In a heading line, a version-shaped token (three digit runs
    separated by dots) decides the classification: the entry gets the version
    the library makes of the token, or null with the warning, and never
    "unreleased".  The version is "unreleased" exactly when the heading text
    has no such token and contains the word in any letter case.  A heading
    with both a valid version and the word is a released entry. *)
Theorem version_token_priority :
  (forall line tok,
      isHeading line = true ->
      versionMatch (headerTextOf line) = Some tok ->
      hasVersionToken (headerTextOf line)
      /\ fst (classifyLine line) <> Some unreleased
      /\ ((exists s, valid (trim tok) = Some s /\ classifyLine line = (Some s, []))
          \/ (valid (trim tok) = None
              /\ classifyLine line = (None, [invalidHeaderWarning (trim line)]))))
  /\ (forall line,
         isHeading line = true ->
         (fst (classifyLine line) = Some unreleased <->
          ~ hasVersionToken (headerTextOf line)
          /\ includes unreleased (toLowerCase (headerTextOf line)) = true))
  /\ (includes unreleased (toLowerCase (headerTextOf bothHeading)) = true
      /\ In {| version := Some (lit "1.2.3"); header := bothHeading;
               content := lit "- x" |}
            (entries (parseChangelogText bothText))).
Proof.
  split; [|split].
  - intros line tok Hh Hm.
    assert (C : (exists s, valid (trim tok) = Some s
                           /\ classifyLine line = (Some s, []))
                \/ (valid (trim tok) = None
                    /\ classifyLine line = (None, [invalidHeaderWarning (trim line)]))).
    { rewrite (classifyLine_unfold line Hh). unfold classifyHeading. rewrite Hm.
      destruct (valid (trim tok)) as [s|] eqn:E.
      - left. exists s. rewrite (valid_truthy _ _ E). auto.
      - right. auto. }
    split; [eapply versionMatch_inv, Hm|]. split; [|exact C].
    destruct C as [(s & Hs & ->)|[_ ->]]; simpl.
    + intros E. injection E as E. exact (valid_not_unreleased _ _ Hs E).
    + discriminate.
  - intros line Hh. rewrite (classifyLine_unfold line Hh). unfold classifyHeading.
    destruct (versionMatch (headerTextOf line)) as [tok|] eqn:Hm.
    + split.
      * destruct (valid (trim tok)) as [s|] eqn:E.
        -- rewrite (valid_truthy _ _ E). simpl. intros H. injection H as H.
           exfalso. exact (valid_not_unreleased _ _ E H).
        -- discriminate.
      * intros [Hno _]. exfalso. apply Hno. eapply versionMatch_inv, Hm.
    + assert (Hno : ~ hasVersionToken (headerTextOf line)).
      { intros H. apply versionMatch_some in H. congruence. }
      destruct (includes unreleased (toLowerCase (headerTextOf line))); simpl.
      * split; auto.
      * split; [discriminate|]. intros [_ H]. discriminate.
  - split; [reflexivity|]. vm_compute. right. left. reflexivity.
Qed.

Lemma version_token_priority_witness :
  hasVersionToken (headerTextOf bothHeading)
  /\ fst (classifyLine bothHeading) <> Some unreleased
  /\ ((exists s, valid (trim (lit "1.2.3")) = Some s
                 /\ classifyLine bothHeading = (Some s, []))
      \/ (valid (trim (lit "1.2.3")) = None
          /\ classifyLine bothHeading
             = (None, [invalidHeaderWarning (trim bothHeading)]))).
Proof.
  apply (proj1 version_token_priority bothHeading (lit "1.2.3")); reflexivity.
Defined.

End PriorityProps.

(* ===================================================================== *)
(** ** The changelog writer *)
(* ===================================================================== *)

Module WriterProps.
Import Dec SemVer ReleaseUtils Release Spec Examples.
Import Dec SemVer ReleaseUtils Release Spec StringFacts DecFacts SemVerFacts
  ParserProps.

Lemma containsInOrder_prefix (parts : list jstring) (x s : jstring) :
  containsInOrder parts s -> containsInOrder parts (x ++ s).
Proof.
  destruct parts as [|p ps]; simpl; [auto|].
  intros (pre & post & -> & H). exists (x ++ pre), post.
  rewrite <- app_assoc. auto.
Qed.

Lemma containsInOrder_suffix (parts : list jstring) (s x : jstring) :
  containsInOrder parts s -> containsInOrder parts (s ++ x).
Proof.
  revert s. induction parts as [|p ps IH]; simpl; [auto|].
  intros s (pre & post & -> & H). exists pre, (post ++ x).
  rewrite <- !app_assoc. auto.
Qed.

Lemma containsInOrder_empty (parts : list jstring) (s : jstring) :
  Forall (fun p => p = []) parts -> containsInOrder parts s.
Proof.
  intros H. revert s. induction H as [|p ps -> _ IH]; simpl; [auto|].
  intros s. exists [], s. auto.
Qed.

Lemma containsInOrder_chars (parts : list jstring) (s : jstring) :
  containsInOrder parts s ->
  forall p c, In p parts -> In c p -> In c s.
Proof.
  revert s. induction parts as [|q ps IH]; simpl; [contradiction|].
  intros s (pre & post & -> & H) p c [<-|Hp] Hc.
  - rewrite !in_app_iff. auto.
  - rewrite !in_app_iff. right. right. eapply IH; eauto.
Qed.

Lemma trimEnd_app_nonspace (a b : jstring) :
  forallb isWhiteSpace b = false -> trimEnd (a ++ b) = a ++ trimEnd b.
Proof.
  intros H. unfold trimEnd, trimStart. rewrite rev_app_distr, dropWhile_app.
  replace (forallb isWhiteSpace (rev b)) with false.
  - rewrite rev_app_distr, rev_involutive. reflexivity.
  - symmetry. apply not_true_is_false. intros F. rewrite forallb_forall in F.
    assert (T : forallb isWhiteSpace b = true).
    { apply forallb_forall. intros c Hc. apply F. apply in_rev in Hc. exact Hc. }
    congruence.
Qed.

Lemma noTrailingSpace_space (p : jstring) :
  noTrailingSpace p -> forallb isWhiteSpace p = true -> p = [].
Proof.
  unfold noTrailingSpace. intros H F. rewrite <- H. apply trimEnd_all_space, F.
Qed.

Lemma noTrailingSpace_solid (p : jstring) :
  noTrailingSpace p -> p = [] \/ endsSolid p = true.
Proof.
  unfold noTrailingSpace. intros H. rewrite <- H. apply trimEnd_shape.
Qed.

(** Cutting white space off the end of a text loses none of the parts it
    contains, as long as no part ends with white space. *)
Lemma containsInOrder_trimEnd (parts : list jstring) (s : jstring) :
  Forall noTrailingSpace parts ->
  containsInOrder parts s -> containsInOrder parts (trimEnd s).
Proof.
  intros Hall. revert s. induction Hall as [|p ps Hp Hps IH]; simpl; [auto|].
  intros s (pre & post & -> & H).
  destruct (forallb isWhiteSpace post) eqn:F.
  - assert (Hnil : Forall (fun q => q = []) ps).
    { rewrite Forall_forall in *. intros q Hq. apply noTrailingSpace_space; [auto|].
      apply forallb_forall. intros c Hc. rewrite forallb_forall in F.
      apply F. eapply containsInOrder_chars; eauto. }
    rewrite app_assoc, (trimEnd_app_space _ _ F).
    destruct (noTrailingSpace_solid p Hp) as [->|Hs].
    + rewrite app_nil_r. exists (trimEnd pre), []. rewrite app_nil_r. split; [reflexivity|].
      apply containsInOrder_empty, Hnil.
    + rewrite (trimEnd_solid _ (endsSolid_app pre p Hs)).
      exists pre, []. rewrite app_nil_r. split; [reflexivity|].
      apply containsInOrder_empty, Hnil.
  - rewrite app_assoc, (trimEnd_app_nonspace _ _ F), <- app_assoc.
    exists pre, (trimEnd post). auto.
Qed.

Lemma containsInOrder_render (es : list ChangelogEntry) :
  containsInOrder (partsOf es) (List.concat (map renderEntry es)).
Proof.
  induction es as [|e es IH]; simpl; [exact I|].
  unfold renderEntry at 1. exists [], ([LF; LF] ++ content e ++ [LF; LF]
                                      ++ List.concat (map renderEntry es)).
  split; [rewrite <- !app_assoc; reflexivity|].
  exists [LF; LF], ([LF; LF] ++ List.concat (map renderEntry es)).
  split; [reflexivity|]. apply containsInOrder_prefix, IH.
Qed.

Lemma fold_render (es : list ChangelogEntry) (acc : jstring) :
  fold_left (fun a entry => a ++ renderEntry entry) es acc
  = acc ++ List.concat (map renderEntry es).
Proof.
  revert acc. induction es as [|e es IH]; intros acc; simpl.
  - rewrite app_nil_r. reflexivity.
  - rewrite IH, <- app_assoc. reflexivity.
Qed.

Lemma updateChangelog_text (parsed : ParsedChangelog) (next today out ret : jstring) :
  updateChangelog parsed next today = Ok (out, ret) ->
  exists u,
    find isUnreleased (entries parsed) = Some u /\ ret = content u
    /\ out = trim (preambleOf parsed
                   ++ renderEntry {| version := Some next;
                                     header := lit "## [" ++ next ++ lit "] - " ++ today;
                                     content := content u |}
                   ++ List.concat (map renderEntry (keptEntries parsed)))
             ++ [LF].
Proof.
  unfold updateChangelog.
  destruct (find isUnreleased (entries parsed)) as [u|]; [|discriminate].
  destruct (negb (truthy (content u))); [discriminate|].
  intros H. injection H as <- <-. exists u. repeat split.
  cbn [fold_left]. rewrite fold_render. unfold preambleOf, keptEntries.
  destruct (truthy (description parsed)); rewrite <- !app_assoc; reflexivity.
Qed.

Lemma preamble_not_space (parsed : ParsedChangelog) :
  forallb isWhiteSpace (preambleOf parsed) = false.
Proof.
  unfold preambleOf. rewrite forallb_app. simpl. apply andb_false_r.
Qed.

Lemma partsOf_trimmed (es : list ChangelogEntry) :
  Forall entryTrimmed es -> Forall noTrailingSpace (partsOf es).
Proof.
  induction 1 as [|e es [Hh Hc] _ IH]; simpl; auto.
Qed.

Lemma filter_Forall {A : Type} (P : A -> Prop) (f : A -> bool) (l : list A) :
  Forall P l -> Forall P (filter f l).
Proof.
  rewrite !Forall_forall. intros H x Hx. apply filter_In in Hx as [Hx _]. auto.
Qed.

(** What the parser returns has trimmed entries. *)
Lemma trimEnd_trim (s : jstring) : trimEnd (trim s) = trim s.
Proof. unfold trim. apply trimEnd_idem. Qed.

Lemma step_trimmed (st : LoopState) (l : jstring) :
  Forall entryTrimmed (st_entries st) ->
  (forall e, st_currentEntry st = Some e -> noTrailingSpace (header e)) ->
  Forall entryTrimmed (st_entries (step st l))
  /\ (forall e, st_currentEntry (step st l) = Some e -> noTrailingSpace (header e)).
Proof.
  intros Hes Hcur. unfold step.
  destruct (headingMatch l) as [m1|].
  - destruct (classifyHeading (trim l) (trim m1)) as [v ws]. simpl. split.
    + destruct (st_currentEntry st) as [e|]; simpl; [|exact Hes].
      apply Forall_app. split; [exact Hes|]. constructor; [|constructor].
      split; simpl; [apply Hcur; reflexivity|apply trimEnd_trim].
    + intros e H. injection H as <-. apply trimEnd_trim.
  - destruct (st_currentEntry st) as [e|] eqn:E.
    + simpl. split; [exact Hes|]. intros e' H. injection H as <-. simpl.
      apply Hcur. reflexivity.
    + destruct (negb (st_firstHeaderFound st) && negb (startsWith (lit "# ") l));
        simpl; rewrite ?E; split; auto; discriminate.
Qed.

Lemma loop_trimmed (lines : list jstring) (st : LoopState) :
  Forall entryTrimmed (st_entries st) ->
  (forall e, st_currentEntry st = Some e -> noTrailingSpace (header e)) ->
  Forall entryTrimmed (pending (fold_left step lines st)).
Proof.
  revert st. induction lines as [|l lines IH]; intros st Hes Hcur; simpl.
  - unfold pending, pushCurrent. destruct (st_currentEntry st) as [e|]; [|exact Hes].
    apply Forall_app. split; [exact Hes|]. constructor; [|constructor].
    split; simpl; [apply Hcur; reflexivity|apply trimEnd_trim].
  - destruct (step_trimmed st l Hes Hcur) as [H1 H2]. apply IH; assumption.
Qed.

Lemma parser_entries_trimmed (text : jstring) :
  entriesTrimmed (parseChangelogText text).
Proof.
  unfold entriesTrimmed.
  assert (H : Forall entryTrimmed (headingEntries text)).
  { apply loop_trimmed; [constructor|discriminate]. }
  destruct (entries_cases text) as [[_ E]|[_ (c & Hc & E)]]; rewrite E; [exact H|].
  constructor; [|exact H]. split; [reflexivity|exact Hc].
Qed.

End WriterProps.

(* ===================================================================== *)
(** ** Reading the writer's text back *)
(* ===================================================================== *)

Module RoundTripProps.
Import Dec SemVer ReleaseUtils Release Spec Examples.
Import Dec SemVer ReleaseUtils Release Spec Examples.
Import StringFacts DecFacts SemVerFacts ParserProps WriterProps.

Lemma splitLines_nonempty (s : jstring) : splitLines s <> [].
Proof.
  induction s as [|c s IH]; simpl; [discriminate|].
  destruct (N.eqb c LF); [discriminate|].
  destruct (N.eqb c CR && _); [exact IH|].
  destruct (splitLines s); discriminate.
Qed.

Lemma endsWithCR_cons (c : char) (s : jstring) :
  s <> [] -> endsWithCR (c :: s) = endsWithCR s.
Proof.
  intros Hs. unfold endsWithCR. simpl.
  destruct (rev s) as [|x r] eqn:E; [|reflexivity].
  apply (f_equal (@rev _)) in E. rewrite rev_involutive in E. contradiction.
Qed.

(** A newline after a text that does not end with a carriage return ends the
    last line of that text. *)
Lemma splitLines_append (a b : jstring) :
  endsWithCR a = false ->
  splitLines (a ++ LF :: b) = splitLines a ++ splitLines b.
Proof.
  induction a as [|c a IH]; intros H.
  - reflexivity.
  - assert (Ha : endsWithCR a = false).
    { destruct a as [|d a]; [reflexivity|].
      rewrite endsWithCR_cons in H by discriminate. exact H. }
    specialize (IH Ha).
    change (splitLines ((c :: a) ++ LF :: b))
      with (if N.eqb c LF then [] :: splitLines (a ++ LF :: b)
            else if N.eqb c CR && match a ++ LF :: b with
                                  | d :: _ => N.eqb d LF
                                  | [] => false
                                  end
                 then splitLines (a ++ LF :: b)
                 else match splitLines (a ++ LF :: b) with
                      | l :: ls => (c :: l) :: ls
                      | [] => [[c]]
                      end).
    change (splitLines (c :: a))
      with (if N.eqb c LF then [] :: splitLines a
            else if N.eqb c CR && match a with
                                  | d :: _ => N.eqb d LF
                                  | [] => false
                                  end
                 then splitLines a
                 else match splitLines a with
                      | l :: ls => (c :: l) :: ls
                      | [] => [[c]]
                      end).
    rewrite IH.
    destruct (N.eqb c LF); [reflexivity|].
    destruct a as [|d a].
    + simpl. destruct (N.eqb c CR) eqn:E; [|reflexivity].
      unfold endsWithCR in H. simpl in H. congruence.
    + simpl app at 1.
      destruct (N.eqb c CR && N.eqb d LF); [reflexivity|].
      pose proof (splitLines_nonempty (d :: a)) as Hn.
      destruct (splitLines (d :: a)); [contradiction|reflexivity].
Qed.

Lemma splitLines_front (a b : jstring) :
  exists la, la <> [] /\ splitLines (a ++ LF :: b) = la ++ splitLines b.
Proof.
  induction a as [|c a (la & Hla & IH)].
  - exists [[]]. split; [discriminate|reflexivity].
  - change (splitLines ((c :: a) ++ LF :: b))
      with (if N.eqb c LF then [] :: splitLines (a ++ LF :: b)
            else if N.eqb c CR && match a ++ LF :: b with
                                  | d :: _ => N.eqb d LF
                                  | [] => false
                                  end
                 then splitLines (a ++ LF :: b)
                 else match splitLines (a ++ LF :: b) with
                      | l :: ls => (c :: l) :: ls
                      | [] => [[c]]
                      end).
    rewrite IH.
    destruct (N.eqb c LF); [exists ([] :: la); split; [discriminate|reflexivity]|].
    destruct (N.eqb c CR && _); [exists la; auto|].
    destruct la as [|l la]; [contradiction|].
    exists ((c :: l) :: la). split; [discriminate|reflexivity].
Qed.

Lemma splitLines_cons (c : char) (s : jstring) :
  splitLines (c :: s)
  = if N.eqb c LF then [] :: splitLines s
    else if N.eqb c CR && match s with d :: _ => N.eqb d LF | [] => false end
         then splitLines s
         else match splitLines s with
              | l :: ls => (c :: l) :: ls
              | [] => [[c]]
              end.
Proof. reflexivity. Qed.

Lemma splitLines_single (s : jstring) :
  existsb (N.eqb LF) s = false -> splitLines s = [s].
Proof.
  induction s as [|c s IH]; [reflexivity|].
  cbn [existsb]. intros H. apply orb_false_iff in H as [Hc Hs].
  rewrite splitLines_cons, (IH Hs), N.eqb_sym, Hc.
  replace (match s with d :: _ => N.eqb d LF | [] => false end) with false.
  - rewrite andb_false_r. reflexivity.
  - destruct s as [|d s]; [reflexivity|]. cbn [existsb] in Hs.
    apply orb_false_iff in Hs as [Hd _]. rewrite N.eqb_sym. auto.
Qed.

Lemma trimmed_no_CR (s : jstring) : trim s = s -> endsWithCR s = false.
Proof.
  intros H. assert (T : trimEnd s = s).
  { rewrite <- H. apply trimEnd_trim. }
  unfold endsWithCR. destruct (trimEnd_shape s) as [E|E]; rewrite T in E.
  - rewrite E. reflexivity.
  - unfold endsSolid in E. destruct (rev s) as [|c r]; [reflexivity|].
    destruct (N.eqb c CR) eqn:Ec; [|reflexivity].
    apply N.eqb_eq in Ec. subst c. discriminate.
Qed.

(** The loop of the parser on the lines of one entry. *)
Lemma fold_body (ls : list jstring) (st : LoopState) (e : ChangelogEntry) :
  forallb (fun l => negb (isHeading l)) ls = true ->
  st_currentEntry st = Some e ->
  fold_left step ls st
  = {| st_description := st_description st;
       st_entries := st_entries st;
       st_warnings := st_warnings st;
       st_currentEntry := Some {| version := version e; header := header e;
                                  content := content e ++ closeLines ls |};
       st_firstHeaderFound := st_firstHeaderFound st |}.
Proof.
  revert st e. induction ls as [|l ls IH]; intros st e Hls Hcur.
  - simpl. unfold closeLines. simpl. rewrite app_nil_r.
    destruct st, e. simpl in *. rewrite Hcur. reflexivity.
  - simpl in Hls. apply andb_true_iff in Hls as [Hl Hls].
    assert (S : step st l
                = {| st_description := st_description st;
                     st_entries := st_entries st;
                     st_warnings := st_warnings st;
                     st_currentEntry :=
                       Some {| version := version e; header := header e;
                               content := content e ++ l ++ [LF] |};
                     st_firstHeaderFound := st_firstHeaderFound st |}).
    { unfold step. unfold isHeading in Hl.
      destruct (headingMatch l); [discriminate|]. rewrite Hcur. reflexivity. }
    cbn [fold_left]. rewrite S.
    erewrite IH; [|exact Hls|reflexivity].
    cbn [st_description st_entries st_warnings st_firstHeaderFound
         version header content].
    unfold closeLines. cbn [map List.concat]. rewrite <- !app_assoc. reflexivity.
Qed.

Lemma fold_block (h : jstring) (ls : list jstring) (st : LoopState) :
  isHeading h = true ->
  forallb (fun l => negb (isHeading l)) ls = true ->
  pending (fold_left step (h :: ls) st)
  = pending st ++ [{| version := fst (classifyLine h); header := trim h;
                      content := trim (closeLines ls) |}].
Proof.
  intros Hh Hls. simpl.
  assert (S : step st h
              = {| st_description := st_description st;
                   st_entries := pending st;
                   st_warnings := st_warnings st ++ snd (classifyLine h);
                   st_currentEntry := Some {| version := fst (classifyLine h);
                                              header := trim h; content := [] |};
                   st_firstHeaderFound := true |}).
  { unfold step, classifyLine, isHeading in *.
    destruct (headingMatch h) as [m1|]; [|discriminate].
    destruct (classifyHeading (trim h) (trim m1)). reflexivity. }
  rewrite S. erewrite fold_body; [|exact Hls|reflexivity]. reflexivity.
Qed.

Lemma trim_pad (a c b : jstring) :
  forallb isWhiteSpace a = true -> forallb isWhiteSpace b = true ->
  trim (a ++ c ++ b) = trim c.
Proof.
  intros Ha Hb. unfold trim, trimStart. rewrite dropWhile_app, Ha.
  destruct (forallb isWhiteSpace c) eqn:Hc.
  - rewrite (dropWhile_all _ c Hc), dropWhile_app, Hc. simpl.
    rewrite (dropWhile_all _ b Hb). reflexivity.
  - rewrite dropWhile_app, Hc. apply trimEnd_app_space, Hb.
Qed.

Lemma reparsable_parts (e : ChangelogEntry) :
  reparsable e = true ->
  isHeading (header e) = true
  /\ existsb (N.eqb LF) (header e) = false
  /\ trim (header e) = header e
  /\ version e = fst (classifyLine (header e))
  /\ trim (content e) = content e
  /\ forallb (fun l => negb (isHeading l)) (splitLines (content e)) = true
  /\ closeLines (splitLines (content e)) = content e ++ [LF].
Proof.
  unfold reparsable. rewrite !andb_true_iff, !eqb_eq, negb_true_iff.
  intros [[[[[[H1 H2] H3] H4] H5] H6] H7]. repeat split; auto.
  unfold optionEqb in H4.
  destruct (version e), (fst (classifyLine (header e))); try discriminate; auto.
  apply eqb_eq in H4. congruence.
Qed.

Lemma closeLines_app (a b : list jstring) :
  closeLines (a ++ b) = closeLines a ++ closeLines b.
Proof. unfold closeLines. rewrite map_app, concat_app. reflexivity. Qed.

Lemma bodyLines_ok (e : ChangelogEntry) (last : bool) :
  reparsable e = true ->
  forallb (fun l => negb (isHeading l)) (bodyLines e last) = true
  /\ trim (closeLines (bodyLines e last)) = content e.
Proof.
  intros H. destruct (reparsable_parts e H) as (_ & _ & _ & _ & Hc & Hl & Hj).
  unfold bodyLines. destruct (last && negb (truthy (content e))) eqn:E.
  - split; [reflexivity|].
    apply andb_true_iff in E as [_ E]. apply negb_true_iff in E.
    destruct (content e); [reflexivity|discriminate].
  - split.
    + simpl. rewrite forallb_app, Hl. reflexivity.
    + change ([] :: splitLines (content e) ++ [[]])
        with ([[]] ++ splitLines (content e) ++ [[]]).
      rewrite !closeLines_app, Hj. change (closeLines [[]]) with [LF].
      rewrite <- app_assoc. change ([LF] ++ [LF]) with [LF; LF].
      rewrite trim_pad by reflexivity. exact Hc.
Qed.

(** The loop of the parser on the lines of a sequence of entries. *)
Lemma fold_one_block (e : ChangelogEntry) (last : bool) (st : LoopState) :
  reparsable e = true ->
  pending (fold_left step (blockLines e last) st) = pending st ++ [e].
Proof.
  intros He.
  destruct (reparsable_parts e He) as (Hh & _ & Ht & Hv & _).
  destruct (bodyLines_ok e last He) as [Hb Hc].
  unfold blockLines. rewrite (fold_block _ _ _ Hh Hb), Ht, Hc, <- Hv.
  destruct e. reflexivity.
Qed.

Lemma fold_blocks (es : list ChangelogEntry) (st : LoopState) :
  forallb reparsable es = true ->
  pending (fold_left step (linesOf es) st) = pending st ++ es.
Proof.
  revert st. induction es as [|e es IH]; intros st H.
  - simpl. rewrite app_nil_r. reflexivity.
  - simpl in H. apply andb_true_iff in H as [He Hes].
    destruct es as [|e' es].
    + apply fold_one_block, He.
    + change (linesOf (e :: e' :: es))
        with (blockLines e false ++ linesOf (e' :: es)).
      rewrite fold_left_app, (IH _ Hes), (fold_one_block e false st He).
      rewrite <- app_assoc. reflexivity.
Qed.

Lemma heading_nonempty (h : jstring) :
  isHeading h = true -> exists r, h = ch "#" :: r.
Proof.
  unfold isHeading, headingMatch. destruct h as [|a [|b r]]; try discriminate.
  destruct (N.eqb a (ch "#")) eqn:E; [|discriminate].
  apply N.eqb_eq in E. subst a. eauto.
Qed.

Lemma trimmed_solid (s : jstring) : trim s = s -> s <> [] -> endsSolid s = true.
Proof.
  intros H Hs. assert (T : trimEnd s = s) by (rewrite <- H; apply trimEnd_trim).
  destruct (trimEnd_shape s) as [E|E]; rewrite T in E; [contradiction|exact E].
Qed.

Lemma render_not_space (e : ChangelogEntry) (rest : jstring) :
  isHeading (header e) = true ->
  forallb isWhiteSpace (renderEntry e ++ rest) = false.
Proof.
  intros H. destruct (heading_nonempty _ H) as [r E].
  unfold renderEntry. rewrite E. reflexivity.
Qed.

Lemma splitLines_block (e : ChangelogEntry) (x : jstring) :
  reparsable e = true ->
  splitLines (renderEntry e ++ x) = blockLines e false ++ splitLines x.
Proof.
  intros He.
  destruct (reparsable_parts e He) as (Hh & Hlf & Ht & _ & Hc & _).
  unfold renderEntry, blockLines, bodyLines. rewrite <- !app_assoc.
  change ([LF; LF] ++ content e ++ [LF; LF] ++ x)
    with (LF :: ([] ++ LF :: content e ++ LF :: ([] ++ LF :: x))).
  rewrite (splitLines_append (header e)) by (apply trimmed_no_CR, Ht).
  rewrite (splitLines_single _ Hlf).
  rewrite (splitLines_append []) by reflexivity.
  rewrite (splitLines_append (content e)) by (apply trimmed_no_CR, Hc).
  rewrite (splitLines_append []) by reflexivity.
  cbn [andb app]. change (splitLines []) with [[]: jstring].
  cbn [app]. rewrite <- app_assoc. reflexivity.
Qed.

Lemma splitLines_last_block (e : ChangelogEntry) :
  reparsable e = true ->
  splitLines (trimEnd (renderEntry e) ++ [LF]) = blockLines e true.
Proof.
  intros He.
  destruct (reparsable_parts e He) as (Hh & Hlf & Ht & _ & Hc & _).
  destruct (heading_nonempty _ Hh) as [r Er].
  assert (Hs : endsSolid (header e) = true).
  { apply trimmed_solid; [exact Ht|]. rewrite Er. discriminate. }
  unfold renderEntry, blockLines, bodyLines. cbn [andb].
  destruct (content e) as [|c0 cs] eqn:Ec.
  - cbn [truthy negb app]. rewrite (trimEnd_app_keep _ _ Hs).
    change (trimEnd [LF; LF; LF; LF]) with (@nil char). rewrite app_nil_r.
    rewrite (splitLines_append (header e) []) by (apply trimmed_no_CR, Ht).
    rewrite (splitLines_single _ Hlf). reflexivity.
  - cbn [truthy negb]. rewrite <- Ec in *.
    assert (Hcs : endsSolid (content e) = true).
    { apply trimmed_solid; [exact Hc|]. rewrite Ec. discriminate. }
    rewrite !app_assoc, trimEnd_app_space by reflexivity.
    rewrite trimEnd_solid by (apply endsSolid_app, Hcs).
    rewrite <- !app_assoc.
    change ([LF; LF] ++ content e ++ [LF])
      with (LF :: ([] ++ LF :: content e ++ LF :: [])).
    rewrite (splitLines_append (header e)) by (apply trimmed_no_CR, Ht).
    rewrite (splitLines_single _ Hlf).
    rewrite (splitLines_append []) by reflexivity.
    rewrite (splitLines_append (content e)) by (apply trimmed_no_CR, Hc).
    reflexivity.
Qed.

(** The lines of the end of the writer's text. *)
Lemma splitLines_entries (es : list ChangelogEntry) :
  forallb reparsable es = true -> es <> [] ->
  splitLines (trimEnd (List.concat (map renderEntry es)) ++ [LF]) = linesOf es.
Proof.
  induction es as [|e es IH]; intros H Hne; [contradiction|].
  simpl in H. apply andb_true_iff in H as [He Hes].
  destruct es as [|e' es].
  - cbn [map List.concat]. rewrite app_nil_r. apply splitLines_last_block, He.
  - change (linesOf (e :: e' :: es)) with (blockLines e false ++ linesOf (e' :: es)).
    rewrite <- IH by (auto; discriminate).
    change (List.concat (map renderEntry (e :: e' :: es)))
      with (renderEntry e ++ List.concat (map renderEntry (e' :: es))).
    rewrite trimEnd_app_nonspace.
    + rewrite <- app_assoc. apply splitLines_block, He.
    + cbn [map List.concat]. apply render_not_space.
      simpl in Hes. apply andb_true_iff in Hes as [He' _].
      apply (reparsable_parts e' He').
Qed.

Lemma headingEntries_app (la lb : list jstring) :
  pending (fold_left step (la ++ lb) initialState)
  = pending (fold_left step lb (fold_left step la initialState)).
Proof. rewrite fold_left_app. reflexivity. Qed.

(** Reading back the text of the writer: the entries it kept come last,
    unchanged and in order. *)
Lemma reparse_kept (parsed : ParsedChangelog) (next today out ret : jstring) :
  forallb reparsable (keptEntries parsed) = true ->
  updateChangelog parsed next today = Ok (out, ret) ->
  exists front,
    entries (parseChangelogText out) = front ++ keptEntries parsed.
Proof.
  intros Hre Hup.
  destruct (keptEntries parsed) as [|e0 es0] eqn:Ek.
  { exists (entries (parseChangelogText out)). rewrite app_nil_r. reflexivity. }
  rewrite <- Ek in *.
  assert (Hne : keptEntries parsed <> []) by (rewrite Ek; discriminate).
  destruct (updateChangelog_text _ _ _ _ _ Hup) as (u & _ & _ & Hout).
  set (B := List.concat (map renderEntry (keptEntries parsed))) in *.
  assert (HB : forallb isWhiteSpace B = false).
  { unfold B. rewrite Ek. cbn [map List.concat]. apply render_not_space.
    rewrite Ek in Hre. simpl in Hre. apply andb_true_iff in Hre as [He _].
    apply (reparsable_parts e0 He). }
  set (G := preambleOf parsed
            ++ (lit "## [" ++ next ++ lit "] - " ++ today) ++ [LF; LF]
            ++ content u ++ [LF]).
  assert (HG : forallb isWhiteSpace G = false).
  { unfold G. rewrite forallb_app, preamble_not_space. reflexivity. }
  assert (E : out = dropWhile isWhiteSpace G ++ LF :: (trimEnd B ++ [LF])).
  { rewrite Hout. unfold renderEntry. cbn [header content].
    replace (preambleOf parsed
             ++ ((lit "## [" ++ next ++ lit "] - " ++ today) ++ [LF; LF]
                 ++ content u ++ [LF; LF]) ++ B)
      with (G ++ [LF] ++ B).
    - unfold trim, trimStart. rewrite dropWhile_app, HG.
      rewrite app_assoc, (trimEnd_app_nonspace _ _ HB), <- !app_assoc.
      reflexivity.
    - unfold G. rewrite <- !app_assoc. reflexivity. }
  destruct (splitLines_front (dropWhile isWhiteSpace G) (trimEnd B ++ [LF]))
    as (la & _ & Hla).
  rewrite <- E in Hla.
  unfold B in Hla. rewrite (splitLines_entries _ Hre Hne) in Hla.
  destruct (entries_suffix out) as [synth Es].
  exists (synth ++ pending (fold_left step la initialState)).
  rewrite Es. unfold headingEntries. fold (pending (fold_left step (splitLines out) initialState)).
  rewrite Hla, headingEntries_app, (fold_blocks _ _ Hre), <- app_assoc.
  reflexivity.
Qed.

(** C1, as amended.  When the entries carry headers and contents without
    trailing white space, as the parser makes them, and the writer succeeds,
    header and content of every entry whose version is not "unreleased" occur
    in its text unchanged and in the original relative order; the text ends
    with these entries, each as header, blank line, content, blank line, the
    whole trimmed and closed by one newline.  Reading the text back with the
    parser gives these entries again, unchanged and in order, as the last
    entries of the result, when each of them reads back as itself: the header
    is one trimmed heading line that gives the entry its version, the content
    is trimmed, has no heading line and no carriage return before a newline. *)
Theorem writer_keeps_released_entries (parsed : ParsedChangelog)
    (next today out ret : jstring) :
  entriesTrimmed parsed ->
  updateChangelog parsed next today = Ok (out, ret) ->
  containsInOrder (partsOf (keptEntries parsed)) out
  /\ (exists front,
        out = trim (front ++ List.concat (map renderEntry (keptEntries parsed)))
              ++ [LF]
        /\ forallb isWhiteSpace front = false)
  /\ (forallb reparsable (keptEntries parsed) = true ->
      exists front,
        entries (parseChangelogText out) = front ++ keptEntries parsed).
Proof.
  intros Htrim Hup. split; [|split].
  - destruct (updateChangelog_text _ _ _ _ _ Hup) as (u & _ & _ & ->).
    apply containsInOrder_suffix. unfold trim.
    apply containsInOrder_trimEnd.
    + apply partsOf_trimmed, filter_Forall, Htrim.
    + unfold trimStart. rewrite dropWhile_app, preamble_not_space.
      apply containsInOrder_prefix, containsInOrder_prefix.
      apply containsInOrder_render.
  - destruct (updateChangelog_text _ _ _ _ _ Hup) as (u & _ & _ & ->).
    eexists (preambleOf parsed ++ renderEntry _). rewrite <- app_assoc.
    split; [reflexivity|].
    rewrite forallb_app, preamble_not_space. reflexivity.
  - intros Hre. exact (reparse_kept parsed next today out ret Hre Hup).
Qed.

Lemma writer_keeps_released_entries_witness :
  let out := lit "Changelog" ++ [LF; LF] ++ lit "## [Unreleased]" ++ [LF; LF]
             ++ lit "## [1.2.1] - 2025-01-01" ++ [LF; LF] ++ lit "- x" ++ [LF; LF]
             ++ lit "## [1.2.0] - 2024-01-01" ++ [LF; LF] ++ lit "- Old" ++ [LF] in
  containsInOrder (partsOf (keptEntries conflictExample)) out
  /\ (exists front,
        out = trim (front ++ List.concat (map renderEntry (keptEntries conflictExample)))
              ++ [LF]
        /\ forallb isWhiteSpace front = false)
  /\ (exists front,
        entries (parseChangelogText out) = front ++ keptEntries conflictExample).
Proof.
  intros out.
  destruct (writer_keeps_released_entries conflictExample (lit "1.2.1")
              (lit "2025-01-01") out (lit "- x")) as (H1 & H2 & H3).
  - apply parser_entries_trimmed.
  - vm_compute. reflexivity.
  - split; [exact H1|]. split; [exact H2|]. apply H3. vm_compute. reflexivity.
Defined.

(** C1, as stated, fails: the parser reads the text [twoUnreleased] into a
    release entry and two unreleased entries; the writer consumes the first
    unreleased entry and its text has neither the header nor the content of
    the second. *)
Lemma second_unreleased_lost_counterexample :
  let parsed := parseChangelogText twoUnreleased in
  let lost := {| version := Some unreleased;
                 header := lit "## Unreleased (draft)";
                 content := lit "- more" |} in
  In lost (entries parsed)
  /\ find isUnreleased (entries parsed) <> Some lost
  /\ exists out ret,
       updateChangelog parsed (lit "1.0.1") (lit "2025-01-01") = Ok (out, ret)
       /\ includes (header lost) out = false
       /\ includes (content lost) out = false.
Proof.
  cbv zeta. split; [|split].
  - vm_compute. right. right. left. reflexivity.
  - vm_compute. discriminate.
  - eexists. eexists. split; [vm_compute; reflexivity|]. split; vm_compute; reflexivity.
Qed.

End RoundTripProps.

(* ===================================================================== *)
(** ** The versions the parser records *)
(* ===================================================================== *)

Module RecordedProps.
Import Dec SemVer ReleaseUtils Release Spec Examples.
Import Dec SemVer ReleaseUtils Release Spec Examples.
Import StringFacts DecFacts SemVerFacts ParserProps HeadingProps PriorityProps.

Lemma dropWhile_length (p : char -> bool) (s : jstring) :
  List.length (dropWhile p s) <= List.length s.
Proof.
  induction s as [|c s IH]; simpl; [lia|]. destruct (p c); simpl; lia.
Qed.

Lemma trim_length (s : jstring) : List.length (trim s) <= List.length s.
Proof.
  unfold trim, trimEnd, trimStart. rewrite length_rev.
  pose proof (dropWhile_length isWhiteSpace (rev (dropWhile isWhiteSpace s))) as H1.
  pose proof (dropWhile_length isWhiteSpace s) as H2.
  rewrite length_rev in H1. lia.
Qed.

Lemma splitOn_nonempty (d : char) (s : jstring) : splitOn d s <> [].
Proof.
  induction s as [|c s IH]; simpl; [discriminate|].
  destruct (N.eqb c d); [discriminate|]. destruct (splitOn d s); discriminate.
Qed.

Lemma join_splitOn (d : char) (s : jstring) : join [d] (splitOn d s) = s.
Proof.
  induction s as [|c s IH]; [reflexivity|]. simpl.
  destruct (N.eqb c d) eqn:E.
  - apply N.eqb_eq in E. subst c.
    pose proof (splitOn_nonempty d s) as Hn.
    destruct (splitOn d s) as [|l ls]; [contradiction|].
    simpl. simpl in IH. rewrite IH. reflexivity.
  - pose proof (splitOn_nonempty d s) as Hn.
    destruct (splitOn d s) as [|l ls]; [contradiction|].
    destruct ls as [|l' ls]; simpl in *; rewrite <- IH; reflexivity.
Qed.

Lemma identString_toIdent (s : jstring) :
  validPreId s = true -> identString (toIdent s) = s.
Proof.
  unfold validPreId, toIdent. intros H.
  apply andb_true_iff in H as [H Hc]. apply andb_true_iff in H as [Ht _].
  destruct (isNumeric s && N.ltb (ofDec s) MAX_SAFE_INTEGER) eqn:E; [|reflexivity].
  apply andb_true_iff in E as [En _]. simpl.
  apply toDec_ofDec. apply numeric_allDigits in En. rewrite En in Hc. exact Hc.
Qed.

Lemma map_identString (ids : list jstring) :
  forallb validPreId ids = true -> map identString (map toIdent ids) = ids.
Proof.
  induction ids as [|i ids IH]; simpl; [reflexivity|].
  intros H. apply andb_true_iff in H as [Hi Hids].
  rewrite identString_toIdent, IH; auto.
Qed.

Lemma parseMain_inv (s s3 : jstring) (a b c : N) :
  parseMain s = Some (a, b, c, s3) ->
  s = toDec a ++ lit "." ++ toDec b ++ lit "." ++ toDec c ++ s3
  /\ headNot isDigit s3 = true
  /\ N.leb a MAX_SAFE_INTEGER && N.leb b MAX_SAFE_INTEGER
     && N.leb c MAX_SAFE_INTEGER = true.
Proof.
  unfold parseMain.
  destruct (expect (ch ".") (dropWhile isDigit s)) as [s1|] eqn:E1; [|discriminate].
  destruct (expect (ch ".") (dropWhile isDigit s1)) as [s2|] eqn:E2; [|discriminate].
  destruct (isCanonical (takeWhile isDigit s)) eqn:Ca; [|discriminate].
  destruct (isCanonical (takeWhile isDigit s1)) eqn:Cb; [|discriminate].
  destruct (isCanonical (takeWhile isDigit s2)) eqn:Cc; [|discriminate].
  cbn [andb].
  destruct (N.leb (ofDec (takeWhile isDigit s)) MAX_SAFE_INTEGER) eqn:La; [|discriminate].
  destruct (N.leb (ofDec (takeWhile isDigit s1)) MAX_SAFE_INTEGER) eqn:Lb; [|discriminate].
  destruct (N.leb (ofDec (takeWhile isDigit s2)) MAX_SAFE_INTEGER) eqn:Lc; [|discriminate].
  cbn [andb]. intros H. injection H as <- <- <- <-.
  rewrite !toDec_ofDec by assumption. rewrite La, Lb, Lc.
  apply expect_inv in E1, E2.
  split; [|split; [apply dropWhile_head|reflexivity]].
  rewrite (takeWhile_dropWhile isDigit s2).
  change (lit "." ++ s2) with (ch "." :: s2).
  rewrite <- E2, (takeWhile_dropWhile isDigit s1).
  change (lit "." ++ s1) with (ch "." :: s1).
  rewrite <- E1, (takeWhile_dropWhile isDigit s). reflexivity.
Qed.

Lemma takeWhile_id (p : char -> bool) (s : jstring) :
  forallb p s = true -> takeWhile p s = s /\ dropWhile p s = [].
Proof.
  intros H. split; [|apply dropWhile_all, H].
  rewrite <- (app_nil_r s) at 1. apply takeWhile_app_stop; auto.
Qed.

(** The shape of a string the library accepts, and of what it makes of it. *)
Lemma parse_inv (v : jstring) (x : SemVer.t) :
  parse v = Some x ->
  exists s3 rest,
    List.length (mainString x ++ s3 ++ rest) <= MAX_LENGTH
    /\ N.leb (major x) MAX_SAFE_INTEGER && N.leb (minor x) MAX_SAFE_INTEGER
       && N.leb (patch x) MAX_SAFE_INTEGER = true
    /\ ((s3 = [] /\ prerelease x = [])
        \/ exists p, s3 = ch "-" :: p /\ forallb isPreChar p = true
                     /\ forallb validPreId (splitOn (ch ".") p) = true
                     /\ prerelease x = map toIdent (splitOn (ch ".") p)).
Proof.
  unfold parse.
  destruct (Nat.ltb MAX_LENGTH (List.length v)) eqn:L; [discriminate|].
  apply Nat.ltb_ge in L.
  set (s := match trim v with
            | c :: s' => if N.eqb c (ch "v") then s' else trim v
            | [] => trim v
            end).
  assert (Ls : List.length s <= MAX_LENGTH).
  { pose proof (trim_length v) as T. unfold s.
    destruct (trim v) as [|c s']; [simpl in *; lia|].
    destruct (N.eqb c (ch "v")); simpl in *; lia. }
  destruct (parseMain s) as [[[[a b] c] s3]|] eqn:Pm; [|discriminate].
  destruct (parseMain_inv _ _ _ _ _ Pm) as (Es & _ & Hb).
  destruct s3 as [|x0 r].
  - simpl. intros H. injection H as <-. exists [], [].
    split; [|split; [exact Hb|left; auto]].
    rewrite Es in Ls. unfold mainString. cbn [major minor patch].
    rewrite ?length_app in *. simpl in *. lia.
  - destruct (N.eqb x0 (ch "-")) eqn:Ex.
    + apply N.eqb_eq in Ex. subst x0.
      destruct (match dropWhile isPreChar r with
                | x :: r0 => if N.eqb x (ch "+") then (Some r0, [])
                             else (None, dropWhile isPreChar r)
                | [] => (None, [])
                end) as [bld s5] eqn:Eb.
      destruct (truthy s5); [discriminate|].
      destruct (forallb validPreId (splitOn (ch ".") (takeWhile isPreChar r))) eqn:Hv;
        [|discriminate].
      destruct (forallb validBuildId _); [|discriminate].
      simpl. intros H. injection H as <-.
      exists (ch "-" :: takeWhile isPreChar r), (dropWhile isPreChar r).
      split; [|split; [exact Hb|]].
      * rewrite Es in Ls. unfold mainString. cbn [major minor patch].
        rewrite <- (takeWhile_dropWhile isPreChar r) in Ls.
        rewrite ?length_app in *. simpl in *. rewrite ?length_app in *. lia.
      * right. exists (takeWhile isPreChar r). repeat split; auto.
        apply takeWhile_all.
    + destruct (N.eqb x0 (ch "+")).
      * simpl. destruct (forallb validBuildId _); [|discriminate].
        intros H. injection H as <-. exists [], (x0 :: r).
        split; [|split; [exact Hb|left; auto]].
        rewrite Es in Ls. unfold mainString. cbn [major minor patch].
        rewrite ?length_app in *. simpl in *. lia.
      * simpl. discriminate.
Qed.

Lemma format_parts (x : SemVer.t) (p : jstring) :
  forallb validPreId (splitOn (ch ".") p) = true ->
  prerelease x = map toIdent (splitOn (ch ".") p) ->
  format x = mainString x ++ ch "-" :: p.
Proof.
  intros Hv Hp. unfold format, mainString.
  pose proof (splitOn_nonempty (ch ".") p) as Hn.
  pose proof (join_splitOn (ch ".") p) as Hj.
  pose proof (map_identString _ Hv) as Hm. rewrite <- Hp in Hm.
  destruct (splitOn (ch ".") p) as [|l ls] eqn:Es; [contradiction|].
  destruct (prerelease x) as [|i ids] eqn:Ex; [discriminate|].
  rewrite Hm. change (lit ".") with [ch "."]. rewrite Hj.
  rewrite <- !app_assoc. reflexivity.
Qed.

Lemma app_length_le (a b : jstring) (n : nat) :
  List.length (a ++ b) <= n -> List.length a <= n.
Proof. rewrite length_app. lia. Qed.

(** What the library returns for a version is a version, and its own
    canonical form. *)
Lemma valid_idempotent (v s : jstring) : valid v = Some s -> valid s = Some s.
Proof.
  intros H. destruct (valid_parse _ _ H) as (x & Hx & ->).
  destruct (parse_inv v x Hx) as (s3 & rest & Hlen & Hb & Hs3).
  assert (Hfmt : format x = mainString x ++ s3).
  { destruct Hs3 as [[-> Hp]|(p & -> & _ & Hv & Hp)].
    - unfold format, mainString. rewrite Hp, !app_nil_r, <- ?app_assoc.
      reflexivity.
    - apply format_parts; assumption. }
  rewrite app_assoc in Hlen. apply app_length_le in Hlen.
  unfold valid, parse. rewrite Hfmt.
  replace (Nat.ltb MAX_LENGTH (List.length (mainString x ++ s3))) with false
    by (symmetry; apply Nat.ltb_ge; exact Hlen).
  assert (Hsolid : endsSolid (mainString x ++ s3) = true).
  { destruct Hs3 as [[-> _]|(p & -> & Hpc & Hv & _)].
    - rewrite app_nil_r. apply mainString_endsSolid.
    - destruct (rev p) as [|c r] eqn:Er.
      + apply (f_equal (@rev _)) in Er. rewrite rev_involutive in Er. subst p.
        discriminate.
      + assert (Ep : p = rev r ++ [c]).
        { rewrite <- (rev_involutive p), Er. reflexivity. }
        rewrite Ep. change (ch "-" :: rev r ++ [c]) with ((ch "-" :: rev r) ++ [c]).
        rewrite !app_assoc. apply endsSolid_app.
        rewrite forallb_forall in Hpc.
        assert (Hc : isPreChar c = true).
        { apply Hpc. rewrite Ep. apply in_or_app. right. left. reflexivity. }
        unfold endsSolid. simpl. apply negb_true_iff.
        unfold isPreChar, isIdChar, isLetter, isUpper, isLower, isDigit in Hc.
        unfold isWhiteSpace, isLineTerminator.
        repeat (apply orb_false_iff; split); try (apply N.eqb_neq); try
          (apply andb_false_iff);
          repeat match goal with
                 | H : _ || _ = true |- _ => apply orb_true_iff in H as [H|H]
                 | H : _ && _ = true |- _ => apply andb_true_iff in H as [? ?]
                 | H : N.leb _ _ = true |- _ => apply N.leb_le in H
                 | H : N.eqb _ _ = true |- _ => apply N.eqb_eq in H
                 end; try (change (ch "-") with 45%N in *);
          try (change (ch ".") with 46%N in *); try lia;
          try (left; apply N.leb_gt; lia). }
  assert (Ht : trim (mainString x ++ s3) = mainString x ++ s3).
  { unfold trim, trimStart.
    destruct (mainString_head x s3) as (c & r & E & Hc).
    rewrite dropWhile_id by (rewrite E; simpl; rewrite (digit_not_space c Hc); reflexivity).
    apply trimEnd_solid, Hsolid. }
  rewrite Ht.
  destruct (mainString_head x s3) as (c & r & E & Hc).
  assert (Hv : N.eqb c (ch "v") = false).
  { apply N.eqb_neq. unfold isDigit in Hc. apply andb_true_iff in Hc as [_ Hc].
    apply N.leb_le in Hc. change (ch "v") with 118%N. lia. }
  rewrite E, Hv, <- E. unfold mainString at 1. rewrite <- !app_assoc.
  rewrite parseMain_numerals, Hb.
  - destruct Hs3 as [[-> Hp]|(p & -> & Hpc & Hval & Hp)].
    + simpl. unfold format, mainString. simpl. rewrite ?app_nil_r, <- ?app_assoc.
      reflexivity.
    + change (N.eqb (ch "-") (ch "-")) with true. cbv iota beta.
      destruct (takeWhile_id isPreChar p Hpc) as [-> ->].
      rewrite Hval. cbn [truthy forallb andb option_map map]. f_equal.
      exact (format_parts (mk (major x) (minor x) (patch x)
                              (map toIdent (splitOn (ch ".") p)) []) p Hval eq_refl).
  - destruct Hs3 as [[-> _]|(p & -> & _)]; reflexivity.
Qed.

Lemma classifyLine_recorded (line : jstring) :
  match fst (classifyLine line) with
  | None => True
  | Some v => v = unreleased \/ valid v = Some v
  end.
Proof.
  unfold classifyLine, classifyHeading.
  destruct (headingMatch line) as [m1|]; [|exact I].
  destruct (versionMatch (trim m1)) as [tok|].
  - destruct (valid (trim tok)) as [s|] eqn:E; [|exact I].
    rewrite (valid_truthy _ _ E). simpl. right. apply (valid_idempotent _ _ E).
  - destruct (includes unreleased (toLowerCase (trim m1))); simpl; auto.
Qed.

(** Every entry of the parser's result has a recorded version. *)
Lemma parser_entries_recorded (text : jstring) :
  Forall recorded (entries (parseChangelogText text)).
Proof.
  assert (H : Forall recorded (headingEntries text)).
  { apply Forall_forall. intros e He.
    assert (Hin : In (versionAndHeader e) (map versionAndHeader (headingEntries text)))
      by (apply in_map, He).
    rewrite headingEntries_summary in Hin.
    apply in_map_iff in Hin as (l & El & _). injection El as Ev _.
    unfold recorded. rewrite <- Ev. apply classifyLine_recorded. }
  destruct (entries_cases text) as [[_ E]|[_ (c & _ & E)]]; rewrite E; [exact H|].
  constructor; [|exact H]. left. reflexivity.
Qed.

Lemma setContent_recorded (c : jstring) (es : list ChangelogEntry) :
  Forall recorded es -> Forall recorded (setFirstUnreleasedContent c es).
Proof.
  induction 1 as [|e es He Hes IH]; simpl; [constructor|].
  destruct (isUnreleased e); constructor; auto.
Qed.

Lemma bind_inv {A B : Type} (m : M A) (k : A -> M B) (t : list event) (b : B) :
  bind m k = (t, Done b) ->
  exists t1 a t2, m = (t1, Done a) /\ k a = (t2, Done b) /\ t = t1 ++ t2.
Proof.
  unfold bind. destruct m as [t1 [a|c]]; [|discriminate].
  destruct (k a) as [t2 o] eqn:E. intros H. injection H as <- ->.
  exists t1, a, t2. auto.
Qed.

(** The placeholder step of the orchestrator keeps the versions recorded. *)
Lemma stageEnsure_recorded (strictMode : bool) (pc pc' : ParsedChangelog)
    (t : list event) :
  Forall recorded (entries pc) ->
  stageEnsure strictMode pc = (t, Done pc') ->
  Forall recorded (entries pc').
Proof.
  intros Hrec H. unfold stageEnsure in H.
  apply bind_inv in H as (t1 & p1 & t2 & H1 & H2 & _).
  assert (Hp1 : Forall recorded (entries p1)).
  { destruct (find isUnreleased (entries pc)).
    - injection H1 as _ <-. exact Hrec.
    - destruct strictMode; [discriminate|]. injection H1 as _ <-.
      simpl. constructor; [left; reflexivity|exact Hrec]. }
  destruct (find isUnreleased (entries p1)) as [u|].
  - destruct (Nat.eqb _ 0).
    + destruct strictMode; [discriminate|]. injection H2 as _ <-.
      simpl. apply setContent_recorded, Hp1.
    + injection H2 as _ <-. exact Hp1.
  - injection H2 as _ <-. exact Hp1.
Qed.

(** C3.  On the entries the orchestrator has after parsing the changelog and
    ensuring releasable content, the check of the resolved next version ends
    the run with the message about higher versions exactly when some entry
    whose version is neither null nor "unreleased" is strictly greater than
    the next version in the order of semantic versions; an entry whose
    version equals the next version is not counted as higher. *)
Theorem conflict_iff_higher (text : jstring) (strictMode : bool)
    (t : list event) (pc : ParsedChangelog) (next : jstring) :
  stageEnsure strictMode (parseChangelogText text) = (t, Done pc) ->
  (abortsWithConflict (stageCheckHigher pc next) <->
   exists e v, In e (entries pc) /\ version e = Some v /\ v <> unreleased
               /\ semverGt v next)
  /\ (forall e, In e (entries pc) -> version e = Some next ->
                isHigher next e = Ok false /\ ~ semverGt next next).
Proof.
  intros H. apply ConflictProps.conflict_iff_recorded.
  exact (stageEnsure_recorded strictMode _ pc t (parser_entries_recorded text) H).
Qed.

Lemma conflict_iff_higher_witness :
  (abortsWithConflict (stageCheckHigher conflictExample (lit "1.1.0")) <->
   exists e v, In e (entries conflictExample) /\ version e = Some v
               /\ v <> unreleased /\ semverGt v (lit "1.1.0"))
  /\ (forall e, In e (entries conflictExample) -> version e = Some (lit "1.1.0") ->
                isHigher (lit "1.1.0") e = Ok false
                /\ ~ semverGt (lit "1.1.0") (lit "1.1.0")).
Proof.
  apply (conflict_iff_higher
           (lit "## [Unreleased]" ++ [LF] ++ lit "- x" ++ [LF]
            ++ lit "## [1.2.0] - 2024-01-01" ++ [LF] ++ lit "- Old" ++ [LF])
           false [] conflictExample (lit "1.1.0")).
  reflexivity.
Defined.

End RecordedProps.

(* ===================================================================== *)
(** ** The orchestrator: strict mode and the pre-release branch policy *)
(* ===================================================================== *)

Module OrchestratorProps.
Import Dec SemVer ReleaseUtils Release Spec Examples.
Import Dec SemVer ReleaseUtils Release Spec StringFacts DecFacts SemVerFacts
  ParserProps.

Lemma stderrOf_app (a b : list event) : stderrOf (a ++ b) = stderrOf a ++ stderrOf b.
Proof.
  induction a as [|e a IH]; simpl; [reflexivity|].
  destruct e; simpl; rewrite IH; reflexivity.
Qed.

Lemma untouched_app (a b : list event) :
  untouched a -> untouched b -> untouched (a ++ b).
Proof. unfold untouched. intros Ha Hb. rewrite forallb_app, Ha, Hb. reflexivity. Qed.

Lemma warnLines_quiet (ws : list jstring) :
  stderrOf (map warnLine ws) = [] /\ untouched (map warnLine ws).
Proof.
  unfold untouched. induction ws as [|w ws [IH1 IH2]]; simpl; auto.
Qed.

Lemma logsBefore_quiet (args : Args) :
  stderrOf (logsBefore args) = [] /\ untouched (logsBefore args).
Proof.
  unfold logsBefore, untouched. destruct (noPush args), (quiet args); split; reflexivity.
Qed.

Lemma warn_loop (ws : list jstring) (t : list event) :
  fold_left (fun acc warning => acc ;;; log_warn warning) ws (t, Done tt)
  = (t ++ map warnLine ws, Done tt).
Proof.
  revert t. induction ws as [|w ws IH]; intros t; simpl.
  - rewrite app_nil_r. reflexivity.
  - rewrite IH, <- app_assoc. reflexivity.
Qed.

Lemma stageParse_strict_abort (w : World) (text : jstring) :
  changelogMd (files w) = Some text ->
  warnings (parseChangelogText text) <> [] ->
  stageParse w true
  = (map warnLine (warnings (parseChangelogText text))
     ++ [Stderr (errorLine strictMessage)], Exit 1%N).
Proof.
  intros Hfs Hw. unfold stageParse, parseChangelog, readFile. rewrite Hfs.
  cbn [try bind ret]. unfold ret at 1. rewrite warn_loop.
  destruct (warnings (parseChangelogText text)) as [|w0 ws]; [congruence|].
  reflexivity.
Qed.

Lemma stageParse_pass (w : World) (strictMode : bool) (text : jstring) :
  changelogMd (files w) = Some text ->
  (strictMode = true -> warnings (parseChangelogText text) = []) ->
  stageParse w strictMode
  = (map warnLine (warnings (parseChangelogText text)), Done (parseChangelogText text)).
Proof.
  intros Hfs Hs. unfold stageParse, parseChangelog, readFile. rewrite Hfs.
  cbn [try bind ret]. unfold ret at 1. rewrite warn_loop.
  destruct (warnings (parseChangelogText text)) as [|w0 ws] eqn:E; [reflexivity|].
  destruct strictMode; [specialize (Hs eq_refl); discriminate|].
  simpl. rewrite !app_nil_r. reflexivity.
Qed.

Lemma find_unreleased (text : jstring) :
  exists u, find isUnreleased (entries (parseChangelogText text)) = Some u.
Proof.
  assert (H : existsb isUnreleased (entries (parseChangelogText text)) = true).
  { destruct (entries_cases text) as [[Hex E]|[_ (c & _ & E)]]; rewrite E;
      [exact Hex|reflexivity]. }
  apply existsb_exists in H as (x & Hx & Hu).
  destruct (find isUnreleased (entries (parseChangelogText text))) as [u|] eqn:F;
    [eauto|].
  rewrite (find_none _ _ F x Hx) in Hu. discriminate.
Qed.

Lemma clean_changelog_has_content (text : jstring) (u : ChangelogEntry) :
  warnings (parseChangelogText text) = [] ->
  find isUnreleased (entries (parseChangelogText text)) = Some u ->
  Nat.eqb (List.length (trim (content u))) 0 = false.
Proof.
  unfold parseChangelogText. cbn [warnings entries].
  match goal with
  | |- context [find isUnreleased ?l] => destruct (find isUnreleased l) as [u'|]
  end; [|discriminate].
  intros W H. injection H as <-.
  destruct (Nat.eqb (List.length (trim (content u'))) 0); [|reflexivity].
  apply app_eq_nil in W as [_ W]. discriminate.
Qed.

Lemma stageEnsure_pass (strictMode : bool) (text : jstring) :
  (strictMode = true -> warnings (parseChangelogText text) = []) ->
  exists te pc,
    stageEnsure strictMode (parseChangelogText text) = (te, Done pc)
    /\ stderrOf te = [] /\ untouched te.
Proof.
  intros Hs. unfold stageEnsure.
  destruct (find_unreleased text) as [u Hu]. rewrite Hu.
  cbn [bind ret]. rewrite Hu.
  destruct (Nat.eqb (List.length (trim (content u))) 0) eqn:E.
  - destruct strictMode.
    + rewrite (clean_changelog_has_content text u (Hs eq_refl) Hu) in E. discriminate.
    + eexists. eexists. split; [reflexivity|]. split; reflexivity.
  - eexists. eexists. split; [reflexivity|]. split; reflexivity.
Qed.

Lemma branchPolicy_same (w : World) (b : jstring) :
  getDefaultBranch w = Some b -> getCurrentBranch w = Some b -> b <> [] ->
  branchPolicy w = exitError policyMessage.
Proof.
  intros Hd Hc Hb. unfold branchPolicy. rewrite Hd, Hc, eqb_refl.
  destruct b; [congruence|reflexivity].
Qed.

Lemma branchPolicy_skipped (w : World) :
  getDefaultBranch w = None \/ getCurrentBranch w = None -> branchPolicy w = ret tt.
Proof.
  unfold branchPolicy. intros [->| ->]; [reflexivity|].
  destruct (getDefaultBranch w); reflexivity.
Qed.

Ltac run_logs :=
  cbn [bind ret try emit when log_success log_step log_info log_warn log_blank negb].

Lemma release_parse_exit (w : World) (args : Args) (versionArg : jstring)
    (meta : ProjectInfo) (tp : list event) (c : N) :
  getProjectInfo (files w) = Ok meta ->
  checkVersionCoherency meta = Ok tt ->
  stageParse w (strict args) = (tp, Exit c) ->
  release w args versionArg = (logsBefore args ++ tp, Exit c).
Proof.
  intros Hinfo Hcoh Hparse. unfold release, logsBefore.
  destruct (noPush args), (quiet args);
    run_logs; rewrite Hinfo; run_logs; rewrite Hcoh; run_logs; rewrite Hparse;
    reflexivity.
Qed.

Lemma release_resolve_exit (w : World) (args : Args) (versionArg : jstring)
    (meta : ProjectInfo) (pc pc' : ParsedChangelog) (tp te tr : list event) (c : N) :
  getProjectInfo (files w) = Ok meta ->
  checkVersionCoherency meta = Ok tt ->
  stageParse w (strict args) = (tp, Done pc) ->
  stageEnsure (strict args) pc = (te, Done pc') ->
  stageResolve w (pi_version meta) versionArg (preid args) = (tr, Exit c) ->
  release w args versionArg = (logsBefore args ++ tp ++ te ++ tr, Exit c).
Proof.
  intros Hinfo Hcoh Hparse Hensure Hres. unfold release, logsBefore.
  destruct (noPush args), (quiet args);
    run_logs; rewrite Hinfo; run_logs; rewrite Hcoh; run_logs; rewrite Hparse;
    run_logs; rewrite Hensure; run_logs; rewrite Hres;
    rewrite <- ?app_assoc; reflexivity.
Qed.

Lemma main_release (w : World) (args : Args) (versionArg : jstring)
    (rest : list jstring) :
  help args = false -> versionFlag args = false ->
  positionals args = versionArg :: rest -> truthy versionArg = true ->
  main w args = release w args versionArg.
Proof.
  intros Hh Hv Hp Ht. unfold main. rewrite Hh, Hv, Hp, Ht. reflexivity.
Qed.

(** C8, as amended.  In strict mode, when the parser produced a warning, the
    run ends with exit code 1 before any file is written or command run; each
    warning, such as the one about the missing unreleased section, is printed
    on the output stream, and the one line on the error stream is the strict
    mode message. *)
Theorem strict_mode_aborts (w : World) (args : Args) (versionArg : jstring)
    (rest : list jstring) (meta : ProjectInfo) (text : jstring) :
  help args = false -> versionFlag args = false ->
  positionals args = versionArg :: rest -> truthy versionArg = true ->
  strict args = true ->
  getProjectInfo (files w) = Ok meta ->
  checkVersionCoherency meta = Ok tt ->
  changelogMd (files w) = Some text ->
  warnings (parseChangelogText text) <> [] ->
  exists t,
    main w args = (t, Exit 1%N)
    /\ untouched t
    /\ stderrOf t = [errorLine strictMessage]
    /\ forall wm, In wm (warnings (parseChangelogText text)) ->
                  In (warnLine wm) t.
Proof.
  intros Hh Hv Hp Ht Hs Hinfo Hcoh Hfs Hw.
  pose proof (stageParse_strict_abort w text Hfs Hw) as Hparse.
  rewrite <- Hs in Hparse at 1.
  exists (logsBefore args
          ++ map warnLine (warnings (parseChangelogText text))
          ++ [Stderr (errorLine strictMessage)]).
  destruct (logsBefore_quiet args) as [L1 L2].
  destruct (warnLines_quiet (warnings (parseChangelogText text))) as [W1 W2].
  split; [|split; [|split]].
  - rewrite (main_release w args versionArg rest Hh Hv Hp Ht).
    exact (release_parse_exit w args versionArg meta _ _ Hinfo Hcoh Hparse).
  - apply untouched_app; [exact L2|]. apply untouched_app; [exact W2|reflexivity].
  - rewrite !stderrOf_app, L1, W1. reflexivity.
  - intros wm Hin. rewrite !in_app_iff. right. left. apply in_map, Hin.
Qed.

Lemma strict_mode_aborts_witness :
  exists t,
    main (testWorld noUnreleasedText None None) (testArgs (lit "patch") true)
    = (t, Exit 1%N)
    /\ untouched t
    /\ stderrOf t = [errorLine strictMessage]
    /\ forall wm, In wm (warnings (parseChangelogText noUnreleasedText)) ->
                  In (warnLine wm) t.
Proof.
  apply (strict_mode_aborts (testWorld noUnreleasedText None None)
           (testArgs (lit "patch") true) (lit "patch") []
           {| id := lit "test"; pi_version := lit "1.0.0";
              minAppVersion := lit "1.0.0"; pkgVersion := lit "1.0.0";
              versions := [(lit "1.0.0", lit "1.0.0")] |}
           noUnreleasedText); try reflexivity.
  vm_compute. discriminate.
Defined.

(** C8, as stated, fails: in the strict-mode scenario of the test-suite, a
    changelog without unreleased section, the parser warns about the missing
    section, the run ends with exit code 1, and the error stream carries the
    strict-mode message only; the section is named on the output stream. *)
Lemma error_stream_counterexample :
  let run := main (testWorld noUnreleasedText None None) (testArgs (lit "patch") true) in
  In missingWarning (warnings (parseChangelogText noUnreleasedText))
  /\ snd run = Exit 1%N
  /\ stderrOf (fst run) = [errorLine strictMessage]
  /\ existsb (includes (lit "Unreleased")) (stderrOf (fst run)) = false
  /\ existsb (includes (lit "Missing [Unreleased] section")) (stdoutOf (fst run)) = true.
Proof.
  cbv zeta. split; [vm_compute; left; reflexivity|].
  repeat split; vm_compute; reflexivity.
Qed.

Lemma keyword_truthy (versionArg : jstring) (r : ReleaseType) :
  releaseTypeOf versionArg = Some r -> truthy versionArg = true.
Proof. destruct versionArg; [discriminate|reflexivity]. Qed.

(** C9.  On a run that gets as far as resolving the version, with a bump
    keyword that denotes a pre-release or a current version that has a
    pre-release component: when the default branch and the current branch are
    both known and equal, the run ends with exit code 1 and the branch-policy
    message on the error stream, without writing a file or running a command;
    when either branch is unknown, the policy check does nothing and the
    version is resolved as without it. *)
Theorem prerelease_branch_policy (w : World) (args : Args) (versionArg : jstring)
    (rest : list jstring) (r : ReleaseType) (meta : ProjectInfo) (text : jstring) :
  help args = false -> versionFlag args = false ->
  positionals args = versionArg :: rest ->
  getProjectInfo (files w) = Ok meta ->
  checkVersionCoherency meta = Ok tt ->
  changelogMd (files w) = Some text ->
  (strict args = true -> warnings (parseChangelogText text) = []) ->
  releaseTypeOf versionArg = Some r ->
  isPreRelease r (pi_version meta) = true ->
  (forall b, getDefaultBranch w = Some b -> getCurrentBranch w = Some b -> b <> [] ->
     exists t, main w args = (t, Exit 1%N)
               /\ untouched t
               /\ stderrOf t = [errorLine policyMessage])
  /\ (getDefaultBranch w = None \/ getCurrentBranch w = None ->
      branchPolicy w = ret tt
      /\ stageResolve w (pi_version meta) versionArg (preid args)
         = finishNext versionArg (inc (pi_version meta) r (preid args))).
Proof.
  intros Hh Hv Hp Hinfo Hcoh Hfs Hs Hr Hpre. split.
  - intros b Hd Hc Hb.
    pose proof (stageParse_pass w (strict args) text Hfs Hs) as Hparse.
    destruct (stageEnsure_pass (strict args) text Hs) as (te & pc & Hens & E1 & E2).
    assert (Hres : stageResolve w (pi_version meta) versionArg (preid args)
                   = ([Stderr (errorLine policyMessage)], Exit 1%N)).
    { unfold stageResolve. rewrite Hr, Hpre. unfold when.
      rewrite (branchPolicy_same w b Hd Hc Hb). reflexivity. }
    eexists. split; [|split].
    + rewrite (main_release w args versionArg rest Hh Hv Hp (keyword_truthy _ _ Hr)).
      exact (release_resolve_exit w args versionArg meta _ _ _ _ _ _
               Hinfo Hcoh Hparse Hens Hres).
    + destruct (logsBefore_quiet args) as [_ L2].
      destruct (warnLines_quiet (warnings (parseChangelogText text))) as [_ W2].
      apply untouched_app; [exact L2|]. apply untouched_app; [exact W2|].
      apply untouched_app; [exact E2|reflexivity].
    + destruct (logsBefore_quiet args) as [L1 _].
      destruct (warnLines_quiet (warnings (parseChangelogText text))) as [W1 _].
      rewrite !stderrOf_app, L1, W1, E1. reflexivity.
  - intros Hnone. pose proof (branchPolicy_skipped w Hnone) as Hb. split; [exact Hb|].
    unfold stageResolve. rewrite Hr, Hpre. unfold when. rewrite Hb.
    cbn [bind ret]. destruct (finishNext _ _). reflexivity.
Qed.

Lemma prerelease_branch_policy_witness :
  (forall b,
      getDefaultBranch (testWorld pendingText (Some (lit "main")) (Some (lit "main")))
      = Some b ->
      getCurrentBranch (testWorld pendingText (Some (lit "main")) (Some (lit "main")))
      = Some b ->
      b <> [] ->
      exists t,
        main (testWorld pendingText (Some (lit "main")) (Some (lit "main")))
             (testArgs (lit "prerelease") false)
        = (t, Exit 1%N)
        /\ untouched t
        /\ stderrOf t = [errorLine policyMessage])
  /\ (getDefaultBranch (testWorld pendingText (Some (lit "main")) (Some (lit "main")))
      = None
      \/ getCurrentBranch (testWorld pendingText (Some (lit "main")) (Some (lit "main")))
         = None ->
      branchPolicy (testWorld pendingText (Some (lit "main")) (Some (lit "main")))
      = ret tt
      /\ stageResolve (testWorld pendingText (Some (lit "main")) (Some (lit "main")))
           (lit "1.0.0") (lit "prerelease") None
         = finishNext (lit "prerelease") (inc (lit "1.0.0") Prerelease None)).
Proof.
  apply (prerelease_branch_policy
           (testWorld pendingText (Some (lit "main")) (Some (lit "main")))
           (testArgs (lit "prerelease") false) (lit "prerelease") [] Prerelease
           {| id := lit "test"; pi_version := lit "1.0.0";
              minAppVersion := lit "1.0.0"; pkgVersion := lit "1.0.0";
              versions := [(lit "1.0.0", lit "1.0.0")] |}
           pendingText); reflexivity.
Defined.

End OrchestratorProps.

(* ===================================================================== *)
(** ** Traces of the release script *)
(* ===================================================================== *)

Module TraceFacts.
Import Dec SemVer ReleaseUtils Release Spec Examples Effects.
Import StringFacts OrchestratorProps.

Lemma bind_cases {A B : Type} (m : M A) (k : A -> M B) (t : list event) (o : outcome B) :
  bind m k = (t, o) ->
  (exists c, m = (t, Exit c) /\ o = Exit c)
  \/ (exists t1 a t2, m = (t1, Done a) /\ k a = (t2, o) /\ t = t1 ++ t2).
Proof.
  destruct m as [t1 [a|c]]; simpl.
  - destruct (k a) as [t2 o2] eqn:E. intros H. inversion H; subst.
    right. exists t1, a, t2. auto.
  - intros H. inversion H; subst. left. exists c. auto.
Qed.

Lemma fst_bind {A B : Type} (m : M A) (k : A -> M B) :
  fst (bind m k)
  = fst m ++ match snd m with Done a => fst (k a) | Exit _ => [] end.
Proof.
  destruct m as [t [a|c]]; simpl.
  - destruct (k a); reflexivity.
  - rewrite app_nil_r. reflexivity.
Qed.

Lemma traceAll_bind {A B : Type} (p : event -> bool) (m : M A) (k : A -> M B) :
  traceAll p m -> (forall a, traceAll p (k a)) -> traceAll p (bind m k).
Proof.
  unfold traceAll. intros Hm Hk. rewrite fst_bind, forallb_app, Hm.
  destruct (snd m); [apply Hk | reflexivity].
Qed.

Lemma traceAll_ret {A : Type} (p : event -> bool) (a : A) : traceAll p (ret a).
Proof. reflexivity. Qed.

Lemma traceAll_exit {A : Type} (p : event -> bool) (c : N) : traceAll p (@exit A c).
Proof. reflexivity. Qed.

Lemma traceAll_emit (p : event -> bool) (e : event) : p e = true -> traceAll p (emit e).
Proof. unfold traceAll. simpl. intros ->. reflexivity. Qed.

Lemma traceAll_when (p : event -> bool) (b : bool) (m : M unit) :
  traceAll p m -> traceAll p (when b m).
Proof. destruct b; [auto | reflexivity]. Qed.

Lemma traceAll_exitError {A : Type} (msg : jstring) :
  traceAll quietEvent (@exitError A msg).
Proof. reflexivity. Qed.

Lemma traceAll_try {A : Type} (r : result A) : traceAll quietEvent (try r).
Proof. destruct r; reflexivity. Qed.

Lemma traceAll_warnings (ws : list jstring) :
  traceAll quietEvent
    (fold_left (fun acc warning => acc ;;; log_warn warning) ws (ret tt)).
Proof.
  unfold ret. rewrite warn_loop. unfold traceAll. simpl.
  induction ws as [|x ws IH]; simpl; [reflexivity|exact IH].
Qed.

Ltac quiet_step :=
  match goal with
  | |- traceAll _ (bind _ _) => apply traceAll_bind; [|intros]
  | |- traceAll _ (when _ _) => apply traceAll_when
  | |- traceAll _ (ret _) => apply traceAll_ret
  | |- traceAll _ (exit _) => apply traceAll_exit
  | |- traceAll _ (exitError _) => apply traceAll_exitError
  | |- traceAll _ (try _) => apply traceAll_try
  | |- traceAll _ (fold_left _ _ (ret tt)) => apply traceAll_warnings
  | |- traceAll _ (emit _) => apply traceAll_emit; reflexivity
  | |- traceAll _ (log_success _ _) => unfold log_success
  | |- traceAll _ (log_warn _) => unfold log_warn
  | |- traceAll _ (log_error _) => unfold log_error
  | |- traceAll _ (log_step _ _) => unfold log_step
  | |- traceAll _ (log_info _ _) => unfold log_info
  | |- traceAll _ (log_blank _) => unfold log_blank
  | |- traceAll _ (showHelp _) => unfold showHelp
  | |- traceAll _ (match ?x with _ => _ end) => destruct x
  end.

Ltac quiet := repeat quiet_step.

Lemma stageParse_quiet (w : World) (strictMode : bool) :
  traceAll quietEvent (stageParse w strictMode).
Proof. unfold stageParse. quiet. Qed.

Lemma stageEnsure_quiet (strictMode : bool) (pc : ParsedChangelog) :
  traceAll quietEvent (stageEnsure strictMode pc).
Proof. unfold stageEnsure. quiet. Qed.

Lemma stageResolve_quiet (w : World) (current versionArg : jstring)
    (preid : option jstring) :
  traceAll quietEvent (stageResolve w current versionArg preid).
Proof. unfold stageResolve, finishNext, branchPolicy. quiet. Qed.

Lemma stageCheckHigher_quiet (pc : ParsedChangelog) (next : jstring) :
  traceAll quietEvent (stageCheckHigher pc next).
Proof. unfold stageCheckHigher. quiet. Qed.

Lemma stageConfirm_quiet (w : World) (isQuiet autoConfirm : bool) :
  traceAll quietEvent (stageConfirm w isQuiet autoConfirm).
Proof. unfold stageConfirm. quiet. Qed.

(** *** What a stage that goes on has established *)

Lemma stageParse_done (w : World) (strictMode : bool) (t : list event)
    (pc : ParsedChangelog) :
  stageParse w strictMode = (t, Done pc) ->
  exists text, changelogMd (files w) = Some text
    /\ pc = parseChangelogText text
    /\ (strictMode = true -> warnings pc = []).
Proof.
  unfold stageParse, parseChangelog, readFile.
  destruct (changelogMd (files w)) as [text|]; [|discriminate].
  cbn [try bind ret]. unfold ret at 1. rewrite warn_loop.
  destruct (warnings (parseChangelogText text)) as [|w0 ws] eqn:E.
  - simpl. intros H. injection H as _ <-. exists text. rewrite E. auto.
  - destruct strictMode; simpl; [discriminate|].
    intros H. injection H as _ <-. exists text. repeat split. discriminate.
Qed.

Lemma find_setFirst (c : jstring) (es : list ChangelogEntry) (u : ChangelogEntry) :
  find isUnreleased es = Some u ->
  find isUnreleased (setFirstUnreleasedContent c es)
  = Some {| version := version u; header := header u; content := c |}.
Proof.
  induction es as [|e es IH]; simpl; [discriminate|].
  destruct (isUnreleased e) eqn:E.
  - intros H. injection H as <-. simpl.
    unfold isUnreleased in *. simpl. rewrite E. reflexivity.
  - intros H. simpl. rewrite E. auto.
Qed.

Lemma kept_setFirst (c : jstring) (es : list ChangelogEntry) :
  filter (fun e => negb (isUnreleased e)) (setFirstUnreleasedContent c es)
  = filter (fun e => negb (isUnreleased e)) es.
Proof.
  induction es as [|e es IH]; simpl; [reflexivity|].
  destruct (isUnreleased e) eqn:E; simpl.
  - unfold isUnreleased in *. simpl. rewrite E. reflexivity.
  - rewrite E. simpl. rewrite IH. reflexivity.
Qed.

Lemma stageEnsure_done (strictMode : bool) (pc0 pc : ParsedChangelog) (t : list event) :
  stageEnsure strictMode pc0 = (t, Done pc) ->
  exists u,
    find isUnreleased (entries pc) = Some u
    /\ isBlank (content u) = false
    /\ (content u = placeholder
        \/ exists u0, find isUnreleased (entries pc0) = Some u0
                      /\ content u = content u0)
    /\ title pc = title pc0 /\ description pc = description pc0
    /\ keptEntries pc = keptEntries pc0
    /\ (strictMode = true -> pc = pc0).
Proof.
  unfold stageEnsure, keptEntries, isBlank.
  destruct (find isUnreleased (entries pc0)) as [u0|] eqn:F.
  - cbn [bind ret]. rewrite F.
    destruct (Nat.eqb (List.length (trim (content u0))) 0) eqn:E.
    + destruct strictMode; [discriminate|]. simpl.
      intros H. injection H as _ <-. cbn [entries withEntries title description].
      eexists. split; [apply find_setFirst; exact F|].
      cbn [content]. repeat split; auto using kept_setFirst. discriminate.
    + simpl. intros H. injection H as _ <-.
      exists u0. repeat split; eauto.
  - destruct strictMode; [discriminate|]. simpl.
    intros H. injection H as _ <-. simpl.
    eexists. split; [reflexivity|]. simpl. repeat split; auto. discriminate.
Qed.




Lemma stageCheckHigher_done (pc : ParsedChangelog) (next : jstring) (t : list event) :
  stageCheckHigher pc next = (t, Done tt) ->
  filterHigher next (entries pc) = Ok [] /\ t = [].
Proof.
  unfold stageCheckHigher.
  destruct (filterHigher next (entries pc)) as [[|h hs]|m]; simpl.
  - intros H. injection H as <-. auto.
  - discriminate.
  - discriminate.
Qed.

Lemma stageConfirm_done (w : World) (isQuiet autoConfirm : bool) (t : list event) :
  stageConfirm w isQuiet autoConfirm = (t, Done tt) ->
  autoConfirm = true \/ (stdinIsTTY w = true /\ promptValue w = true).
Proof.
  unfold stageConfirm. destruct autoConfirm; [auto|].
  destruct (stdinIsTTY w); simpl; [|discriminate].
  destruct (promptValue w); simpl; [auto|].
  destruct isQuiet; discriminate.
Qed.

(** *** The project information *)

Lemma getProjectInfo_ok (fs : Files) (info : ProjectInfo) :
  getProjectInfo fs = Ok info <->
  manifestJson fs = Some {| m_id := Some (id info);
                            m_version := Some (pi_version info);
                            m_minAppVersion := Some (minAppVersion info) |}
  /\ packageJsonVersion fs = Some (Some (pkgVersion info))
  /\ versionsJson fs = Some (versions info)
  /\ truthy (id info) = true /\ truthy (pi_version info) = true
  /\ truthy (minAppVersion info) = true /\ truthy (pkgVersion info) = true.
Proof.
  unfold getProjectInfo, unreadable, readFile, field. split.
  - destruct (manifestJson fs) as [[i v ma]|], (packageJsonVersion fs) as [pv|],
      (versionsJson fs) as [vs|];
      repeat match goal with
             | |- context [missing fs ?p] => destruct (missing fs p)
             end;
      try discriminate.
    simpl.
    destruct v as [v|]; [|discriminate]. destruct (truthy v) eqn:Ev; [|discriminate].
    destruct i as [i|]; [|discriminate]. destruct (truthy i) eqn:Ei; [|discriminate].
    destruct ma as [ma|]; [|discriminate]. destruct (truthy ma) eqn:Em; [|discriminate].
    destruct pv as [pv|]; [|discriminate]. destruct (truthy pv) eqn:Ep; [|discriminate].
    intros H. injection H as <-. simpl. auto 10.
  - intros (-> & -> & -> & Hi & Hv & Hm & Hp). simpl.
    rewrite Hi, Hv, Hm, Hp. destruct info; reflexivity.
Qed.

(** *** The mutation and the publish stage *)

Lemma updateChangelog_ok (pc : ParsedChangelog) (next today : jstring)
    (u : ChangelogEntry) :
  find isUnreleased (entries pc) = Some u -> isBlank (content u) = false ->
  exists out, updateChangelog pc next today = Ok (out, content u).
Proof.
  intros F B. unfold updateChangelog. rewrite F.
  destruct (content u) as [|c0 cs] eqn:E; [discriminate B|].
  simpl. eexists. reflexivity.
Qed.

Lemma stageMutate_done (w : World) (isQuiet : bool) (meta : ProjectInfo)
    (pc : ParsedChangelog) (next out notes : jstring) :
  getProjectInfo (files w) = Ok meta ->
  updateChangelog pc next (today w) = Ok (out, notes) ->
  exists tm,
    stageMutate w isQuiet meta pc next = (tm, Done notes)
    /\ filter isWrite tm = mutationWrites meta next out
    /\ commandsOf tm = [] /\ stderrOf tm = [].
Proof.
  intros Hi Hu. apply getProjectInfo_ok in Hi as (Hm & Hp & Hv & _).
  unfold stageMutate, readFile, mutationWrites. rewrite Hm, Hp, Hv, Hu.
  destruct isQuiet; run_logs;
    destruct (truthyAt next (versions meta));
    run_logs; eexists; repeat split.
Qed.

Lemma publish_plan (w : World) (isQuiet noPush : bool) (tag notes : jstring) :
  (commandsOf (fst (stagePublish w isQuiet noPush tag notes)),
   snd (stagePublish w isQuiet noPush tag notes))
  = publishResult (runSucceeds w) noPush tag notes
  /\ filter isWrite (fst (stagePublish w isQuiet noPush tag notes)) = [].
Proof.
  unfold stagePublish, publishResult. cbv zeta.
  fold (commitCommand tag notes). fold (tagCommand tag notes). fold checkCommand.
  generalize (commitCommand tag notes) as c2. generalize (tagCommand tag notes) as c3.
  generalize checkCommand as c1. generalize (lit "git push") as c4.
  generalize (lit "git push --tags") as c5.
  intros c5 c4 c1 c3 c2. unfold run.
  destruct (runSucceeds w c1), (runSucceeds w c2), (runSucceeds w c3),
    (runSucceeds w c4), (runSucceeds w c5), isQuiet, noPush; split; reflexivity.
Qed.

Lemma quiet_of {A : Type} (m : M A) (t : list event) (o : outcome A) :
  traceAll quietEvent m -> m = (t, o) -> forallb quietEvent t = true.
Proof. intros H ->. exact H. Qed.

Ltac stage_quiet :=
  first [ apply stageParse_quiet | apply stageEnsure_quiet | apply stageResolve_quiet
        | apply stageCheckHigher_quiet | apply stageConfirm_quiet | quiet ].

(** One step of a run: the first computation of a sequence either ends the
    process, and then the goal is closed by [fin], or goes on. *)
Ltac peel H t1 a Hm Q fin :=
  match type of H with
  | bind ?m _ = _ =>
      let c := fresh "c" in
      let t2 := fresh "t" in
      let Ho := fresh "Ho" in
      let Ht := fresh "Ht" in
      assert (Q : traceAll quietEvent m) by stage_quiet;
      apply bind_cases in H;
      destruct H as [(c & Hm & Ho) | (t1 & a & t2 & Hm & H & Ht)];
      [ apply (quiet_of _ _ _ Q) in Hm; subst; fin
      | apply (quiet_of _ _ _ Q) in Hm as Q'; clear Q; rename Q' into Q;
        cbv beta in H; subst ]
  end.

Lemma release_inv (w : World) (args : Args) (versionArg : jstring)
    (t : list event) (o : outcome unit) :
  release w args versionArg = (t, o) ->
  (forallb quietEvent t = true /\ o <> Done tt)
  \/ exists meta text pc next out notes t0 tm tp,
       getProjectInfo (files w) = Ok meta
       /\ checkVersionCoherency meta = Ok tt
       /\ changelogMd (files w) = Some text
       /\ (strict args = true -> warnings (parseChangelogText text) = [])
       /\ (exists te, stageEnsure (strict args) (parseChangelogText text) = (te, Done pc))
       /\ (exists tr, stageResolve w (pi_version meta) versionArg (preid args)
                      = (tr, Done next))
       /\ filterHigher next (entries pc) = Ok []
       /\ confirmed w args
       /\ updateChangelog pc next (today w) = Ok (out, notes)
       /\ forallb quietEvent t0 = true
       /\ stageMutate w (quiet args) meta pc next = (tm, Done notes)
       /\ stagePublish w (quiet args) (noPush args) next notes = (tp, o)
       /\ t = t0 ++ tm ++ tp.
Proof.
  intros H. unfold release in H.
  assert (quiet_app : forall a b, forallb quietEvent a = true ->
            forallb quietEvent b = true -> forallb quietEvent (a ++ b) = true).
  { intros a b Ha Hb. rewrite forallb_app, Ha, Hb. reflexivity. }
  peel H l0 u0 H0 Q0 ltac:(left; split; [auto 20|discriminate]).
  peel H l1 u1 H1 Q1 ltac:(left; split; [auto 20|discriminate]).
  peel H l2 meta H2 Q2 ltac:(left; split; [auto 20|discriminate]).
  peel H l3 u3 H3 Q3 ltac:(left; split; [auto 20|discriminate]).
  peel H l4 u4 H4 Q4 ltac:(left; split; [auto 20|discriminate]).
  peel H l5 pc0 H5 Q5 ltac:(left; split; [auto 20|discriminate]).
  peel H l6 pc H6 Q6 ltac:(left; split; [auto 20|discriminate]).
  peel H l7 next H7 Q7 ltac:(left; split; [auto 20|discriminate]).
  peel H l8 u8 H8 Q8 ltac:(left; split; [auto 20|discriminate]).
  peel H l9 u9 H9 Q9 ltac:(left; split; [auto 20|discriminate]).
  peel H l10 u10 H10 Q10 ltac:(left; split; [auto 20|discriminate]).
  peel H l11 u11 H11 Q11 ltac:(left; split; [auto 20|discriminate]).
  peel H l12 u12 H12 Q12 ltac:(left; split; [auto 20|discriminate]).
  peel H l13 u13 H13 Q13 ltac:(left; split; [auto 20|discriminate]).
  destruct u3, u8, u12.
  assert (Hinfo : getProjectInfo (files w) = Ok meta).
  { destruct (getProjectInfo (files w)); [injection H2 as _ ->; reflexivity|discriminate]. }
  assert (Hcoh : checkVersionCoherency meta = Ok tt).
  { destruct (checkVersionCoherency meta) as [[]|]; [reflexivity|discriminate]. }
  destruct (stageParse_done _ _ _ _ H5) as (text & Hfs & -> & Hstrict).
  destruct (stageEnsure_done _ _ _ _ H6) as (u & Hfind & Hblank & _).
  destruct (stageCheckHigher_done _ _ _ H8) as [Hhigh _].
  pose proof (stageConfirm_done _ _ _ _ H12) as Hconf.
  destruct (updateChangelog_ok pc next (today w) u Hfind Hblank) as [out Hup].
  destruct (stageMutate_done w (quiet args) meta pc next out _ Hinfo Hup)
    as (tm & Hmut & _).
  rewrite Hmut in H. cbn [bind] in H.
  destruct (stagePublish w (quiet args) (noPush args) next (content u))
    as [tp o'] eqn:Hpub.
  injection H as <- <-.
  right. exists meta, text, pc, next, out, (content u).
  exists (l0 ++ l1 ++ l2 ++ l3 ++ l4 ++ l5 ++ l6 ++ l7 ++ l8 ++ l9 ++ l10 ++ l11
          ++ l12 ++ l13), tm, tp.
  repeat split; eauto 20.
  rewrite <- !app_assoc. reflexivity.
Qed.

Lemma main_cases (w : World) (args : Args) :
  (forallb quietEvent (fst (main w args)) = true)
  \/ (help args = false /\ versionFlag args = false
      /\ exists versionArg, main w args = release w args versionArg).
Proof.
  unfold main. destruct (help args); [left; reflexivity|].
  destruct (versionFlag args); [left; reflexivity|].
  destruct (positionals args) as [|versionArg rest]; [left; reflexivity|].
  destruct (truthy versionArg); [|left; reflexivity].
  right. eauto.
Qed.

Lemma quiet_no_write (t : list event) :
  forallb quietEvent t = true ->
  filter isWrite t = [] /\ commandsOf t = [] /\ existsb isWrite t = false.
Proof.
  induction t as [|e t IH]; simpl; [auto|].
  intros H. apply andb_true_iff in H as [He Ht].
  destruct (IH Ht) as (I1 & I2 & I3).
  destruct e; simpl in *; try discriminate; auto.
Qed.

Lemma commandsOf_app (a b : list event) :
  commandsOf (a ++ b) = commandsOf a ++ commandsOf b.
Proof.
  induction a as [|e a IH]; simpl; [reflexivity|].
  destruct e; simpl; rewrite ?IH; reflexivity.
Qed.


Lemma existsb_filter_nil {A : Type} (f : A -> bool) (l : list A) :
  existsb f l = true -> filter f l <> [].
Proof.
  induction l as [|x l IH]; simpl; [discriminate|].
  destruct (f x); [discriminate|exact IH].
Qed.

(** The commands of a run and how it ends, and its writes. *)
Lemma main_effects (w : World) (args : Args) :
  (filter isWrite (fst (main w args)) = [] /\ commandsOf (fst (main w args)) = [])
  \/ exists versionArg meta text pc next out notes,
       help args = false /\ versionFlag args = false
       /\ getProjectInfo (files w) = Ok meta
       /\ checkVersionCoherency meta = Ok tt
       /\ changelogMd (files w) = Some text
       /\ (strict args = true -> warnings (parseChangelogText text) = [])
       /\ (exists te, stageEnsure (strict args) (parseChangelogText text) = (te, Done pc))
       /\ (exists tr, stageResolve w (pi_version meta) versionArg (preid args)
                      = (tr, Done next))
       /\ filterHigher next (entries pc) = Ok []
       /\ confirmed w args
       /\ updateChangelog pc next (today w) = Ok (out, notes)
       /\ filter isWrite (fst (main w args)) = mutationWrites meta next out
       /\ (commandsOf (fst (main w args)), snd (main w args))
          = publishResult (runSucceeds w) (noPush args) next notes.
Proof.
  destruct (main_cases w args) as [Q|(Hh & Hv & versionArg & E)].
  { left. destruct (quiet_no_write _ Q) as (F & C & _). auto. }
  rewrite E. destruct (release w args versionArg) as [t o] eqn:R.
  destruct (release_inv _ _ _ _ _ R)
    as [[Q _]|(meta & text & pc & next & out & notes & t0 & tm & tp & Hi & Hc & Hfs
               & Hs & He & Hr & Hhi & Hconf & Hup & Q0 & Hmut & Hpub & ->)].
  { left. destruct (quiet_no_write _ Q) as (F & C & _). auto. }
  right. exists versionArg, meta, text, pc, next, out, notes.
  destruct (stageMutate_done w (quiet args) meta pc next out notes Hi Hup)
    as (tm' & Hmut' & Wm & Cm & _).
  rewrite Hmut in Hmut'. injection Hmut' as <-.
  destruct (publish_plan w (quiet args) (noPush args) next notes) as [Pc Pw].
  rewrite Hpub in Pc, Pw. simpl fst in *. simpl snd in *.
  destruct (quiet_no_write _ Q0) as (F0 & C0 & _).
  repeat split; auto.
  - rewrite !filter_app, F0, Wm, Pw, app_nil_r. reflexivity.
  - rewrite !commandsOf_app, C0, Cm. exact Pc.
Qed.

(** *** Reports on the error stream *)

Lemma reported_bind {A B : Type} (m : M A) (k : A -> M B) :
  reported m -> (forall a, reported (k a)) -> reported (bind m k).
Proof.
  destruct m as [t [a|c]]; simpl; intros Hm Hk; [|exact Hm].
  specialize (Hk a). destruct (k a) as [t' [b|c]]; simpl in *;
    rewrite stderrOf_app, Hm; exact Hk.
Qed.

Lemma reported_ret {A : Type} (a : A) : reported (ret a).
Proof. reflexivity. Qed.

Lemma reported_exitError {A : Type} (msg : jstring) : reported (@exitError A msg).
Proof. simpl. left. split; [reflexivity|discriminate]. Qed.

Lemma reported_exit0 {A : Type} : reported (@exit A 0%N).
Proof. simpl. right. auto. Qed.

Lemma reported_when (b : bool) (m : M unit) : reported m -> reported (when b m).
Proof. destruct b; [auto|reflexivity]. Qed.

Lemma reported_try {A : Type} (r : result A) : reported (try r).
Proof. destruct r; [reflexivity|apply reported_exitError]. Qed.

Lemma reported_warnings (ws : list jstring) :
  reported (fold_left (fun acc warning => acc ;;; log_warn warning) ws (ret tt)).
Proof.
  unfold ret. rewrite warn_loop. simpl. apply warnLines_quiet.
Qed.

Lemma reported_checked_run {B : Type} (w : World) (cmd msg : jstring) (rest : M B) :
  reported rest ->
  reported (bind (run w cmd)
                 (fun ok => bind (when (negb ok) (exitError msg)) (fun _ => rest))).
Proof.
  intros H. unfold run. destruct (runSucceeds w cmd); simpl.
  - destruct rest as [t [b|c]]; simpl in *; exact H.
  - left. split; [reflexivity|discriminate].
Qed.

Ltac report_step :=
  match goal with
  | |- reported (bind (run _ _) _) => apply reported_checked_run
  | |- reported (bind _ _) => apply reported_bind; [|intros]
  | |- reported (when _ _) => apply reported_when
  | |- reported (ret _) => apply reported_ret
  | |- reported (exit 0%N) => apply reported_exit0
  | |- reported (exitError _) => apply reported_exitError
  | |- reported (try _) => apply reported_try
  | |- reported (fold_left _ _ (ret tt)) => apply reported_warnings
  | |- reported (emit _) => reflexivity
  | |- reported (log_success _ _) => unfold log_success
  | |- reported (log_warn _) => unfold log_warn
  | |- reported (log_step _ _) => unfold log_step
  | |- reported (log_info _ _) => unfold log_info
  | |- reported (log_blank _) => unfold log_blank
  | |- reported (showHelp _) => unfold showHelp
  | |- reported (match ?x with _ => _ end) => destruct x
  end.

Ltac report := repeat report_step.

Lemma release_reported (w : World) (args : Args) (versionArg : jstring) :
  reported (release w args versionArg).
Proof.
  unfold release, stageParse, stageEnsure, stageResolve, finishNext, branchPolicy,
    stageCheckHigher, stageConfirm, stageMutate, stagePublish.
  report.
Qed.

Lemma main_reported (w : World) (args : Args) : reported (main w args).
Proof.
  pose proof (release_reported w args) as R. unfold main. report; apply R.
Qed.

End TraceFacts.

(* ===================================================================== *)
(** ** The release script: what a run does *)
(* ===================================================================== *)

Module RunProps.
Import Dec SemVer ReleaseUtils Release Spec Examples Effects Samples.
Import StringFacts OrchestratorProps TraceFacts.

(** X1.  The release script writes lines of its own on the error stream exactly
    when it ends with exit status 1; a run ends normally, with status 0 or
    with status 1.  (What the commands it starts print is theirs, and not
    part of the trace.) *)
Theorem failure_is_reported (w : World) (args : Args) :
  (snd (main w args) = Exit 1%N <-> stderrOf (fst (main w args)) <> [])
  /\ (snd (main w args) = Done tt \/ snd (main w args) = Exit 0%N
      \/ snd (main w args) = Exit 1%N).
Proof.
  pose proof (main_reported w args) as R.
  destruct (main w args) as [t [[]|c]]; simpl in *.
  - split; [|auto]. split; [discriminate|]. intros H. congruence.
  - destruct R as [[-> R]|[-> R]].
    + split; [|auto]. split; auto.
    + split; [|auto]. split; [discriminate|]. intros H. congruence.
Qed.



(** X2.  A file is written only in a run that was asked for a release, read the
    three project files with the same version in manifest.json and
    package.json, read the changelog (without warnings in strict mode), and
    was confirmed, by [--yes] or at the prompt. *)
Theorem writes_only_after_validation (w : World) (args : Args) :
  existsb isWrite (fst (main w args)) = true ->
  help args = false /\ versionFlag args = false
  /\ (exists info, getProjectInfo (files w) = Ok info
                   /\ pi_version info = pkgVersion info)
  /\ confirmed w args
  /\ exists text, changelogMd (files w) = Some text
       /\ (strict args = true -> warnings (parseChangelogText text) = []).
Proof.
  intros H. apply existsb_filter_nil in H.
  destruct (main_effects w args)
    as [[F _]|(v & meta & text & pc & next & out & notes & Hh & Hv & Hi & Hc & Hfs
               & Hs & _ & _ & _ & Hconf & _)]; [congruence|].
  repeat split; auto.
  - exists meta. split; [exact Hi|]. unfold checkVersionCoherency in Hc.
    destruct (JS.eqb (pi_version meta) (pkgVersion meta)) eqn:E;
      [apply eqb_eq; exact E|discriminate].
  - exists text. auto.
Qed.

Lemma writes_only_after_validation_witness :
  help (testArgs (lit "patch") false) = false
  /\ versionFlag (testArgs (lit "patch") false) = false
  /\ (exists info, getProjectInfo (files (testWorld pendingText None None)) = Ok info
                   /\ pi_version info = pkgVersion info)
  /\ confirmed (testWorld pendingText None None) (testArgs (lit "patch") false)
  /\ exists text, changelogMd (files (testWorld pendingText None None)) = Some text
       /\ (strict (testArgs (lit "patch") false) = true ->
           warnings (parseChangelogText text) = []).
Proof.
  apply (writes_only_after_validation (testWorld pendingText None None)
           (testArgs (lit "patch") false)).
  vm_compute. reflexivity.
Defined.







(** X5.  The commands a run starts through [run] are started one after the
    other, each only when all such commands before it succeeded; one that
    fails ends the run with exit status 1, and a run that returns normally
    has started none of them or five, the last two being [git push] and
    [git push --tags].  (The branch queries made through [capture] are not
    events of the trace and are outside this statement.) *)
Theorem commands_fail_fast (w : World) (args : Args) :
  allButLastSucceed (runSucceeds w) (commandsOf (fst (main w args))) = true
  /\ (forallb (runSucceeds w) (commandsOf (fst (main w args))) = false ->
      snd (main w args) = Exit 1%N)
  /\ (snd (main w args) = Done tt ->
      commandsOf (fst (main w args)) = []
      \/ exists c1 c2 c3,
           commandsOf (fst (main w args))
           = [c1; c2; c3; lit "git push"; lit "git push --tags"]).
Proof.
  destruct (main_effects w args)
    as [[_ C]|(va & meta & text & pc & next & out & notes & _ & _ & _ & _ & _
               & _ & _ & _ & _ & _ & _ & _ & P)].
  - rewrite C. repeat split; auto. discriminate.
  - unfold publishResult in P. cbv zeta in P.
    destruct (runSucceeds w checkCommand) eqn:E1,
      (runSucceeds w (commitCommand next notes)) eqn:E2,
      (runSucceeds w (tagCommand next notes)) eqn:E3,
      (noPush args),
      (runSucceeds w (lit "git push")) eqn:E4,
      (runSucceeds w (lit "git push --tags")) eqn:E5;
      simpl in P; injection P as Pc Po; rewrite Pc, Po; simpl;
      rewrite ?E1, ?E2, ?E3, ?E4, ?E5; simpl;
      (split; [reflexivity|split; [try discriminate; reflexivity|]]);
      try discriminate; intros _; right; eauto.
Qed.

End RunProps.

(* ===================================================================== *)
(** ** The release notes and the default branch *)
(* ===================================================================== *)

Module BranchProps.
Import Dec SemVer ReleaseUtils Release Spec Examples Effects Samples.
Import StringFacts HeadingProps OrchestratorProps TraceFacts.

(** X6.  Whatever the changelog, once the script has made sure of the unreleased
    section the changelog writer succeeds, and the release notes it returns
    are not blank: they are the content of the unreleased section or, when
    that is blank and the mode is not strict, the placeholder. *)
Theorem release_notes_never_blank (strictMode : bool) (pc0 pc : ParsedChangelog)
    (t : list event) (next today : jstring) :
  stageEnsure strictMode pc0 = (t, Done pc) ->
  exists out notes,
    updateChangelog pc next today = Ok (out, notes)
    /\ isBlank notes = false
    /\ (notes = placeholder
        \/ exists u0, find isUnreleased (entries pc0) = Some u0 /\ notes = content u0)
    /\ (strictMode = true ->
        exists u0, find isUnreleased (entries pc0) = Some u0 /\ notes = content u0).
Proof.
  intros H.
  destruct (stageEnsure_done _ _ _ _ H) as (u & F & B & O & _ & _ & _ & S).
  destruct (updateChangelog_ok pc next today u F B) as [out Hup].
  exists out, (content u). repeat split; auto.
  intros Hs. rewrite <- (S Hs). eauto.
Qed.

Lemma release_notes_never_blank_witness :
  exists out notes,
    updateChangelog conflictExample (lit "1.3.0") (lit "2025-01-01") = Ok (out, notes)
    /\ isBlank notes = false
    /\ (notes = placeholder
        \/ exists u0, find isUnreleased (entries conflictExample) = Some u0
                      /\ notes = content u0)
    /\ (false = true ->
        exists u0, find isUnreleased (entries conflictExample) = Some u0
                   /\ notes = content u0).
Proof.
  apply (release_notes_never_blank false conflictExample conflictExample []).
  vm_compute. reflexivity.
Defined.

Lemma skipn_length_app {A : Type} (a x : list A) (j : nat) :
  skipn (List.length a + j) (a ++ x) = skipn j x.
Proof. induction a as [|c a IH]; simpl; [reflexivity|exact IH]. Qed.

Lemma firstn_length_app {A : Type} (a x : list A) :
  firstn (List.length a) (a ++ x) = a.
Proof. induction a as [|c a IH]; simpl; [reflexivity|rewrite IH; reflexivity]. Qed.

Lemma refName_unfold (k : nat) (rest : jstring) :
  refName k rest
  = if match skipn k rest with c :: _ => isWhiteSpace c | [] => false end
       && startsWith (lit "HEAD") (dropWhile isWhiteSpace (skipn k rest))
    then Some (firstn k rest)
    else match k with
         | O => None
         | S k' => refName k' rest
         end.
Proof. destruct k; reflexivity. Qed.

Lemma refName_found (rest : jstring) (k0 d : nat) :
  match skipn k0 rest with c :: _ => isWhiteSpace c | [] => false end
  && startsWith (lit "HEAD") (dropWhile isWhiteSpace (skipn k0 rest)) = true ->
  (forall j, 0 < j <= d ->
     match skipn (k0 + j) rest with c :: _ => isWhiteSpace c | [] => false end
     && startsWith (lit "HEAD") (dropWhile isWhiteSpace (skipn (k0 + j) rest))
     = false) ->
  refName (k0 + d) rest = Some (firstn k0 rest).
Proof.
  intros H0. induction d as [|d IH]; intros Hd.
  - rewrite Nat.add_0_r, refName_unfold, H0. reflexivity.
  - rewrite refName_unfold, (Hd (S d)) by lia.
    rewrite Nat.add_succ_r. apply IH. intros j Hj. apply Hd. lia.
Qed.

Lemma execRef_here (output b : jstring) :
  startsWith (lit "ref: refs/heads/") output = true ->
  refName (List.length (takeWhile notLineTerminator (skipn 16 output)))
          (skipn 16 output) = Some b ->
  execRef output = Some b.
Proof.
  intros Hs Hr. destruct output as [|c o]; [discriminate|].
  cbn [execRef]. rewrite Hs.
  change (fun c0 : char => negb (isLineTerminator c0)) with notLineTerminator.
  rewrite Hr. reflexivity.
Qed.

(** X7.  The default branch is read off the answer of
    [git ls-remote --symref origin HEAD]: when the answer, trimmed, begins
    with [ref: refs/heads/], a branch name, a tab and [HEAD], and goes on, if
    at all, on a new line that does not begin with HEAD, the default branch is
    that name.  The variable TEST_DEFAULT_BRANCH, when set, is used instead. *)
Theorem default_branch_detected (w : World) (out branch rest : jstring) :
  field (TEST_DEFAULT_BRANCH w) = None ->
  gitLsRemote w = Some out ->
  trim out = lit "ref: refs/heads/" ++ branch ++ [9%N] ++ lit "HEAD" ++ rest ->
  forallb notLineTerminator branch = true ->
  rest = [] \/ (exists r, rest = LF :: r) ->
  startsWith (lit "HEAD") (dropWhile isWhiteSpace rest) = false ->
  getDefaultBranch w = Some branch.
Proof.
  intros He Hg Ht Hb Hrest Hh.
  assert (E : execRef (trim out) = Some branch).
  { rewrite Ht. apply execRef_here; [reflexivity|].
    change (skipn 16 (lit "ref: refs/heads/" ++ branch ++ [9%N] ++ lit "HEAD" ++ rest))
      with (branch ++ [9%N] ++ lit "HEAD" ++ rest).
    assert (L : takeWhile notLineTerminator (branch ++ [9%N] ++ lit "HEAD" ++ rest)
                = branch ++ [9%N] ++ lit "HEAD").
    { rewrite (takeWhile_app_all _ _ _ Hb). f_equal.
      destruct Hrest as [->|[r ->]]; reflexivity. }
    rewrite L, length_app. change (List.length ([9%N] ++ lit "HEAD")) with 5.
    rewrite refName_found; [f_equal; apply firstn_length_app| |].
    - rewrite <- (Nat.add_0_r (List.length branch)), skipn_length_app. reflexivity.
    - intros j Hj. rewrite skipn_length_app.
      assert (C : j = 1 \/ j = 2 \/ j = 3 \/ j = 4 \/ j = 5) by lia.
      destruct C as [->|[->|[->|[->| ->]]]]; try reflexivity.
      change (skipn 5 ([9%N] ++ lit "HEAD" ++ rest)) with rest.
      rewrite Hh. apply andb_false_r. }
  unfold getDefaultBranch. rewrite Hg, E. unfold field in He.
  destruct (TEST_DEFAULT_BRANCH w) as [b|]; [|reflexivity].
  destruct (truthy b); [discriminate|reflexivity].
Qed.

Lemma default_branch_detected_witness :
  getDefaultBranch remoteWorld = Some (lit "main").
Proof.
  apply (default_branch_detected remoteWorld
           (lit "ref: refs/heads/main" ++ [9%N] ++ lit "HEAD" ++ [LF]
            ++ lit "0a1b2c3d" ++ [9%N] ++ lit "HEAD" ++ [LF])
           (lit "main") ([LF] ++ lit "0a1b2c3d" ++ [9%N] ++ lit "HEAD")).
  - reflexivity.
  - reflexivity.
  - vm_compute. reflexivity.
  - reflexivity.
  - right. eexists. reflexivity.
  - reflexivity.
Defined.

End BranchProps.

(* ===================================================================== *)
(** ** The parser: what it makes of a text *)
(* ===================================================================== *)

Module ParserShape.
Import Dec SemVer ReleaseUtils Release Spec Examples Effects.
Import StringFacts ParserProps WriterProps RoundTripProps.

Lemma closeLines_cons (l : jstring) (ls : list jstring) :
  closeLines (l :: ls) = (l ++ [LF]) ++ closeLines ls.
Proof. reflexivity. Qed.

Lemma step_heading (st : LoopState) (l : jstring) :
  isHeading l = true ->
  step st l
  = {| st_description := st_description st;
       st_entries := pending st;
       st_warnings := st_warnings st ++ snd (classifyLine l);
       st_currentEntry := Some {| version := fst (classifyLine l);
                                  header := trim l; content := [] |};
       st_firstHeaderFound := true |}.
Proof.
  unfold step, classifyLine, isHeading.
  destruct (headingMatch l) as [m1|]; [|discriminate].
  destruct (classifyHeading (trim l) (trim m1)). reflexivity.
Qed.

Lemma step_body (st : LoopState) (l : jstring) (e : ChangelogEntry) :
  isHeading l = false -> st_currentEntry st = Some e ->
  step st l
  = {| st_description := st_description st;
       st_entries := st_entries st;
       st_warnings := st_warnings st;
       st_currentEntry := Some {| version := version e; header := header e;
                                  content := content e ++ l ++ [LF] |};
       st_firstHeaderFound := st_firstHeaderFound st |}.
Proof.
  unfold step, isHeading. destruct (headingMatch l); [discriminate|].
  intros _ ->. reflexivity.
Qed.

Lemma step_preamble (st : LoopState) (l : jstring) :
  isHeading l = false -> st_currentEntry st = None ->
  step st l
  = if negb (st_firstHeaderFound st) && negb (startsWith (lit "# ") l)
    then {| st_description := st_description st ++ l ++ [LF];
            st_entries := st_entries st;
            st_warnings := st_warnings st;
            st_currentEntry := None;
            st_firstHeaderFound := st_firstHeaderFound st |}
    else st.
Proof.
  unfold step, isHeading. destruct (headingMatch l); [discriminate|].
  intros _ ->. reflexivity.
Qed.

(** The entries of the loop: the pending entry takes the lines up to the
    first heading, and every heading opens an entry. *)
Lemma loop_blocks (lines : list jstring) (st : LoopState) :
  pending (fold_left step lines st)
  = match st_currentEntry st with
    | Some e =>
        st_entries st
        ++ [{| version := version e; header := header e;
               content := trim (content e ++ closeLines (beforeHeading lines)) |}]
    | None => st_entries st
    end
    ++ map entryOf (blocksOf lines).
Proof.
  revert st. induction lines as [|l ls IH]; intros st.
  - simpl. unfold pending, pushCurrent, closeLines. simpl.
    destruct (st_currentEntry st); rewrite ?app_nil_r; reflexivity.
  - cbn [fold_left beforeHeading blocksOf]. rewrite IH.
    destruct (isHeading l) eqn:Hl.
    + rewrite (step_heading _ _ Hl). cbn [st_currentEntry st_entries version header content map].
      unfold entryOf at 2. cbn [fst snd]. unfold pending, pushCurrent.
      change (closeLines []) with (@nil char).
      destruct (st_currentEntry st); rewrite ?app_nil_r, <- ?app_assoc; reflexivity.
    + destruct (st_currentEntry st) as [e|] eqn:Hc.
      * rewrite (step_body _ _ _ Hl Hc).
        cbn [st_currentEntry st_entries version header content].
        rewrite closeLines_cons, <- !app_assoc. reflexivity.
      * rewrite (step_preamble _ _ Hl Hc).
        destruct (negb (st_firstHeaderFound st) && negb (startsWith (lit "# ") l));
          cbn [st_currentEntry st_entries]; rewrite ?Hc; reflexivity.
Qed.

Lemma loop_description_fixed (lines : list jstring) (st : LoopState) :
  st_currentEntry st <> None \/ st_firstHeaderFound st = true ->
  st_description (fold_left step lines st) = st_description st.
Proof.
  revert st. induction lines as [|l ls IH]; intros st H; [reflexivity|].
  cbn [fold_left]. destruct (isHeading l) eqn:Hl.
  - rewrite IH; rewrite (step_heading _ _ Hl); [reflexivity|].
    left. discriminate.
  - destruct (st_currentEntry st) as [e|] eqn:Hc.
    + rewrite IH; rewrite (step_body _ _ _ Hl Hc); [reflexivity|].
      left. discriminate.
    + destruct H as [H|H]; [congruence|].
      rewrite (step_preamble _ _ Hl Hc), H. simpl. apply IH. auto.
Qed.

Lemma loop_description (lines : list jstring) (st : LoopState) :
  st_currentEntry st = None -> st_firstHeaderFound st = false ->
  st_description (fold_left step lines st)
  = st_description st
    ++ closeLines (filter (fun l => negb (startsWith (lit "# ") l))
                          (beforeHeading lines)).
Proof.
  revert st. induction lines as [|l ls IH]; intros st Hc Hf.
  - simpl. rewrite app_nil_r. reflexivity.
  - cbn [fold_left beforeHeading]. destruct (isHeading l) eqn:Hl.
    + rewrite loop_description_fixed; rewrite (step_heading _ _ Hl).
      * simpl. rewrite app_nil_r. reflexivity.
      * left. discriminate.
    + rewrite (step_preamble _ _ Hl Hc), Hf. cbn [negb andb filter].
      destruct (startsWith (lit "# ") l); cbn [negb].
      * exact (IH st Hc Hf).
      * rewrite IH by (cbn; auto). cbn [st_description].
        rewrite closeLines_cons, <- !app_assoc. reflexivity.
Qed.

Lemma headingEntries_blocks (text : jstring) :
  headingEntries text = map entryOf (blocksOf (splitLines text)).
Proof.
  unfold headingEntries.
  fold (pending (fold_left step (splitLines text) initialState)).
  rewrite loop_blocks. reflexivity.
Qed.

Lemma parser_description (text : jstring) :
  st_description (fold_left step (splitLines text) initialState) = preambleText text.
Proof. rewrite loop_description; reflexivity. Qed.

Lemma parser_loop_warnings (text : jstring) :
  st_warnings (fold_left step (splitLines text) initialState) = headingWarnings text.
Proof. destruct (loop_summary (splitLines text) initialState) as [_ H]. exact H. Qed.

Lemma title_line_truthy (l : jstring) :
  startsWith (lit "# ") l = true -> truthy (trim l) = true.
Proof.
  destruct l as [|c l]; [discriminate|]. cbn [startsWith lit map list_ascii_of_string].
  intros H. apply andb_true_iff in H as [E _].
  apply N.eqb_eq in E. subst c. rewrite trim_solid; reflexivity.
Qed.

Lemma trim_trim (s : jstring) : trim (trim s) = trim s.
Proof.
  unfold trim at 1. unfold trimStart.
  rewrite (dropWhile_id _ (trim s)).
  - apply trimEnd_trim.
  - unfold trim, trimEnd, trimStart.
    pose proof (dropWhile_head isWhiteSpace s) as H.
    destruct (dropWhile isWhiteSpace s) as [|c r] eqn:E; [reflexivity|].
    simpl in H. apply negb_true_iff in H.
    pose proof (trimEnd_prefix (c :: r)) as (w & Hw & _).
    unfold trimEnd, trimStart in Hw.
    destruct (rev (dropWhile isWhiteSpace (rev (c :: r)))) as [|c' r'] eqn:E'.
    + reflexivity.
    + simpl in Hw. injection Hw as <- _. simpl. rewrite H. reflexivity.
Qed.

Lemma isBlank_trim (s : jstring) : isBlank (trim s) = negb (truthy (trim s)).
Proof. unfold isBlank. rewrite trim_trim. destruct (trim s); reflexivity. Qed.

Lemma parsed_entries (text : jstring) :
  let hs := map entryOf (blocksOf (splitLines text)) in
  entries (parseChangelogText text)
  = (if existsb isUnreleased hs then hs
     else synthesized (trim (preambleText text)) :: hs).
Proof.
  cbv zeta. unfold parseChangelogText. cbn [entries].
  fold (headingEntries text). rewrite parser_description, headingEntries_blocks.
  set (hs := map entryOf (blocksOf (splitLines text))).
  set (pre := trim (preambleText text)).
  destruct (existsb isUnreleased hs) eqn:E.
  - rewrite andb_false_r. cbn [negb]. rewrite E. reflexivity.
  - rewrite andb_true_r. destruct (truthy pre) eqn:T.
    + reflexivity.
    + cbn [negb]. rewrite E. cbn [negb]. destruct pre; [reflexivity|discriminate].
Qed.

Lemma parsed_description (text : jstring) :
  description (parseChangelogText text)
  = (if existsb isUnreleased (map entryOf (blocksOf (splitLines text)))
     then trim (preambleText text) else []).
Proof.
  unfold parseChangelogText. cbn [description].
  fold (headingEntries text). rewrite parser_description, headingEntries_blocks.
  set (hs := map entryOf (blocksOf (splitLines text))).
  set (pre := trim (preambleText text)).
  destruct (existsb isUnreleased hs) eqn:E.
  - rewrite andb_false_r. reflexivity.
  - rewrite andb_true_r. destruct (truthy pre) eqn:T; [reflexivity|].
    fold pre. destruct pre; [reflexivity|discriminate].
Qed.

Lemma parsed_title (text : jstring) :
  title (parseChangelogText text)
  = match find (startsWith (lit "# ")) (splitLines text) with
    | Some l => trim l
    | None => lit "Changelog"
    end.
Proof.
  unfold parseChangelogText. cbn [title].
  destruct (find (startsWith (lit "# ")) (splitLines text)) as [l|] eqn:F;
    [|reflexivity].
  apply find_some in F as [_ F]. rewrite (title_line_truthy _ F). reflexivity.
Qed.

Lemma existsb_find_none {A : Type} (p : A -> bool) (l : list A) :
  find p l = None -> existsb p l = false.
Proof.
  intros F. destruct (existsb p l) eqn:E; [|reflexivity].
  apply existsb_exists in E as (x & Hx & Hp).
  rewrite (find_none _ _ F x Hx) in Hp. discriminate.
Qed.

Lemma existsb_find_some {A : Type} (p : A -> bool) (l : list A) (x : A) :
  find p l = Some x -> existsb p l = true.
Proof. intros F. apply existsb_exists. exists x. apply (find_some _ _ F). Qed.

(** The warnings when some heading is the unreleased one. *)
Lemma parsed_warnings_found (text : jstring) (u : ChangelogEntry) :
  find isUnreleased (map entryOf (blocksOf (splitLines text))) = Some u ->
  warnings (parseChangelogText text)
  = headingWarnings text ++ (if isBlank (content u) then [emptyWarning] else []).
Proof.
  intros F. unfold parseChangelogText. cbn [warnings].
  fold (headingEntries text).
  rewrite parser_description, parser_loop_warnings, headingEntries_blocks.
  rewrite (existsb_find_some _ _ _ F), andb_false_r. cbn [negb].
  rewrite (existsb_find_some _ _ _ F). cbn [negb]. rewrite F.
  fold (isBlank (content u)). destruct (isBlank (content u)); [reflexivity|].
  rewrite app_nil_r. reflexivity.
Qed.

(** The warnings when no heading is the unreleased one. *)
Lemma parsed_warnings_missing (text : jstring) :
  find isUnreleased (map entryOf (blocksOf (splitLines text))) = None ->
  warnings (parseChangelogText text)
  = headingWarnings text
    ++ (if truthy (trim (preambleText text)) then []
        else [missingWarning; emptyWarning]).
Proof.
  intros F. unfold parseChangelogText. cbn [warnings].
  fold (headingEntries text).
  rewrite parser_description, parser_loop_warnings, headingEntries_blocks.
  set (hs := map entryOf (blocksOf (splitLines text))) in *.
  set (pre := trim (preambleText text)).
  pose proof (existsb_find_none _ _ F) as E.
  rewrite E, andb_true_r. destruct (truthy pre) eqn:T.
  - cbn [negb existsb isUnreleased version orb].
    change (JS.eqb unreleased unreleased) with true. cbn [orb negb find].
    change (isUnreleased {| version := Some unreleased; header := unreleasedHeader;
                            content := pre |}) with true.
    cbn [content]. fold (isBlank pre). unfold pre at 1. rewrite isBlank_trim.
    fold pre. rewrite T. cbn [negb]. rewrite app_nil_r. reflexivity.
  - cbn [negb]. rewrite E. cbn [negb find].
    change (isUnreleased {| version := Some unreleased; header := unreleasedHeader;
                            content := [] |}) with true.
    cbn [content]. change (Nat.eqb (List.length (trim [])) 0) with true.
    cbn iota. rewrite <- app_assoc. reflexivity.
Qed.

(** X8.  What the parser returns is read off the lines of the text: every heading
    line opens an entry, whose content is the trimmed text of the lines up to
    the next heading line; the text before the first heading line, title
    lines left out, is the description when some heading is the unreleased
    one, and otherwise the content of an unreleased entry put in front; the
    title is the first line that begins with a number sign and a space. *)
Theorem parser_reads_blocks (text : jstring) :
  let pc := parseChangelogText text in
  let hs := map entryOf (blocksOf (splitLines text)) in
  let pre := trim (preambleText text) in
  entries pc = (if existsb isUnreleased hs then hs else synthesized pre :: hs)
  /\ description pc = (if existsb isUnreleased hs then pre else [])
  /\ title pc = match find (startsWith (lit "# ")) (splitLines text) with
                | Some l => trim l
                | None => lit "Changelog"
                end.
Proof.
  cbv zeta. split; [|split].
  - apply parsed_entries.
  - apply parsed_description.
  - apply parsed_title.
Qed.

(** X9.  The warnings of the parser are, in this order: one for every heading line
    with a version token that is not a valid version; then, when no heading
    is the unreleased one and no text stands before the first heading, the
    warning that the unreleased section is missing; then, when the content of
    the first unreleased entry is blank, the warning that it is empty.  So a
    missing section is always reported as empty too. *)
Theorem parser_warnings_exact (text : jstring) :
  let hs := map entryOf (blocksOf (splitLines text)) in
  let pre := trim (preambleText text) in
  warnings (parseChangelogText text)
  = headingWarnings text
    ++ match find isUnreleased hs with
       | Some u => if isBlank (content u) then [emptyWarning] else []
       | None => if truthy pre then [] else [missingWarning; emptyWarning]
       end.
Proof.
  cbv zeta.
  destruct (find isUnreleased (map entryOf (blocksOf (splitLines text))))
    as [u|] eqn:F.
  - apply parsed_warnings_found. exact F.
  - apply parsed_warnings_missing. exact F.
Qed.

End ParserShape.

(* ===================================================================== *)
(** ** tools/get-meta.ts: the metadata of the plugin *)
(* ===================================================================== *)

Module MetaProps.
Import ReleaseUtils Release Spec Effects Samples GetMeta.
Import StringFacts RoundTripProps.

Lemma json_null (p : json) : p = JNull \/ p <> JNull.
Proof. destruct p; [left; reflexivity|right; discriminate..]. Qed.

Lemma truthyField_object (m : json) (key : string) :
  truthyField (get m key) = true -> truthyJson m = true.
Proof. destruct m; simpl; try discriminate; reflexivity. Qed.

(** X10.  The script prints one message: the metadata on the output stream, or,
    with exit status 1, a line on the error stream, which begins with ERROR:
    or is the report of a TypeError.  It prints the metadata exactly when
    manifest.json parses to a value with a truthy id and a truthy version,
    package.json parses to a value other than null, and the id and the
    version convert to strings. *)
Theorem get_meta_reports (fs : MetaFiles) :
  ((exists m p text,
      manifestFile fs = Parsed m /\ packageFile fs = Parsed p /\ p <> JNull
      /\ truthyField (get m "id") = true /\ truthyField (get m "version") = true
      /\ output (get m "id") (get m "version") (hasBuildTask p) = Some text
      /\ script fs = ([Stdout text], Done tt))
   \/ (exists line,
         script fs = ([Stderr line], Exit 1%N)
         /\ (startsWith (lit "ERROR: ") line = true \/ line = uncaughtTypeError fs)))
  /\ (snd (script fs) = Done tt <->
      exists m p text,
        manifestFile fs = Parsed m /\ packageFile fs = Parsed p /\ p <> JNull
        /\ truthyField (get m "id") = true /\ truthyField (get m "version") = true
        /\ output (get m "id") (get m "version") (hasBuildTask p) = Some text).
Proof.
  assert (C :
    (exists m p text,
      manifestFile fs = Parsed m /\ packageFile fs = Parsed p /\ p <> JNull
      /\ truthyField (get m "id") = true /\ truthyField (get m "version") = true
      /\ output (get m "id") (get m "version") (hasBuildTask p) = Some text
      /\ script fs = ([Stdout text], Done tt))
    \/ ((exists line,
          script fs = ([Stderr line], Exit 1%N)
          /\ (startsWith (lit "ERROR: ") line = true \/ line = uncaughtTypeError fs))
        /\ ~ exists m p text,
             manifestFile fs = Parsed m /\ packageFile fs = Parsed p /\ p <> JNull
             /\ truthyField (get m "id") = true
             /\ truthyField (get m "version") = true
             /\ output (get m "id") (get m "version") (hasBuildTask p) = Some text)).
  { unfold script, getJson, error.
    destruct (manifestFile fs) as [|msg|m] eqn:Em.
    - right. split; [eexists; split; [reflexivity|left; reflexivity]|].
      intros (m & p & x & H & _). discriminate.
    - right. split; [eexists; split; [reflexivity|left; reflexivity]|].
      intros (m & p & x & H & _). discriminate.
    - cbn [bind ret]. destruct (truthyField (get m "id")) eqn:Ti.
      + rewrite (truthyField_object _ _ Ti).
        destruct (truthyField (get m "version")) eqn:Tv.
        * cbn [bind ret when negb]. destruct (packageFile fs) as [|msg|p] eqn:Ep.
          -- right. split; [eexists; split; [reflexivity|left; reflexivity]|].
             intros (m' & p & x & _ & H & _). discriminate.
          -- right. split; [eexists; split; [reflexivity|left; reflexivity]|].
             intros (m' & p & x & _ & H & _). discriminate.
          -- destruct (json_null p) as [->|Np].
             ++ right. split; [eexists; split; [reflexivity|left; reflexivity]|].
                intros (m' & p & x & _ & H & N & _). injection H as <-. congruence.
             ++ destruct (output (get m "id") (get m "version") (hasBuildTask p))
                  as [text|] eqn:O.
                ** left. exists m, p, text. repeat split; auto.
                   destruct p; try congruence; cbn [bind ret when]; rewrite O;
                     reflexivity.
                ** right. split.
                   --- exists (uncaughtTypeError fs). split; [|right; reflexivity].
                       destruct p; try congruence; cbn [bind ret when]; rewrite O;
                         reflexivity.
                   --- intros (m' & p' & x & Hm & Hp & _ & _ & _ & O').
                       injection Hm as <-. injection Hp as <-. congruence.
        * right. split; [eexists; split; [reflexivity|left; reflexivity]|].
          intros (m' & p & x & H & _ & _ & _ & T & _). injection H as <-. congruence.
      + right. split.
        * destruct (truthyJson m); eexists; (split; [reflexivity|left; reflexivity]).
        * intros (m' & p & x & H & _ & _ & T & _). injection H as <-. congruence. }
  split.
  - destruct C as [C|[C _]]; auto.
  - split.
    + intros D.
      destruct C as [(m & p & x & H1 & H2 & H3 & H4 & H5 & H6 & _)|[(l & E & _) _]].
      * exists m, p, x. auto 10.
      * rewrite E in D. discriminate.
    + intros H. destruct C as [(m & p & x & _ & _ & _ & _ & _ & _ & E)|[_ N]].
      * rewrite E. reflexivity.
      * contradiction.
Qed.

Lemma splitLines_line (a b : jstring) :
  forallb notLineTerminator a = true ->
  splitLines (a ++ LF :: b) = a :: splitLines b.
Proof.
  induction a as [|c a IH]; intros H.
  - reflexivity.
  - simpl in H. apply andb_true_iff in H as [Hc Ha].
    unfold notLineTerminator, isLineTerminator in Hc.
    apply negb_true_iff in Hc. apply orb_false_iff in Hc as [Hc _].
    apply orb_false_iff in Hc as [Hc _]. apply orb_false_iff in Hc as [H10 H13].
    change ((c :: a) ++ LF :: b) with (c :: (a ++ LF :: b)).
    rewrite splitLines_cons, (IH Ha).
    change (N.eqb c LF) with (N.eqb c 10%N). change (N.eqb c CR) with (N.eqb c 13%N).
    rewrite H10, H13. reflexivity.
Qed.

Lemma notLT_no_LF (a : jstring) :
  forallb notLineTerminator a = true -> existsb (N.eqb LF) a = false.
Proof.
  induction a as [|c a IH]; [reflexivity|]. cbn [existsb forallb]. intros H.
  apply andb_true_iff in H as [Hc Ha]. rewrite (IH Ha), orb_false_r.
  unfold notLineTerminator, isLineTerminator in Hc.
  apply negb_true_iff in Hc. apply orb_false_iff in Hc as [Hc _].
  apply orb_false_iff in Hc as [Hc _]. apply orb_false_iff in Hc as [H10 _].
  rewrite N.eqb_sym. exact H10.
Qed.

(** X11.  For a manifest whose id and version are strings of one line each, the
    metadata are three lines: the name, the version, and whether
    package.json has an object [scripts] with a key [build]. *)
Theorem get_meta_three_lines (fs : MetaFiles) (ms : list (jstring * json))
    (p : json) (i v : jstring) :
  manifestFile fs = Parsed (JObject ms) ->
  member (lit "id") ms = Some (JString i) ->
  member (lit "version") ms = Some (JString v) ->
  truthy i = true -> truthy v = true ->
  forallb notLineTerminator i = true -> forallb notLineTerminator v = true ->
  packageFile fs = Parsed p -> p <> JNull ->
  exists out,
    script fs = ([Stdout out], Done tt)
    /\ splitLines out
       = [lit "tool_name=" ++ i; lit "tool_version=" ++ v;
          lit "has_build_task=" ++ (if hasBuildTask p then lit "true" else lit "false")]
    /\ (hasBuildTask p = true <->
        exists members scripts task,
          p = JObject members
          /\ member (lit "scripts") members = Some (JObject scripts)
          /\ member (lit "build") scripts = Some task).
Proof.
  intros Hm Hi Hv Ti Tv Li Lv Hp Np.
  exists (lit "tool_name=" ++ i ++ [LF] ++ lit "tool_version=" ++ v ++ [LF]
          ++ lit "has_build_task="
          ++ (if hasBuildTask p then lit "true" else lit "false")).
  split; [|split].
  - unfold script, getJson. rewrite Hm, Hp. cbn [bind ret truthyJson negb when].
    unfold get. rewrite Hi, Hv.
    cbn [truthyJson truthyField negb when bind ret]. rewrite Ti, Tv.
    destruct p; try congruence; reflexivity.
  - cbn [app].
    rewrite app_assoc, splitLines_line.
    + rewrite app_assoc, splitLines_line.
      * rewrite splitLines_single; [reflexivity|].
        destruct (hasBuildTask p); reflexivity.
      * rewrite forallb_app, Lv. reflexivity.
    + rewrite forallb_app, Li. reflexivity.
  - unfold hasBuildTask, get, hasBuildKey. split.
    + destruct p as [|b|nz tx|s|items|members]; simpl; rewrite ?andb_false_r;
        try discriminate.
      destruct (member (lit "scripts") members) as [[| | | | |scripts]|] eqn:S;
        simpl; try discriminate; try (rewrite andb_false_r; discriminate).
      destruct (member (lit "build") scripts) as [task|] eqn:B; [|discriminate].
      intros _. exists members, scripts, task. auto.
    + intros (members & scripts & task & -> & S & B). simpl. rewrite S. simpl.
      rewrite B. reflexivity.
Qed.

Lemma get_meta_three_lines_witness :
  exists out,
    script metaFiles = ([Stdout out], Done tt)
    /\ splitLines out
       = [lit "tool_name=" ++ lit "my-plugin"; lit "tool_version=" ++ lit "1.2.3";
          lit "has_build_task="
          ++ (if hasBuildTask
                   (JObject
                      [(lit "scripts",
                        JObject
                          [(lit "build",
                            JString (lit "node esbuild.config.mjs production"))])])
              then lit "true" else lit "false")]
    /\ (hasBuildTask
          (JObject
             [(lit "scripts",
               JObject
                 [(lit "build",
                   JString (lit "node esbuild.config.mjs production"))])]) = true <->
        exists members scripts task,
          JObject
            [(lit "scripts",
              JObject
                [(lit "build",
                  JString (lit "node esbuild.config.mjs production"))])]
          = JObject members
          /\ member (lit "scripts") members = Some (JObject scripts)
          /\ member (lit "build") scripts = Some task).
Proof.
  apply (get_meta_three_lines metaFiles
           [(lit "id", JString (lit "my-plugin"));
            (lit "version", JString (lit "1.2.3"));
            (lit "minAppVersion", JString (lit "1.0.0"))]);
    try reflexivity.
  discriminate.
Defined.

End MetaProps.

(* ===================================================================== *)
(** ** tools/get-release-notes.ts: the notes of a version *)
(* ===================================================================== *)

Module NotesProps.
Import Dec SemVer ReleaseUtils Release Spec Examples Effects Samples.
Import StringFacts DecFacts SemVerFacts WriterProps RecordedProps ParserShape.

Lemma valid_shape (v s : jstring) :
  valid v = Some s ->
  exists x p, s = mainString x ++ p
    /\ (p = [] \/ exists q, p = ch "-" :: q /\ q <> []
                            /\ forallb isPreChar q = true).
Proof.
  intros H. destruct (valid_parse _ _ H) as (x & Hx & ->).
  destruct (parse_inv v x Hx) as (s3 & rest & _ & _ & Hs3).
  exists x. destruct Hs3 as [[-> Hp]|(p & -> & Hpc & Hv & Hp)].
  - exists []. split; [|auto]. unfold format, mainString.
    rewrite Hp, !app_nil_r, <- ?app_assoc. reflexivity.
  - exists (ch "-" :: p). split; [apply format_parts; assumption|].
    right. exists p. repeat split; auto. intros ->. discriminate.
Qed.

Lemma digit_ascii (c : char) : isDigit c = true -> ReleaseNotes.isAscii c = true.
Proof.
  unfold isDigit, ReleaseNotes.isAscii. intros H.
  apply andb_true_iff in H as [_ H]. apply N.leb_le in H. apply N.ltb_lt. lia.
Qed.

Lemma preChar_ascii (c : char) : isPreChar c = true -> ReleaseNotes.isAscii c = true.
Proof.
  unfold isPreChar, isIdChar, isLetter, isUpper, isLower, isDigit,
    ReleaseNotes.isAscii.
  change (ch "-") with 45%N. change (ch ".") with 46%N. intros H.
  apply N.ltb_lt.
  repeat match goal with
         | H : _ || _ = true |- _ => apply orb_true_iff in H as [H|H]
         | H : _ && _ = true |- _ => apply andb_true_iff in H as [? ?]
         | H : N.leb _ _ = true |- _ => apply N.leb_le in H
         | H : N.eqb _ _ = true |- _ => apply N.eqb_eq in H
         end; lia.
Qed.

Lemma forallb_impl {A : Type} (p q : A -> bool) (l : list A) :
  (forall x, p x = true -> q x = true) -> forallb p l = true -> forallb q l = true.
Proof.
  intros H. induction l as [|x l IH]; simpl; [auto|].
  intros E. apply andb_true_iff in E as [E1 E2]. rewrite (H _ E1), (IH E2).
  reflexivity.
Qed.

Lemma mainString_ascii (x : SemVer.t) :
  forallb ReleaseNotes.isAscii (mainString x) = true.
Proof.
  assert (D : forall n, forallb ReleaseNotes.isAscii (toDec n) = true).
  { intros n. apply (forallb_impl isDigit _ _ digit_ascii), allDigits_toDec. }
  unfold mainString. rewrite !forallb_app, !D. reflexivity.
Qed.

Lemma valid_ascii (v s : jstring) :
  valid v = Some s -> forallb ReleaseNotes.isAscii s = true.
Proof.
  intros H. destruct (valid_shape _ _ H) as (x & p & -> & Hp).
  rewrite forallb_app, mainString_ascii.
  destruct Hp as [->|(q & -> & _ & Hq)]; [reflexivity|].
  simpl. apply (forallb_impl _ _ _ preChar_ascii Hq).
Qed.

Lemma recorded_ascii (e : ChangelogEntry) :
  recorded e ->
  forallb ReleaseNotes.isAscii (match version e with Some v => v | None => [] end)
  = true.
Proof.
  unfold recorded. destruct (version e) as [v|]; [|reflexivity].
  intros [->|H]; [reflexivity|apply (valid_ascii _ _ H)].
Qed.

Lemma matches_ascii (lowerJS : jstring -> jstring) (target : jstring)
    (e : ChangelogEntry) :
  ReleaseNotes.lowerOnAscii lowerJS -> forallb ReleaseNotes.isAscii target = true ->
  recorded e ->
  ReleaseNotes.matchesVersion lowerJS target e
  = JS.eqb (toLowerCase (match version e with Some v => v | None => [] end))
           (toLowerCase target).
Proof.
  intros L T R. unfold ReleaseNotes.matchesVersion.
  rewrite (L _ T). f_equal. exact (L _ (recorded_ascii e R)).
Qed.

Lemma find_ext_in {A : Type} (f g : A -> bool) (l : list A) :
  (forall x, In x l -> f x = g x) -> find f l = find g l.
Proof.
  induction l as [|x l IH]; intros H; simpl; [reflexivity|].
  rewrite (H x) by (left; reflexivity).
  destruct (g x); [reflexivity|]. apply IH. intros y Hy. apply H. right. exact Hy.
Qed.

Lemma targetVersion_truthy (fs : Files) (versionArg : option jstring) (target : jstring) :
  ReleaseNotes.targetVersionOf fs versionArg = Ok target -> truthy target = true.
Proof.
  unfold ReleaseNotes.targetVersionOf.
  assert (P : match getProjectInfo fs with
              | Ok info => Ok (pi_version info)
              | Throw m => Throw m
              end = Ok target -> truthy target = true).
  { destruct (getProjectInfo fs) as [info|] eqn:E; [|discriminate].
    intros H. injection H as <-. apply TraceFacts.getProjectInfo_ok in E. apply E. }
  destruct versionArg as [a|]; [|exact P].
  destruct (truthy (trim a)) eqn:T; [|exact P].
  intros H. injection H as <-. exact T.
Qed.

Lemma body_trimmed (e : ChangelogEntry) :
  entryTrimmed e -> truthy (content e) = true ->
  ReleaseNotes.bodyOf e = header e ++ [LF; LF] ++ content e.
Proof.
  intros [_ Hc] T. unfold ReleaseNotes.bodyOf.
  apply trimEnd_solid. rewrite app_assoc. apply endsSolid_app.
  destruct (noTrailingSpace_solid _ Hc) as [E|E]; [|exact E].
  rewrite E in T. discriminate.
Qed.

Lemma notes_no_version (lowerJS : jstring -> jstring) (fs : Files)
    (versionArg : option jstring) (m : jstring) :
  ReleaseNotes.targetVersionOf fs versionArg = Throw m ->
  ReleaseNotes.main lowerJS fs versionArg = ([Stderr (lit "ERROR: " ++ m)], Exit 1%N).
Proof. intros Et. unfold ReleaseNotes.main. rewrite Et. reflexivity. Qed.

Lemma notes_unreadable (lowerJS : jstring -> jstring) (fs : Files)
    (versionArg : option jstring) (target m : jstring) :
  ReleaseNotes.targetVersionOf fs versionArg = Ok target ->
  parseChangelog fs = Throw m ->
  ReleaseNotes.main lowerJS fs versionArg = ([Stderr (lit "ERROR: " ++ m)], Exit 1%N).
Proof.
  intros Et Ep. unfold ReleaseNotes.main. rewrite Et.
  cbn [ReleaseNotes.attempt bind ret]. rewrite (targetVersion_truthy _ _ _ Et), Ep.
  reflexivity.
Qed.

Lemma notes_found (lowerJS : jstring -> jstring) (fs : Files)
    (versionArg : option jstring) (target text : jstring) (e : ChangelogEntry) :
  ReleaseNotes.targetVersionOf fs versionArg = Ok target ->
  changelogMd fs = Some text ->
  find (ReleaseNotes.matchesVersion lowerJS target)
       (entries (parseChangelogText text)) = Some e ->
  truthy (content e) = true ->
  ReleaseNotes.main lowerJS fs versionArg
  = ([Stdout (header e ++ [LF; LF] ++ content e)], Done tt).
Proof.
  intros Et Ec F T. unfold ReleaseNotes.main. rewrite Et.
  cbn [ReleaseNotes.attempt bind ret].
  rewrite (targetVersion_truthy _ _ _ Et). unfold parseChangelog, readFile.
  rewrite Ec. cbn [ReleaseNotes.attempt bind ret when negb]. rewrite F, T.
  rewrite body_trimmed; [reflexivity| |exact T].
  pose proof (parser_entries_trimmed text) as P.
  unfold entriesTrimmed in P. rewrite Forall_forall in P.
  apply P. apply (find_some _ _ F).
Qed.

Lemma notes_missing (lowerJS : jstring -> jstring) (fs : Files)
    (versionArg : option jstring) (target text : jstring) :
  ReleaseNotes.targetVersionOf fs versionArg = Ok target ->
  changelogMd fs = Some text ->
  match find (ReleaseNotes.matchesVersion lowerJS target)
             (entries (parseChangelogText text)) with
  | Some e => content e = []
  | None => True
  end ->
  ReleaseNotes.main lowerJS fs versionArg
  = ([Stderr (lit "ERROR: " ++ ReleaseNotes.notFound target)], Exit 1%N).
Proof.
  intros Et Ec F. unfold ReleaseNotes.main. rewrite Et.
  cbn [ReleaseNotes.attempt bind ret].
  rewrite (targetVersion_truthy _ _ _ Et). unfold parseChangelog, readFile.
  rewrite Ec. cbn [ReleaseNotes.attempt bind ret when negb].
  destruct (find (ReleaseNotes.matchesVersion lowerJS target)
                 (entries (parseChangelogText text))) as [e|]; [|reflexivity].
  rewrite F. reflexivity.
Qed.

(** X12.  The script prints either the notes, on the output stream and nothing
    else, or one line that begins with ERROR: on the error stream, with exit
    status 1.  The notes are the heading line, an empty line and the content
    of the first entry of the changelog whose version is, letter case aside,
    the version asked for, when that content is not empty; the line about a
    version that could not be determined is never printed. *)
Theorem release_notes_reports (lowerJS : jstring -> jstring) (fs : Files)
    (versionArg : option jstring) :
  (exists target text e,
      ReleaseNotes.targetVersionOf fs versionArg = Ok target
      /\ changelogMd fs = Some text
      /\ find (ReleaseNotes.matchesVersion lowerJS target)
              (entries (parseChangelogText text)) = Some e
      /\ truthy (content e) = true
      /\ ReleaseNotes.main lowerJS fs versionArg
         = ([Stdout (header e ++ [LF; LF] ++ content e)], Done tt))
  \/ (exists m,
        (ReleaseNotes.targetVersionOf fs versionArg = Throw m
         \/ (exists target, ReleaseNotes.targetVersionOf fs versionArg = Ok target
                            /\ parseChangelog fs = Throw m)
         \/ (exists target text,
               ReleaseNotes.targetVersionOf fs versionArg = Ok target
               /\ changelogMd fs = Some text
               /\ m = ReleaseNotes.notFound target
               /\ match find (ReleaseNotes.matchesVersion lowerJS target)
                             (entries (parseChangelogText text)) with
                  | Some e => content e = []
                  | None => True
                  end))
        /\ ReleaseNotes.main lowerJS fs versionArg
           = ([Stderr (lit "ERROR: " ++ m)], Exit 1%N)).
Proof.
  destruct (ReleaseNotes.targetVersionOf fs versionArg) as [target|m] eqn:Et.
  - destruct (changelogMd fs) as [text|] eqn:Ec.
    + destruct (find (ReleaseNotes.matchesVersion lowerJS target)
                     (entries (parseChangelogText text))) as [e|] eqn:F.
      * destruct (truthy (content e)) eqn:T.
        -- left. exists target, text, e. repeat split; auto.
           apply (notes_found lowerJS fs versionArg target text e); auto.
        -- right. exists (ReleaseNotes.notFound target).
           assert (N : content e = []) by (destruct (content e); [reflexivity|discriminate]).
           split.
           ++ right. right. exists target, text. rewrite F. auto.
           ++ apply (notes_missing lowerJS fs versionArg target text); auto.
              rewrite F. exact N.
      * right. exists (ReleaseNotes.notFound target). split.
        -- right. right. exists target, text. rewrite F. auto.
        -- apply (notes_missing lowerJS fs versionArg target text); auto.
           rewrite F. exact I.
    + right. exists (readError fs (lit "CHANGELOG.md")).
      assert (Ep : parseChangelog fs = Throw (readError fs (lit "CHANGELOG.md"))).
      { unfold parseChangelog, readFile. rewrite Ec. reflexivity. }
      split.
      * right. left. exists target. auto.
      * apply (notes_unreadable lowerJS fs versionArg target); auto.
  - right. exists m. split; [auto|].
    apply notes_no_version. exact Et.
Qed.

Lemma lower_head (c : char) (s : jstring) :
  toLowerCase (c :: s) = lower c :: toLowerCase s.
Proof. reflexivity. Qed.

Lemma mainString_digit (x : SemVer.t) (p : jstring) :
  exists c r, mainString x ++ p = c :: r /\ isDigit c = true.
Proof. apply mainString_head. Qed.

(** X13.  Entries carry versions in normal form, so that is how a version is
    looked up.  For a version given in ASCII, the notes are printed exactly
    when the first entry whose version is the given one, letter case aside,
    has a content; the version of that entry is a version in normal form or
    the word unreleased, and a version given with a leading v is never
    found. *)
Theorem release_notes_lookup (lowerJS : jstring -> jstring) (fs : Files)
    (versionArg : option jstring) (target text : jstring) :
  ReleaseNotes.lowerOnAscii lowerJS ->
  ReleaseNotes.targetVersionOf fs versionArg = Ok target ->
  forallb ReleaseNotes.isAscii target = true ->
  changelogMd fs = Some text ->
  (snd (ReleaseNotes.main lowerJS fs versionArg) = Done tt <->
   exists e v,
     find (fun e => JS.eqb (toLowerCase (match version e with
                                         | Some v => v
                                         | None => []
                                         end))
                           (toLowerCase target))
          (entries (parseChangelogText text)) = Some e
     /\ content e <> []
     /\ version e = Some v
     /\ (v = unreleased \/ valid v = Some v))
  /\ (forall r, target = ch "v" :: r \/ target = ch "V" :: r ->
        snd (ReleaseNotes.main lowerJS fs versionArg) = Exit 1%N).
Proof.
  intros L Et Ta Ec.
  pose proof (parser_entries_recorded text) as R. rewrite Forall_forall in R.
  assert (Ef : find (ReleaseNotes.matchesVersion lowerJS target)
                    (entries (parseChangelogText text))
               = find (fun e => JS.eqb (toLowerCase (match version e with
                                                     | Some v => v
                                                     | None => []
                                                     end))
                                       (toLowerCase target))
                      (entries (parseChangelogText text))).
  { apply find_ext_in. intros e He. apply matches_ascii; auto. }
  pose proof (targetVersion_truthy _ _ _ Et) as Tt.
  assert (Hv : forall e,
             find (ReleaseNotes.matchesVersion lowerJS target)
                  (entries (parseChangelogText text)) = Some e ->
             exists v, version e = Some v /\ (v = unreleased \/ valid v = Some v)
                       /\ toLowerCase v = toLowerCase target).
  { intros e F. rewrite Ef in F. apply find_some in F as [He F].
    apply eqb_eq in F. specialize (R e He). unfold recorded in R.
    destruct (version e) as [v|].
    - exists v. auto.
    - destruct target; [discriminate|]. discriminate. }
  destruct (find (ReleaseNotes.matchesVersion lowerJS target)
                 (entries (parseChangelogText text))) as [e|] eqn:F.
  - destruct (Hv e eq_refl) as (v & Ev & Hn & Hl).
    destruct (truthy (content e)) eqn:T.
    + rewrite (notes_found lowerJS fs versionArg target text e Et Ec F T).
      cbn [snd]. split.
      * split; [|reflexivity]. intros _. exists e, v. rewrite <- Ef.
        repeat split; auto. intros N. rewrite N in T. discriminate.
      * intros r Hr. exfalso.
        assert (Hh : exists c s, toLowerCase v = c :: s /\ c <> 118%N).
        { destruct Hn as [->|Hn].
          - eexists. eexists. split; [reflexivity|]. discriminate.
          - destruct (valid_shape _ _ Hn) as (x & p & -> & _).
            destruct (mainString_digit x p) as (c & s & -> & Hc).
            exists (lower c), (toLowerCase s). split; [reflexivity|].
            unfold lower, isUpper. unfold isDigit in Hc.
            apply andb_true_iff in Hc as [H1 H2].
            apply N.leb_le in H1, H2.
            destruct (N.leb 65 c && N.leb c 90) eqn:U; [|lia].
            apply andb_true_iff in U as [U _]. apply N.leb_le in U. lia. }
        destruct Hh as (c & s & Hc & Hne). rewrite Hl in Hc.
        destruct Hr as [->| ->]; injection Hc as <- _; apply Hne; reflexivity.
    + assert (N : content e = [])
        by (destruct (content e); [reflexivity|discriminate]).
      rewrite (notes_missing lowerJS fs versionArg target text Et Ec)
        by (rewrite F; exact N).
      cbn [snd]. split; [|auto]. split; [discriminate|].
      intros (e' & v' & F' & Hc & _). rewrite <- Ef in F'.
      injection F' as <-. contradiction.
  - rewrite (notes_missing lowerJS fs versionArg target text Et Ec)
      by (rewrite F; exact I).
    cbn [snd]. split; [|auto]. split; [discriminate|].
    intros (e' & v' & F' & _). rewrite <- Ef in F'. discriminate.
Qed.

Lemma release_notes_lookup_witness :
  (snd (ReleaseNotes.main toLowerCase (filesWith releasedText) (Some (lit "1.0.0")))
   = Done tt <->
   exists e v,
     find (fun e => JS.eqb (toLowerCase (match version e with
                                         | Some v => v
                                         | None => []
                                         end))
                           (toLowerCase (lit "1.0.0")))
          (entries (parseChangelogText releasedText)) = Some e
     /\ content e <> []
     /\ version e = Some v
     /\ (v = unreleased \/ valid v = Some v))
  /\ (forall r, lit "1.0.0" = ch "v" :: r \/ lit "1.0.0" = ch "V" :: r ->
        snd (ReleaseNotes.main toLowerCase (filesWith releasedText)
               (Some (lit "1.0.0"))) = Exit 1%N).
Proof.
  apply (release_notes_lookup toLowerCase (filesWith releasedText)
           (Some (lit "1.0.0")) (lit "1.0.0") releasedText).
  - intros s _. reflexivity.
  - reflexivity.
  - reflexivity.
  - reflexivity.
Defined.

End NotesProps.

(* ===================================================================== *)
(** ** The written changelog, read back *)
(* ===================================================================== *)

Module ReadBackProps.
Import Dec SemVer ReleaseUtils Release Spec Examples Effects Samples.
Import StringFacts DecFacts SemVerFacts HeadingProps PriorityProps WriterProps
  RoundTripProps RecordedProps ParserShape NotesProps.

Ltac char_hyps :=
  repeat match goal with
         | H : _ || _ = true |- _ => apply orb_true_iff in H as [H|H]
         | H : _ && _ = true |- _ => apply andb_true_iff in H as [? ?]
         | H : N.leb _ _ = true |- _ => apply N.leb_le in H
         | H : N.eqb _ _ = true |- _ => apply N.eqb_eq in H
         end.

Lemma preChar_solid (c : char) : isPreChar c = true -> solid c = true.
Proof.
  unfold isPreChar, isIdChar, isLetter, isUpper, isLower, isDigit, solid,
    isWhiteSpace, isLineTerminator.
  change (ch "-") with 45%N. change (ch ".") with 46%N. intros H.
  apply negb_true_iff.
  repeat (apply orb_false_iff; split); try (apply N.eqb_neq);
    try (apply andb_false_iff); char_hyps; try lia;
    try (left; apply N.leb_gt; lia).
Qed.

Lemma preChar_suffix (c : char) : isPreChar c = true -> isSuffixChar c = true.
Proof.
  unfold isPreChar, isIdChar, isSuffixChar.
  destruct (isDigit c), (isLetter c), (N.eqb c (ch "-")), (N.eqb c (ch "."));
    auto.
Qed.

Lemma date_preChars (d : jstring) : isDate d = true -> forallb isPreChar d = true.
Proof.
  unfold isDate. intros H. apply andb_true_iff in H as [_ H].
  revert H. apply forallb_impl. intros c Hc.
  unfold isPreChar, isIdChar. apply orb_true_iff in Hc as [Hc|Hc]; rewrite Hc;
    rewrite ?orb_true_r; reflexivity.
Qed.

Lemma solid_no_LF (s : jstring) :
  forallb solid s = true -> existsb (N.eqb LF) s = false.
Proof.
  intros H. apply MetaProps.notLT_no_LF, solid_notLT, H.
Qed.

Lemma matchCore_suffix (x y z q r : jstring) (sep : char) :
  isNumeric x = true -> isNumeric y = true -> isNumeric z = true ->
  isSuffixSep sep = true -> q <> [] -> forallb isSuffixChar q = true ->
  headNot isSuffixChar r = true ->
  matchCore (x ++ lit "." ++ y ++ lit "." ++ z ++ sep :: q ++ r)
  = Some (token x y z ++ sep :: q).
Proof.
  intros Hx Hy Hz Hs Hq Hqc Hr. unfold matchCore, token.
  assert (Hd : headNot isDigit (sep :: q ++ r) = true).
  { simpl. apply negb_true_iff. unfold isSuffixSep in Hs. unfold isDigit.
    change (ch "-") with 45%N in Hs. change (ch "+") with 43%N in Hs.
    change (ch ".") with 46%N in Hs. change (ch "_") with 95%N in Hs.
    apply andb_false_iff. char_hyps; subst; auto. }
  rewrite (takeWhile_app_stop isDigit x), (dropWhile_app_stop isDigit x);
    try (apply numeric_allDigits, Hx); try reflexivity.
  rewrite expect_dot.
  rewrite (takeWhile_app_stop isDigit y), (dropWhile_app_stop isDigit y);
    try (apply numeric_allDigits, Hy); try reflexivity.
  rewrite expect_dot.
  rewrite (takeWhile_app_stop isDigit z), (dropWhile_app_stop isDigit z);
    try (apply numeric_allDigits, Hz); try exact Hd.
  rewrite (numeric_truthy _ Hx), (numeric_truthy _ Hy), (numeric_truthy _ Hz).
  rewrite Hs, (takeWhile_app_stop isSuffixChar q r Hqc Hr).
  destruct q as [|c q]; [contradiction|]. cbn [truthy andb].
  rewrite <- !app_assoc. reflexivity.
Qed.

Lemma matchCore_version (next rest : jstring) :
  valid next = Some next ->
  headNot isSuffixChar rest = true -> stops rest = true ->
  matchCore (next ++ rest) = Some next.
Proof.
  intros Hv Hr Hs. destruct (valid_shape _ _ Hv) as (x & p & E & Hp).
  rewrite E. unfold mainString. rewrite <- !app_assoc.
  destruct Hp as [->|(q & -> & Hq & Hqc)].
  - rewrite app_nil_r. cbn [app].
    rewrite matchCore_token; auto using toDec_numeric.
  - change ((ch "-" :: q) ++ rest) with (ch "-" :: q ++ rest).
    rewrite matchCore_suffix; auto using toDec_numeric.
    + unfold token. rewrite <- !app_assoc. reflexivity.
    + revert Hqc. apply forallb_impl, preChar_suffix.
Qed.

Lemma valid_solid (next : jstring) :
  valid next = Some next ->
  forallb solid next = true /\ exists c r, next = c :: r /\ isDigit c = true.
Proof.
  intros Hv. destruct (valid_shape _ _ Hv) as (x & p & E & Hp). split.
  - rewrite E. rewrite forallb_app. apply andb_true_iff. split.
    + assert (D : forall n, forallb solid (toDec n) = true).
      { intros n. apply solid_digits, allDigits_toDec. }
      unfold mainString. rewrite !forallb_app, !D. reflexivity.
    + destruct Hp as [->|(q & -> & _ & Hq)]; [reflexivity|].
      simpl. revert Hq. apply forallb_impl, preChar_solid.
  - rewrite E. apply mainString_head.
Qed.

Lemma solid_trimEnd (s : jstring) : forallb solid s = true -> trimEnd s = s.
Proof.
  intros H. destruct s as [|c r]; [apply trimEnd_nil|].
  apply trimEnd_solid, solid_endsSolid; [reflexivity|exact H].
Qed.

Lemma solid_trim (s : jstring) : forallb solid s = true -> trim s = s.
Proof.
  intros H. destruct s as [|c r]; [reflexivity|].
  simpl in H. apply andb_true_iff in H as [Hc Hr].
  rewrite trim_solid by (apply negb_true_iff, Hc).
  f_equal. apply solid_trimEnd, Hr.
Qed.

Lemma trim_ends (s : jstring) :
  headNot isWhiteSpace s = true -> endsSolid s = true -> trim s = s.
Proof.
  intros Hh He. unfold trim, trimStart. rewrite dropWhile_id by exact Hh.
  apply trimEnd_solid, He.
Qed.

Lemma matchAt_bracket (d : char) (s : jstring) :
  isDigit d = true -> matchAt (ch "[" :: d :: s) = matchCore (d :: s).
Proof.
  intros Hd. unfold matchAt.
  destruct (isDigit_cases d Hd) as [->|[->|[->|[->|[->|[->|[->|[->|[->| ->]]]]]]]]];
    reflexivity.
Qed.

(** The heading the writer makes for a version in normal form reads back as
    that version. *)
Lemma release_heading_classified (next today : jstring) :
  valid next = Some next -> isDate today = true ->
  let h := lit "## [" ++ next ++ lit "] - " ++ today in
  isHeading h = true /\ trim h = h /\ existsb (N.eqb LF) h = false
  /\ classifyLine h = (Some next, []).
Proof.
  intros Hv Hd h.
  destruct (valid_solid _ Hv) as (Hn & c & r & En & Hc).
  pose proof (date_preChars _ Hd) as Hp.
  assert (Ht : forallb solid today = true).
  { revert Hp. apply forallb_impl, preChar_solid. }
  assert (Htn : truthy today = true).
  { unfold isDate in Hd. apply andb_true_iff in Hd as [Hd _]. exact Hd. }
  assert (Hend : endsSolid today = true) by (apply solid_endsSolid; assumption).
  assert (Hh : isHeading h = true) by reflexivity.
  set (R := lit "[" ++ next ++ lit "] - " ++ today).
  assert (ER : endsSolid R = true).
  { unfold R. rewrite !app_assoc. apply endsSolid_app, Hend. }
  assert (Etrim : trim h = h).
  { apply trim_ends; [reflexivity|]. unfold h. rewrite !app_assoc.
    apply endsSolid_app, Hend. }
  assert (Hlf : existsb (N.eqb LF) h = false).
  { unfold h. rewrite !existsb_app.
    repeat (apply orb_false_iff; split); try reflexivity;
      [exact (solid_no_LF _ Hn)|exact (solid_no_LF _ Ht)]. }
  repeat split; auto.
  rewrite (classifyLine_unfold h Hh), Etrim.
  assert (EH : headerTextOf h = R).
  { unfold headerTextOf.
    change h with (lit "## " ++ R). rewrite headingMatch_intro.
    rewrite dropWhile_id by reflexivity.
    assert (N : forallb notLineTerminator R = true).
    { unfold R. rewrite !forallb_app.
      repeat (apply andb_true_iff; split); try reflexivity;
        [exact (solid_notLT _ Hn)|exact (solid_notLT _ Ht)]. }
    destruct (takeWhile_id _ _ N) as [-> _].
    apply trim_ends; [reflexivity|exact ER]. }
  rewrite EH. unfold classifyHeading.
  assert (EM : versionMatch R = Some next).
  { rewrite versionMatch_unfold. unfold R. rewrite En.
    change (lit "[" ++ (c :: r) ++ lit "] - " ++ today)
      with (ch "[" :: c :: (r ++ lit "] - " ++ today)).
    rewrite (matchAt_bracket _ _ Hc).
    change (c :: r ++ lit "] - " ++ today) with ((c :: r) ++ lit "] - " ++ today).
    rewrite <- En. rewrite matchCore_version; auto. }
  rewrite EM, (solid_trim _ Hn), Hv, (valid_truthy _ _ Hv). reflexivity.
Qed.

Lemma plainText_parts (s : jstring) :
  plainText s = true ->
  trim s = s /\ forallb (fun l => negb (isHeading l)) (splitLines s) = true
  /\ closeLines (splitLines s) = s ++ [LF].
Proof.
  unfold plainText, plainLines. intros H.
  apply andb_true_iff in H as [H1 H]. apply andb_true_iff in H as [H2 H3].
  apply eqb_eq in H1, H3. auto.
Qed.

Lemma releaseEntry_reparsable (next today notes : jstring) :
  valid next = Some next -> isDate today = true -> plainText notes = true ->
  reparsable (releaseEntry next today notes) = true.
Proof.
  intros Hv Hd Hp.
  destruct (release_heading_classified next today Hv Hd) as (H1 & H2 & H3 & H4).
  destruct (plainText_parts _ Hp) as (P1 & P2 & P3).
  unfold reparsable, releaseEntry. cbn [header content version].
  rewrite H1, H3, H2, H4, P1, P2, P3, !eqb_refl. cbn [fst optionEqb negb andb].
  rewrite eqb_refl. reflexivity.
Qed.

Lemma splitLines_para (a rest : jstring) :
  endsWithCR a = false ->
  splitLines (a ++ [LF; LF] ++ rest) = splitLines a ++ [] :: splitLines rest.
Proof.
  intros H. change (a ++ [LF; LF] ++ rest) with (a ++ LF :: (LF :: rest)).
  rewrite (splitLines_append _ _ H). reflexivity.
Qed.

Lemma blocksOf_skip (a b : list jstring) :
  forallb (fun l => negb (isHeading l)) a = true -> blocksOf (a ++ b) = blocksOf b.
Proof.
  induction a as [|l a IH]; [reflexivity|]. simpl. intros H.
  apply andb_true_iff in H as [Hl Ha]. apply negb_true_iff in Hl.
  rewrite Hl. auto.
Qed.

Lemma beforeHeading_app (a : list jstring) (h : jstring) (b : list jstring) :
  forallb (fun l => negb (isHeading l)) a = true -> isHeading h = true ->
  beforeHeading (a ++ h :: b) = a.
Proof.
  intros Ha Hh. induction a as [|l a IH]; simpl.
  - rewrite Hh. reflexivity.
  - simpl in Ha. apply andb_true_iff in Ha as [Hl Ha]. apply negb_true_iff in Hl.
    rewrite Hl, (IH Ha). reflexivity.
Qed.

Lemma filter_heading_app (a b : list jstring) :
  forallb (fun l => negb (isHeading l)) a = true ->
  filter isHeading (a ++ b) = filter isHeading b.
Proof.
  induction a as [|l a IH]; [reflexivity|]. simpl. intros H.
  apply andb_true_iff in H as [Hl Ha]. apply negb_true_iff in Hl.
  rewrite Hl. auto.
Qed.

Lemma headings_of_block (e : ChangelogEntry) (last : bool) (rest : list jstring) :
  reparsable e = true ->
  filter isHeading (blockLines e last ++ rest) = header e :: filter isHeading rest.
Proof.
  intros He. destruct (reparsable_parts e He) as (Hh & _).
  destruct (bodyLines_ok e last He) as [Hb _].
  unfold blockLines. cbn [app filter]. rewrite Hh.
  rewrite (filter_heading_app _ _ Hb). reflexivity.
Qed.

Lemma headings_of_entries (es : list ChangelogEntry) :
  forallb reparsable es = true -> filter isHeading (linesOf es) = map header es.
Proof.
  induction es as [|e es IH]; [reflexivity|]. intros H.
  simpl in H. apply andb_true_iff in H as [He Hes].
  destruct es as [|e' es].
  - cbn [linesOf map]. rewrite <- (app_nil_r (blockLines e true)).
    rewrite (headings_of_block e true [] He). reflexivity.
  - change (linesOf (e :: e' :: es)) with (blockLines e false ++ linesOf (e' :: es)).
    rewrite (headings_of_block e false _ He), (IH Hes). reflexivity.
Qed.

Lemma title_line (t : jstring) :
  startsWith (lit "# ") t = true ->
  isHeading t = false /\ headNot isWhiteSpace t = true.
Proof.
  destruct t as [|a [|b t]]; cbn [startsWith lit map list_ascii_of_string];
    intros H; try discriminate;
    apply andb_true_iff in H as [Ha H]; try discriminate.
  apply andb_true_iff in H as [Hb _].
  apply N.eqb_eq in Ha, Hb. subst a b. split; reflexivity.
Qed.

(** The writer's text, line by line. *)
Lemma written_lines (pc : ParsedChangelog) (next today out notes : jstring) :
  readsBack pc = true -> valid next = Some next -> isDate today = true ->
  updateChangelog pc next today = Ok (out, notes) ->
  let es := releaseEntry next today notes :: keptEntries pc in
  let front := [title pc; []]
               ++ (if truthy (description pc)
                   then splitLines (description pc) ++ [[]] else []) in
  forallb reparsable es = true
  /\ forallb (fun l => negb (isHeading l)) front = true
  /\ splitLines out = front ++ [unreleasedHeader; []] ++ linesOf es.
Proof.
  intros Hrb Hv Hd Hup es front.
  destruct (updateChangelog_text _ _ _ _ _ Hup) as (u & Fu & En & Eout).
  unfold readsBack in Hrb. rewrite Fu in Hrb.
  apply andb_true_iff in Hrb as [Hrb Pu].
  apply andb_true_iff in Hrb as [Hrb R0].
  apply andb_true_iff in Hrb as [Hrb R1].
  apply andb_true_iff in Hrb as [Hrb R2].
  apply andb_true_iff in Hrb as [Hrb R3].
  apply andb_true_iff in Hrb as [Hrb R4].
  apply negb_true_iff in R4. apply eqb_eq in R3.
  destruct (plainText_parts _ R2) as (D1 & D2 & D3).
  destruct (title_line _ Hrb) as [Tnh Tsolid].
  assert (Hes : forallb reparsable es = true).
  { unfold es. cbn [forallb]. rewrite R0, andb_true_r. subst notes.
    apply releaseEntry_reparsable; assumption. }
  assert (Hfront : forallb (fun l => negb (isHeading l)) front = true).
  { unfold front. cbn [app forallb]. rewrite Tnh. cbn [negb andb].
    change (isHeading []) with false. cbn [negb andb].
    destruct (truthy (description pc)); [|reflexivity].
    rewrite forallb_app, D2. reflexivity. }
  split; [exact Hes|]. split; [exact Hfront|].
  set (B := List.concat (map renderEntry es)).
  assert (HB : forallb isWhiteSpace B = false).
  { unfold B, es. cbn [map List.concat]. apply render_not_space. reflexivity. }
  assert (E : out = preambleOf pc ++ trimEnd B ++ [LF]).
  { rewrite Eout.
    replace (preambleOf pc
             ++ renderEntry {| version := Some next;
                               header := lit "## [" ++ next ++ lit "] - " ++ today;
                               content := content u |}
             ++ List.concat (map renderEntry (keptEntries pc)))
      with (preambleOf pc ++ B) by (unfold B, es, releaseEntry; subst notes; reflexivity).
    unfold trim, trimStart. rewrite dropWhile_id.
    - rewrite (trimEnd_app_nonspace _ _ HB). symmetry. apply app_assoc.
    - unfold preambleOf. destruct (title pc) as [|c t]; [discriminate|].
      simpl in Tsolid.
      destruct (truthy (description pc)); simpl; exact Tsolid. }
  rewrite E. unfold preambleOf, front.
  pose proof (trimmed_no_CR _ R3) as Tcr.
  pose proof (trimmed_no_CR _ D1) as Dcr.
  assert (Ucr : endsWithCR (lit "## [Unreleased]") = false) by reflexivity.
  assert (Lines : splitLines (trimEnd B ++ [LF]) = linesOf es).
  { unfold B. apply splitLines_entries; [exact Hes|discriminate]. }
  destruct (truthy (description pc)).
  - rewrite <- !app_assoc.
    rewrite (splitLines_para _ _ Tcr), (splitLines_para _ _ Dcr),
      (splitLines_para _ _ Ucr), Lines.
    rewrite (splitLines_single _ R4). rewrite <- ?app_assoc. reflexivity.
  - rewrite <- !app_assoc.
    rewrite (splitLines_para _ _ Tcr), (splitLines_para _ _ Ucr), Lines.
    rewrite (splitLines_single _ R4). reflexivity.
Qed.

Lemma filter_all {A : Type} (p : A -> bool) (l : list A) :
  forallb p l = true -> filter p l = l.
Proof.
  induction l as [|x l IH]; [reflexivity|]. simpl. intros H.
  apply andb_true_iff in H as [Hx Hl]. rewrite Hx, (IH Hl). reflexivity.
Qed.

Lemma readsBack_parts (pc : ParsedChangelog) :
  readsBack pc = true ->
  startsWith (lit "# ") (title pc) = true
  /\ trim (title pc) = title pc
  /\ plainText (description pc) = true
  /\ forallb (fun l => negb (startsWith (lit "# ") l)) (splitLines (description pc))
     = true.
Proof.
  unfold readsBack. intros Hrb.
  apply andb_true_iff in Hrb as [Hrb _].
  apply andb_true_iff in Hrb as [Hrb _].
  apply andb_true_iff in Hrb as [Hrb R1].
  apply andb_true_iff in Hrb as [Hrb R2].
  apply andb_true_iff in Hrb as [Hrb R3].
  apply andb_true_iff in Hrb as [Hrb _].
  apply eqb_eq in R3. auto.
Qed.

Lemma written_blocks (pc : ParsedChangelog) (next today out notes : jstring) :
  readsBack pc = true -> valid next = Some next -> isDate today = true ->
  updateChangelog pc next today = Ok (out, notes) ->
  map entryOf (blocksOf (splitLines out))
  = synthesized [] :: releaseEntry next today notes :: keptEntries pc.
Proof.
  intros Hrb Hv Hd Hup.
  destruct (written_lines pc next today out notes Hrb Hv Hd Hup)
    as (Hes & Hfront & Hlines).
  set (es := releaseEntry next today notes :: keptEntries pc) in *.
  set (front := [title pc; []]
                ++ (if truthy (description pc)
                    then splitLines (description pc) ++ [[]] else [])) in *.
  rewrite <- headingEntries_blocks. unfold headingEntries.
  fold (pending (fold_left step (splitLines out) initialState)).
  rewrite Hlines, !app_assoc, headingEntries_app, (fold_blocks _ _ Hes).
  rewrite loop_blocks. cbn [initialState st_currentEntry st_entries app].
  rewrite (blocksOf_skip _ _ Hfront). reflexivity.
Qed.

Lemma written_entries (pc : ParsedChangelog) (next today out notes : jstring) :
  readsBack pc = true -> valid next = Some next -> isDate today = true ->
  updateChangelog pc next today = Ok (out, notes) ->
  entries (parseChangelogText out)
  = synthesized [] :: releaseEntry next today notes :: keptEntries pc.
Proof.
  intros Hrb Hv Hd Hup. pose proof (parsed_entries out) as E. cbv zeta in E.
  rewrite (written_blocks pc next today out notes Hrb Hv Hd Hup) in E.
  exact E.
Qed.

(** X14.  Reading back what the writer wrote, for a changelog with a title line
    whose description, unreleased notes and released entries read back as
    themselves, and a next version in normal form: the title and the
    description are the same; the entries are an unreleased entry without
    content, the entry of the new release with the notes as content, and the
    released entries as they were; the warnings are those of the headings of
    the released entries and the one that the unreleased section is empty. *)
Theorem written_changelog_reads_back (pc : ParsedChangelog)
    (next today out notes : jstring) :
  readsBack pc = true -> valid next = Some next -> isDate today = true ->
  updateChangelog pc next today = Ok (out, notes) ->
  title (parseChangelogText out) = title pc
  /\ description (parseChangelogText out) = description pc
  /\ entries (parseChangelogText out)
     = synthesized [] :: releaseEntry next today notes :: keptEntries pc
  /\ warnings (parseChangelogText out)
     = List.concat (map (fun e => snd (classifyLine (header e))) (keptEntries pc))
       ++ [emptyWarning].
Proof.
  intros Hrb Hv Hd Hup.
  destruct (written_lines pc next today out notes Hrb Hv Hd Hup)
    as (Hes & Hfront & Hlines).
  destruct (readsBack_parts pc Hrb) as (Ht1 & Ht2 & Hdp & Hdt).
  destruct (plainText_parts _ Hdp) as (D1 & D2 & D3).
  pose proof (written_blocks pc next today out notes Hrb Hv Hd Hup) as Hhs.
  set (es := releaseEntry next today notes :: keptEntries pc) in *.
  set (front := [title pc; []]
                ++ (if truthy (description pc)
                    then splitLines (description pc) ++ [[]] else [])) in *.
  split; [|split; [|split]].
  - rewrite parsed_title, Hlines. unfold front. cbn [app find]. rewrite Ht1.
    exact Ht2.
  - rewrite parsed_description, Hhs. cbn [existsb].
    change (isUnreleased (synthesized [])) with true. cbn [orb].
    unfold preambleText. rewrite Hlines.
    change ([unreleasedHeader; []] ++ linesOf es)
      with (unreleasedHeader :: [] :: linesOf es).
    rewrite (beforeHeading_app _ _ _ Hfront) by reflexivity.
    unfold front. cbn [app filter]. rewrite Ht1. cbn [negb].
    change (startsWith (lit "# ") []) with false. cbn [negb].
    destruct (truthy (description pc)) eqn:Td.
    + rewrite filter_app, (filter_all _ _ Hdt). cbn [filter].
      change (startsWith (lit "# ") []) with false. cbn [negb].
      rewrite closeLines_cons, closeLines_app, D3.
      change (closeLines [[]]) with [LF]. rewrite <- ?app_assoc.
      transitivity (trim (description pc)); [|exact D1].
      apply (trim_pad [LF] (description pc) [LF; LF]); reflexivity.
    + destruct (description pc); [reflexivity|discriminate].
  - exact (written_entries pc next today out notes Hrb Hv Hd Hup).
  - rewrite (parsed_warnings_found out (synthesized [])) by (rewrite Hhs; reflexivity).
    cbn [content synthesized]. change (isBlank []) with true. cbv iota.
    f_equal. unfold headingWarnings. rewrite Hlines.
    rewrite (filter_heading_app _ _ Hfront).
    cbn [app filter]. change (isHeading unreleasedHeader) with true.
    change (isHeading []) with false. cbv iota.
    rewrite (headings_of_entries _ Hes). unfold es. cbn [map List.concat].
    change (snd (classifyLine unreleasedHeader)) with (@nil jstring).
    destruct (release_heading_classified next today Hv Hd) as (_ & _ & _ & C).
    cbn [header releaseEntry]. rewrite C. cbn [snd app].
    rewrite map_map. reflexivity.
Qed.

Lemma written_changelog_reads_back_witness :
  exists out notes,
    updateChangelog releasedChangelog (lit "1.0.1") (lit "2025-01-01") = Ok (out, notes)
    /\ title (parseChangelogText out) = title releasedChangelog
    /\ description (parseChangelogText out) = description releasedChangelog
    /\ entries (parseChangelogText out)
       = synthesized [] :: releaseEntry (lit "1.0.1") (lit "2025-01-01") notes
         :: keptEntries releasedChangelog
    /\ warnings (parseChangelogText out)
       = List.concat (map (fun e => snd (classifyLine (header e)))
                          (keptEntries releasedChangelog))
         ++ [emptyWarning].
Proof.
  destruct (updateChangelog releasedChangelog (lit "1.0.1") (lit "2025-01-01"))
    as [[out notes]|m] eqn:E; [|vm_compute in E; discriminate E].
  exists out, notes. split; [reflexivity|].
  apply (written_changelog_reads_back releasedChangelog (lit "1.0.1")
           (lit "2025-01-01") out notes);
    first [exact E | vm_compute; reflexivity].
Defined.

Lemma lower_digit_head (lowerJS : jstring -> jstring) (next : jstring) :
  ReleaseNotes.lowerOnAscii lowerJS -> valid next = Some next ->
  JS.eqb (lowerJS unreleased) (lowerJS next) = false.
Proof.
  intros L Hv. rewrite (L unreleased) by reflexivity.
  rewrite (L next) by (apply (valid_ascii _ _ Hv)).
  destruct (valid_solid _ Hv) as (_ & c & r & -> & Hc).
  destruct (isDigit_cases c Hc) as [->|[->|[->|[->|[->|[->|[->|[->|[->| ->]]]]]]]]];
    reflexivity.
Qed.

(** X15.  The notes of a release are what was pending: when the changelog the
    writer wrote for a next version is the changelog of the project, the
    script get-release-notes, asked for that version, prints the heading of
    the new release, an empty line and the notes the writer returned, and
    nothing else. *)
Theorem notes_of_written_release (lowerJS : jstring -> jstring) (fs : Files)
    (versionArg : option jstring) (pc : ParsedChangelog)
    (next today out notes : jstring) :
  ReleaseNotes.lowerOnAscii lowerJS ->
  readsBack pc = true -> valid next = Some next -> isDate today = true ->
  updateChangelog pc next today = Ok (out, notes) ->
  changelogMd fs = Some out ->
  ReleaseNotes.targetVersionOf fs versionArg = Ok next ->
  ReleaseNotes.main lowerJS fs versionArg
  = ([Stdout (lit "## [" ++ next ++ lit "] - " ++ today ++ [LF; LF] ++ notes)],
     Done tt).
Proof.
  intros L Hrb Hv Hd Hup Hfs Ht.
  pose proof (written_entries pc next today out notes Hrb Hv Hd Hup) as He.
  destruct (written_lines pc next today out notes Hrb Hv Hd Hup) as (Hes & _ & _).
  cbn [forallb] in Hes. apply andb_true_iff in Hes as [Hnew _].
  destruct (reparsable_parts _ Hnew) as (_ & _ & _ & _ & Hc & _).
  cbn [content releaseEntry] in Hc.
  assert (Tn : truthy notes = true).
  { unfold updateChangelog in Hup.
    destruct (find isUnreleased (entries pc)) as [u|]; [|discriminate].
    destruct (truthy (content u)) eqn:T; [|discriminate].
    cbn [negb] in Hup. injection Hup as _ <-. exact T. }
  unfold ReleaseNotes.main. rewrite Ht. cbn [ReleaseNotes.attempt bind ret].
  rewrite (valid_truthy _ _ Hv). cbn [negb when bind ret].
  unfold parseChangelog, readFile. rewrite Hfs.
  cbn [ReleaseNotes.attempt bind ret]. rewrite He. cbn [find].
  unfold ReleaseNotes.matchesVersion at 1. cbn [version synthesized].
  rewrite (lower_digit_head _ _ L Hv).
  unfold ReleaseNotes.matchesVersion. cbn [version releaseEntry].
  rewrite eqb_refl. cbn [content releaseEntry]. rewrite Tn.
  unfold ReleaseNotes.bodyOf. cbn [header content releaseEntry].
  rewrite trimEnd_solid; [rewrite <- !app_assoc; reflexivity|].
  rewrite app_assoc. apply endsSolid_app, trimmed_solid; [exact Hc|].
  intros ->. discriminate.
Qed.

Lemma notes_of_written_release_witness :
  exists out notes,
    updateChangelog releasedChangelog (lit "1.0.1") (lit "2025-01-01") = Ok (out, notes)
    /\ ReleaseNotes.main toLowerCase (filesWith out) (Some (lit "1.0.1"))
       = ([Stdout (lit "## [" ++ lit "1.0.1" ++ lit "] - " ++ lit "2025-01-01"
                   ++ [LF; LF] ++ notes)], Done tt).
Proof.
  destruct (updateChangelog releasedChangelog (lit "1.0.1") (lit "2025-01-01"))
    as [[out notes]|m] eqn:E; [|vm_compute in E; discriminate E].
  exists out, notes. split; [reflexivity|].
  apply (notes_of_written_release toLowerCase (filesWith out) (Some (lit "1.0.1"))
           releasedChangelog (lit "1.0.1") (lit "2025-01-01") out notes);
    first [exact E | intros s _; reflexivity | vm_compute; reflexivity].
Defined.

End ReadBackProps.

(* ===================================================================== *)
(** ** Line ends, explicit versions and the form of the written text *)
(* ===================================================================== *)

Module FormatProps.
Import Dec SemVer ReleaseUtils Release Spec Examples Effects Samples.
Import StringFacts SemVerFacts WriterProps RoundTripProps OrchestratorProps TraceFacts.

Lemma splitLines_toCRLF (s : jstring) :
  existsb (N.eqb CR) s = false -> splitLines (toCRLF s) = splitLines s.
Proof.
  induction s as [|c s IH]; [reflexivity|].
  cbn [existsb]. intros H. apply orb_false_iff in H as [Hc Hs].
  specialize (IH Hs). unfold toCRLF in *. cbn [flat_map].
  destruct (N.eqb c LF) eqn:E.
  - apply N.eqb_eq in E. subst c. cbn [app].
    rewrite splitLines_cons. change (N.eqb CR LF) with false.
    change (N.eqb CR CR) with true. cbn [andb]. change (N.eqb LF LF) with true.
    cbv iota. rewrite !(splitLines_cons LF). change (N.eqb LF LF) with true.
    cbv iota. rewrite IH. reflexivity.
  - cbn [app]. rewrite !(splitLines_cons c), E, IH.
    rewrite N.eqb_sym in Hc. rewrite Hc. reflexivity.
Qed.

(** X16.  The parser reads a text with Windows line ends as it reads the text with
    plain newlines. *)
Theorem crlf_insensitive (text : jstring) :
  existsb (N.eqb CR) text = false ->
  parseChangelogText (toCRLF text) = parseChangelogText text.
Proof.
  intros H. unfold parseChangelogText. rewrite (splitLines_toCRLF _ H). reflexivity.
Qed.

Lemma crlf_insensitive_witness :
  parseChangelogText (toCRLF releasedText) = parseChangelogText releasedText.
Proof. apply (crlf_insensitive releasedText). reflexivity. Defined.

(** X17.  An argument that is not a bump keyword is taken as the version itself:
    the next version is its normal form, for a pre-release without the dot
    before the trailing number, whatever the branches and the current version
    are; an argument that is not a version ends the run with exit status 1
    and the message that names it, before anything is written or run. *)
Theorem explicit_version_resolved (w : World) (args : Args) (versionArg : jstring)
    (rest : list jstring) (meta : ProjectInfo) (text : jstring) :
  help args = false -> versionFlag args = false ->
  positionals args = versionArg :: rest -> truthy versionArg = true ->
  getProjectInfo (files w) = Ok meta ->
  checkVersionCoherency meta = Ok tt ->
  changelogMd (files w) = Some text ->
  (strict args = true -> warnings (parseChangelogText text) = []) ->
  releaseTypeOf versionArg = None ->
  (forall v, valid versionArg = Some v ->
     stageResolve w (pi_version meta) versionArg (preid args)
     = ret (match prereleaseOf v with Some _ => removeDot v | None => v end))
  /\ (valid versionArg = None ->
      exists t, main w args = (t, Exit 1%N)
                /\ untouched t
                /\ stderrOf t = [errorLine (lit "Invalid version: " ++ versionArg)]).
Proof.
  intros Hh Hv Hp Ht Hinfo Hcoh Hfs Hs Hr. split.
  - intros v Hval. unfold stageResolve. rewrite Hr, Hval. cbn [bind ret].
    unfold finishNext. rewrite (valid_truthy _ _ Hval). cbn [negb].
    destruct (prereleaseOf v); reflexivity.
  - intros Hval.
    pose proof (stageParse_pass w (strict args) text Hfs Hs) as Hparse.
    destruct (stageEnsure_pass (strict args) text Hs) as (te & pc & Hens & E1 & E2).
    assert (Hres : stageResolve w (pi_version meta) versionArg (preid args)
                   = ([Stderr (errorLine (lit "Invalid version: " ++ versionArg))],
                      Exit 1%N)).
    { unfold stageResolve. rewrite Hr, Hval. reflexivity. }
    eexists. split; [|split].
    + rewrite (main_release w args versionArg rest Hh Hv Hp Ht).
      exact (release_resolve_exit w args versionArg meta _ _ _ _ _ _
               Hinfo Hcoh Hparse Hens Hres).
    + destruct (logsBefore_quiet args) as [_ L2].
      destruct (warnLines_quiet (warnings (parseChangelogText text))) as [_ W2].
      apply untouched_app; [exact L2|]. apply untouched_app; [exact W2|].
      apply untouched_app; [exact E2|reflexivity].
    + destruct (logsBefore_quiet args) as [L1 _].
      destruct (warnLines_quiet (warnings (parseChangelogText text))) as [W1 _].
      rewrite !stderrOf_app, L1, W1, E1. reflexivity.
Qed.

Lemma explicit_version_resolved_witness :
  (forall v, valid (lit "v2.0.0-rc.1") = Some v ->
     stageResolve (testWorld pendingText (Some (lit "main")) (Some (lit "main")))
       (lit "1.0.0") (lit "v2.0.0-rc.1") None
     = ret (match prereleaseOf v with Some _ => removeDot v | None => v end))
  /\ (valid (lit "v2.0.0-rc.1") = None ->
      exists t,
        main (testWorld pendingText (Some (lit "main")) (Some (lit "main")))
             (testArgs (lit "v2.0.0-rc.1") false) = (t, Exit 1%N)
        /\ untouched t
        /\ stderrOf t = [errorLine (lit "Invalid version: " ++ lit "v2.0.0-rc.1")]).
Proof.
  apply (explicit_version_resolved
           (testWorld pendingText (Some (lit "main")) (Some (lit "main")))
           (testArgs (lit "v2.0.0-rc.1") false) (lit "v2.0.0-rc.1") []
           {| id := lit "test"; pi_version := lit "1.0.0";
              minAppVersion := lit "1.0.0"; pkgVersion := lit "1.0.0";
              versions := [(lit "1.0.0", lit "1.0.0")] |} pendingText);
    reflexivity.
Defined.

(** X18.  The writer fails, with the message that there are no unreleased changes,
    exactly when the changelog has no unreleased entry or the first one has
    an empty content.  Otherwise it returns that content, and the text it
    writes begins with a code unit that is not white space and ends with
    one that is not white space followed by one newline. *)
Theorem writer_text_form (pc : ParsedChangelog) (next today : jstring) :
  match find isUnreleased (entries pc) with
  | Some u =>
      if truthy (content u)
      then exists body,
             updateChangelog pc next today = Ok (body ++ [LF], content u)
             /\ headNot isWhiteSpace body = true /\ endsSolid body = true
      else updateChangelog pc next today
           = Throw (lit "No unreleased changes found in CHANGELOG.md.")
  | None => updateChangelog pc next today
            = Throw (lit "No unreleased changes found in CHANGELOG.md.")
  end.
Proof.
  destruct (find isUnreleased (entries pc)) as [u|] eqn:F;
    [|unfold updateChangelog; rewrite F; reflexivity].
  destruct (truthy (content u)) eqn:T;
    [|unfold updateChangelog; rewrite F, T; reflexivity].
  destruct (updateChangelog pc next today) as [[out notes]|m] eqn:E.
  - destruct (updateChangelog_text _ _ _ _ _ E) as (u' & F' & -> & ->).
    rewrite F in F'. injection F' as <-.
    eexists. split; [reflexivity|].
    match goal with |- context [trim ?x] => set (X := x) end.
    assert (HX : forallb isWhiteSpace X = false).
    { unfold X. rewrite forallb_app, preamble_not_space. reflexivity. }
    split.
    + unfold trim. pose proof (dropWhile_head isWhiteSpace X) as H.
      fold (trimStart X) in H.
      destruct (trimEnd_prefix (trimStart X)) as (ws & Hw & _).
      destruct (trimEnd (trimStart X)) as [|c r]; [reflexivity|].
      rewrite Hw in H. exact H.
    + unfold trim. destruct (trimEnd_shape (trimStart X)) as [N|S]; [|exact S].
      exfalso. unfold trimStart in N.
      pose proof (trimEnd_prefix (dropWhile isWhiteSpace X)) as (ws & Hw & Hws).
      rewrite N in Hw. simpl in Hw.
      rewrite <- (takeWhile_dropWhile isWhiteSpace X), forallb_app, takeWhile_all,
        Hw, Hws in HX. discriminate.
  - unfold updateChangelog in E. rewrite F, T in E. discriminate.
Qed.

End FormatProps.

(* ===================================================================== *)
(** ** The plugin: literal rules and the paste handler *)
(* ===================================================================== *)

Module PluginProps.
Import ReleaseUtils RegExp Plugin PluginSamples.
Import StringFacts.

(** *** Escaping *)

Lemma special_syntax (c : char) : special c = isSyntaxCharacter c.
Proof.
  apply eq_true_iff_eq. unfold special, isSyntaxCharacter.
  rewrite orb_true_iff, !existsb_exists. split.
  - intros [(x & Hx & E)|E].
    + exists x. split; [|exact E]. simpl in Hx |- *. intuition.
    + exists backslash. split; [simpl; auto|exact E].
  - intros (x & Hx & E). simpl in Hx.
    destruct Hx as [<-|Hx]; [left; exists (ch "^"); split; [simpl; auto 20|exact E]|].
    destruct Hx as [<-|Hx]; [left; exists (ch "$"); split; [simpl; auto 20|exact E]|].
    destruct Hx as [<-|Hx]; [right; exact E|].
    left. exists x. split; [|exact E]. simpl. intuition.
Qed.

Lemma special_backslash (c : char) : special c = false -> N.eqb c backslash = false.
Proof. unfold special. intros H. apply orb_false_iff in H as [_ H]. exact H. Qed.

(** The escaped pattern stands for the pattern itself. *)
Lemma literalOf_escaped (p : jstring) : literalOf (escaped p) = Some p.
Proof.
  induction p as [|c p IH]; [reflexivity|].
  unfold escaped. cbn [flat_map]. fold (escaped p).
  destruct (special c) eqn:S.
  - cbn [app literalOf]. change (N.eqb backslash backslash) with true. cbv iota.
    rewrite <- special_syntax, S, IH. reflexivity.
  - cbn [app literalOf]. rewrite (special_backslash _ S).
    rewrite <- special_syntax, S, IH. reflexivity.
Qed.

(** *** Removal *)

Lemma removeFrom_absent (p text : jstring) :
  includes p text = false -> removeFrom p 0 text = text.
Proof.
  induction text as [|c text IH]; intros H; [reflexivity|].
  cbn [includes] in H. apply orb_false_iff in H as [H1 H2].
  cbn [removeFrom]. rewrite H1, (IH H2). reflexivity.
Qed.

Lemma removeAll_absent (p text : jstring) :
  includes p text = false -> removeAll p text = text.
Proof. destruct p; [reflexivity|]. apply removeFrom_absent. Qed.

Lemma removeFrom_length (p : jstring) (k : nat) (text : jstring) :
  List.length (removeFrom p k text) <= List.length text.
Proof.
  revert k. induction text as [|c text IH]; intros k; [simpl; lia|].
  cbn [removeFrom]. destruct k as [|k].
  - destruct (startsWith p (c :: text)).
    + specialize (IH (List.length p - 1)). simpl. lia.
    + specialize (IH 0). simpl. lia.
  - specialize (IH k). simpl. lia.
Qed.

Lemma removeAll_length (p text : jstring) :
  List.length (removeAll p text) <= List.length text.
Proof. destruct p; [simpl; lia|]. apply removeFrom_length. Qed.

Lemma removeFrom_inside (p a rest : jstring) :
  removeFrom p (List.length a) (a ++ rest) = removeFrom p 0 rest.
Proof. induction a as [|c a IH]; [reflexivity|]. cbn [List.length app removeFrom]. exact IH. Qed.

Lemma startsWith_app (p rest : jstring) : startsWith p (p ++ rest) = true.
Proof.
  induction p as [|c p IH]; [reflexivity|]. cbn [app startsWith].
  rewrite N.eqb_refl, IH. reflexivity.
Qed.

Lemma removeAll_here (p rest : jstring) :
  removeAll p (p ++ rest) = removeAll p rest.
Proof.
  destruct p as [|c p]; [reflexivity|]. unfold removeAll.
  change ((c :: p) ++ rest) with (c :: (p ++ rest)). cbn [removeFrom].
  change (c :: (p ++ rest)) with ((c :: p) ++ rest). rewrite startsWith_app.
  cbn [List.length]. rewrite Nat.sub_1_r. cbn [Nat.pred].
  apply removeFrom_inside.
Qed.

Lemma removeAll_skip (p : jstring) (c : char) (text : jstring) :
  startsWith p (c :: text) = false ->
  removeAll p (c :: text) = c :: removeAll p text.
Proof.
  intros H. destruct p as [|d p]; [discriminate|]. unfold removeAll.
  cbn [removeFrom]. rewrite H. reflexivity.
Qed.

(** *** Rules *)

Lemma textEngine_literal : literalEngine textEngine.
Proof.
  intros source p H Hp. unfold textEngine. rewrite H.
  destruct p as [|c p]; [contradiction|]. eexists. split; reflexivity.
Qed.

Lemma literal_rule (newRegExp : jstring -> result (jstring -> jstring))
    (p : jstring) :
  literalEngine newRegExp -> p <> [] ->
  exists rule,
    newRemovalRule newRegExp p false = Ok rule
    /\ original rule = p /\ isRegex rule = false
    /\ forall text, pattern rule text = removeAll p text.
Proof.
  intros L Hp. destruct (L (escaped p) p (literalOf_escaped p) Hp) as (re & E & R).
  unfold newRemovalRule. destruct p as [|c p]; [contradiction|].
  cbn [List.length Nat.eqb]. rewrite E.
  eexists. split; [reflexivity|]. cbn. auto.
Qed.

(** X19.  A literal rule never fails to compile, whatever characters its text
    holds, the ones with a meaning in patterns included: the rule removes the
    occurrences of its text, found from left to right.  So it leaves a text
    without an occurrence as it is, removes an occurrence at the front, and
    never makes a text longer. *)
Theorem literal_rule_removes_text
    (newRegExp : jstring -> result (jstring -> jstring)) (p : jstring) :
  literalEngine newRegExp -> p <> [] ->
  exists rule,
    newRemovalRule newRegExp p false = Ok rule
    /\ original rule = p /\ isRegex rule = false
    /\ (forall text, includes p text = false -> applyRules (Some text) [rule] = text)
    /\ (forall text, applyRules (Some (p ++ text)) [rule] = applyRules (Some text) [rule])
    /\ (forall c text, startsWith p (c :: text) = false ->
          applyRules (Some (c :: text)) [rule] = c :: applyRules (Some text) [rule])
    /\ (forall text, List.length (applyRules (Some text) [rule]) <= List.length text).
Proof.
  intros L Hp. destruct (literal_rule newRegExp p L Hp) as (rule & E & O & I & R).
  exists rule. repeat split; auto; cbn [applyRules fold_left].
  - intros text H. rewrite R. apply removeAll_absent. exact H.
  - intros text. rewrite !R. apply removeAll_here.
  - intros c text H. rewrite !R. apply removeAll_skip. exact H.
  - intros text. rewrite R. apply removeAll_length.
Qed.

Lemma literal_rule_removes_text_witness :
  exists rule,
    newRemovalRule textEngine trackerRule false = Ok rule
    /\ original rule = trackerRule /\ isRegex rule = false
    /\ (forall text, includes trackerRule text = false ->
          applyRules (Some text) [rule] = text)
    /\ (forall text, applyRules (Some (trackerRule ++ text)) [rule]
                     = applyRules (Some text) [rule])
    /\ (forall c text, startsWith trackerRule (c :: text) = false ->
          applyRules (Some (c :: text)) [rule] = c :: applyRules (Some text) [rule])
    /\ (forall text, List.length (applyRules (Some text) [rule]) <= List.length text).
Proof.
  apply (literal_rule_removes_text textEngine trackerRule).
  - exact textEngine_literal.
  - discriminate.
Defined.

(** *** The rules of the settings *)

Lemma nth_combine {A B : Type} (l : list A) (l' : list B) (i : nat) (a : A) (b : B) :
  i < List.length (combine l l') ->
  nth i (combine l l') (a, b) = (nth i l a, nth i l' b).
Proof.
  revert l' i. induction l as [|x l IH]; intros [|y l'] [|i] H; simpl in *;
    try lia; [reflexivity|]. apply IH. lia.
Qed.

Lemma skipn_nth {A : Type} (l : list A) (i : nat) (d : A) :
  i < List.length l -> skipn i l = nth i l d :: skipn (S i) l.
Proof.
  revert i. induction l as [|x l IH]; intros [|i] H; simpl in *; try lia.
  - reflexivity.
  - apply IH. lia.
Qed.

Lemma compileLoop_spec (newRegExp : jstring -> result (jstring -> jstring))
    (s : PasteCleanerSettings) (n i : nat) :
  i + n = List.length (combine (removalRules s) (s_isRegex s)) ->
  map (fun r => (original r, isRegex r)) (snd (compileLoop newRegExp s n i))
  = filter (compiles newRegExp) (skipn i (combine (removalRules s) (s_isRegex s)))
  /\ Forall (fun r => newRemovalRule newRegExp (original r) (isRegex r) = Ok r)
            (snd (compileLoop newRegExp s n i))
  /\ (debugMode s = false -> fst (compileLoop newRegExp s n i) = [])
  /\ forallb isConsole (fst (compileLoop newRegExp s n i)) = true.
Proof.
  revert i. induction n as [|n IH]; intros i H.
  - rewrite skipn_all2 by lia. cbn. auto.
  - rewrite (skipn_nth (combine (removalRules s) (s_isRegex s)) i
               (@nil char : jstring, false)) by lia.
    rewrite nth_combine by lia.
    destruct (IH (S i)) as (I1 & I2 & I3 & I4); [lia|].
    cbn [compileLoop].
    destruct (compileLoop newRegExp s n (S i)) as [logs rules].
    cbn [fst snd] in *. cbn [filter]. unfold compiles at 1. cbn [fst snd].
    destruct (truthy (nth i (removalRules s) [])) eqn:T; cbn [negb andb].
    + destruct (newRemovalRule newRegExp (nth i (removalRules s) [])
                  (nth i (s_isRegex s) false)) as [r|e] eqn:E.
      * cbn [fst snd map]. 
        assert (R : original r = nth i (removalRules s) []
                    /\ isRegex r = nth i (s_isRegex s) false).
        { unfold newRemovalRule in E.
          destruct (Nat.eqb _ 0); [discriminate|].
          destruct (newRegExp _); [|discriminate].
          injection E as <-. split; reflexivity. }
        destruct R as [R1 R2]. rewrite R1, R2, I1.
        repeat split; auto. constructor; [|exact I2]. rewrite R1, R2. exact E.
      * cbn [fst snd]. repeat split; auto.
        -- intros D. rewrite D. apply I3. exact D.
        -- rewrite forallb_app, I4, andb_true_r. destruct (debugMode s); reflexivity.
    + cbn [fst snd]. repeat split; auto.
      * intros D. rewrite D. apply I3. exact D.
      * rewrite forallb_app, I4, andb_true_r. destruct (debugMode s); reflexivity.
Qed.

Lemma length_combine_min {A B : Type} (l : list A) (l' : list B) :
  List.length (combine l l') = Nat.min (List.length l) (List.length l').
Proof. apply length_combine. Qed.

(** X20.  Compiling the rules never fails and keeps their order: the rules are
    those of the settings, pattern by flag up to the end of the shorter
    list, whose pattern is not empty and which the constructor accepts; an
    empty pattern and a pattern that does not compile only drop their own
    rule.  The console is written only, and nothing at all unless the debug
    mode is on. *)
Theorem rules_compiled_in_order
    (newRegExp : jstring -> result (jstring -> jstring))
    (s : PasteCleanerSettings) :
  map (fun r => (original r, isRegex r)) (snd (compileRules newRegExp s))
  = filter (compiles newRegExp) (combine (removalRules s) (s_isRegex s))
  /\ Forall (fun r => newRemovalRule newRegExp (original r) (isRegex r) = Ok r)
            (snd (compileRules newRegExp s))
  /\ (debugMode s = false -> fst (compileRules newRegExp s) = [])
  /\ forallb isConsole (fst (compileRules newRegExp s)) = true.
Proof.
  unfold compileRules. rewrite <- length_combine_min.
  exact (compileLoop_spec newRegExp s _ 0 eq_refl).
Qed.

(** *** Pasting with literal rules *)

Lemma literal_compiles (newRegExp : jstring -> result (jstring -> jstring))
    (p : jstring) :
  literalEngine newRegExp -> compiles newRegExp (p, false) = truthy p.
Proof.
  intros L. unfold compiles. cbn [fst snd]. destruct p as [|c p]; [reflexivity|].
  destruct (literal_rule newRegExp (c :: p) L) as (rule & E & _); [discriminate|].
  rewrite E. reflexivity.
Qed.

Lemma all_false (flags : list bool) (b : bool) :
  forallb negb flags = true -> In b flags -> b = false.
Proof.
  intros H Hb. rewrite forallb_forall in H. specialize (H b Hb).
  destruct b; [discriminate|reflexivity].
Qed.

Lemma map_fst_combine {A B : Type} (l : list A) (l' : list B) :
  map fst (combine l l') = firstn (List.length l') l.
Proof.
  revert l'. induction l as [|x l IH]; intros [|y l']; simpl; try reflexivity.
  - rewrite IH. reflexivity.
Qed.

Lemma filter_map_fst {A B : Type} (f : A -> bool) (l : list (A * B)) :
  map fst (filter (fun x => f (fst x)) l) = filter f (map fst l).
Proof.
  induction l as [|x l IH]; [reflexivity|]. simpl.
  destruct (f (fst x)); simpl; rewrite IH; reflexivity.
Qed.

Lemma fold_rules (rules : list RemovalRule) (text : jstring) :
  (forall r, In r rules -> forall t, pattern r t = removeAll (original r) t) ->
  fold_left (fun result rule => pattern rule result) rules text
  = fold_left (fun t p => removeAll p t) (map original rules) text.
Proof.
  revert text. induction rules as [|r rules IH]; intros text H; [reflexivity|].
  cbn [fold_left map]. rewrite (H r (or_introl eq_refl)). apply IH.
  intros r' Hr'. apply H. right. exact Hr'.
Qed.

(** With literal rules only, the compiled rules remove the texts of the
    settings that are not empty, one after the other. *)
Lemma applyRules_literal (newRegExp : jstring -> result (jstring -> jstring))
    (s : PasteCleanerSettings) (text : jstring) :
  literalEngine newRegExp -> forallb negb (s_isRegex s) = true ->
  applyRules (Some text) (snd (compileRules newRegExp s))
  = fold_left (fun t p => removeAll p t)
      (filter truthy (firstn (List.length (s_isRegex s)) (removalRules s))) text.
Proof.
  intros L F.
  assert (C := compileLoop_spec newRegExp s
                 (List.length (combine (removalRules s) (s_isRegex s))) 0 eq_refl).
  rewrite length_combine_min in C. fold (compileRules newRegExp s) in C.
  destruct C as (C1 & C2 & _). cbn [skipn] in C1.
  assert (E : filter (compiles newRegExp) (combine (removalRules s) (s_isRegex s))
              = filter (fun x => truthy (fst x))
                       (combine (removalRules s) (s_isRegex s))).
  { apply filter_ext_in. intros [p b] H. apply in_combine_r in H.
    rewrite (all_false _ _ F H). apply literal_compiles. exact L. }
  rewrite E in C1. cbn [applyRules]. rewrite fold_rules.
  - f_equal. rewrite <- map_fst_combine, <- filter_map_fst, <- C1, map_map.
    reflexivity.
  - intros r Hr t. rewrite Forall_forall in C2. specialize (C2 r Hr).
    assert (Hin : In (original r, isRegex r)
                     (filter (fun x => truthy (fst x))
                             (combine (removalRules s) (s_isRegex s)))).
    { rewrite <- C1. apply (in_map (fun r => (original r, isRegex r))). exact Hr. }
    apply filter_In in Hin as [Hin T]. cbn [fst] in T.
    apply in_combine_r in Hin. rewrite (all_false _ _ F Hin) in C2.
    destruct (literal_rule newRegExp (original r) L) as (rule & E' & _ & _ & R).
    { intros N. rewrite N in T. discriminate. }
    rewrite C2 in E'. injection E' as <-. apply R.
Qed.

Lemma in_firstn {A : Type} (n : nat) (l : list A) (x : A) :
  In x (firstn n l) -> In x l.
Proof.
  revert l. induction n as [|n IH]; intros [|y l] H; simpl in *; try contradiction.
  destruct H as [H|H]; [left; exact H|right; apply IH; exact H].
Qed.

Lemma fold_absent (patterns : list jstring) (text : jstring) :
  (forall p, In p patterns -> includes p text = false) ->
  fold_left (fun t p => removeAll p t) patterns text = text.
Proof.
  induction patterns as [|p ps IH]; intros H; [reflexivity|].
  cbn [fold_left]. rewrite (removeAll_absent p text (H p (or_introl eq_refl))).
  apply IH. intros q Hq. apply H. right. exact Hq.
Qed.

Lemma actions_app (a b : list effect) : actions (a ++ b) = actions a ++ actions b.
Proof. apply filter_app. Qed.

Lemma actions_debug (this : PasteCleaner) (lines : list effect) :
  forallb isConsole lines = true -> actions (debug this lines) = [].
Proof.
  intros H. unfold debug. destruct (debugMode (settings this)); [|reflexivity].
  unfold actions. induction lines as [|e lines IH]; [reflexivity|].
  cbn [forallb] in H. apply andb_true_iff in H as [He Hl].
  cbn [filter]. rewrite He. cbn [negb]. apply IH. exact Hl.
Qed.

(** What the handler does beyond the console. *)
Lemma onPaste_actions (this : PasteCleaner) (event : ClipboardEvent) :
  actions (onPaste this event)
  = if defaultPrevented event then []
    else match clipboardData event with
         | None => []
         | Some d =>
             if existsb (JS.eqb textPlain) (types d) then
               match getData d textPlain with
               | [] => []
               | plainText =>
                   let result := applyRules (Some plainText) (rules this) in
                   if JS.eqb result plainText then []
                   else (if hasEditor this then [ReplaceSelection result] else [])
                        ++ [PreventDefault]
               end
             else []
         end.
Proof.
  unfold onPaste. destruct (defaultPrevented event).
  { apply actions_debug. reflexivity. }
  rewrite actions_app, actions_debug by reflexivity. cbn [app].
  destruct (clipboardData event) as [d|]; cbn [option_map negb].
  2: { apply actions_debug. reflexivity. }
  destruct (existsb (JS.eqb textPlain) (types d)); cbn [negb].
  2: { apply actions_debug. reflexivity. }
  destruct (getData d textPlain) as [|c text].
  { apply actions_debug. reflexivity. }
  cbv zeta. rewrite actions_app, actions_debug by reflexivity. cbn [app].
  unfold jstring.
  destruct (JS.eqb (applyRules (@Some (list char) (c :: text)) (rules this))
                   (c :: text));
    cbn [negb]; [reflexivity|].
  destruct (hasEditor this); reflexivity.
Qed.

(** X21.  With literal rules, a paste of plain text that the rules change is
    replaced: the editor gets the text from which the texts of the rules
    that are not empty have been removed, rule after rule in the order of
    the settings, and the default paste is prevented, in that order; a text
    that comes out the same is left to the editor. *)
Theorem paste_cleaned_by_literal_rules
    (newRegExp : jstring -> result (jstring -> jstring))
    (this : PasteCleaner) (event : ClipboardEvent) (d : DataTransfer)
    (text : jstring) :
  literalEngine newRegExp ->
  forallb negb (s_isRegex (settings this)) = true ->
  rules this = snd (compileRules newRegExp (settings this)) ->
  defaultPrevented event = false ->
  clipboardData event = Some d ->
  existsb (JS.eqb textPlain) (types d) = true ->
  getData d textPlain = text -> text <> [] ->
  let patterns :=
    filter truthy (firstn (List.length (s_isRegex (settings this)))
                          (removalRules (settings this))) in
  let result := fold_left (fun t p => removeAll p t) patterns text in
  actions (onPaste this event)
  = if JS.eqb result text then []
    else (if hasEditor this then [ReplaceSelection result] else [])
         ++ [PreventDefault].
Proof.
  intros L F R Hp Hd Ht Hg Hn. cbv zeta.
  pose proof (applyRules_literal newRegExp (settings this) text L F) as A.
  rewrite onPaste_actions, Hp, Hd, Ht, Hg, R.
  destruct text as [|c text]; [contradiction|]. cbv zeta.
  unfold jstring in *. rewrite A. reflexivity.
Qed.

Lemma paste_cleaned_by_literal_rules_witness :
  let this := {| settings := trackerSettings;
                 rules := snd (compileRules textEngine trackerSettings);
                 hasEditor := true |} in
  let text := lit "https://example.com/a?utm_source=chatgpt.com" in
  let patterns :=
    filter truthy (firstn (List.length (s_isRegex (settings this)))
                          (removalRules (settings this))) in
  let result := fold_left (fun t p => removeAll p t) patterns text in
  actions (onPaste this (pasteOf text))
  = if JS.eqb result text then []
    else (if hasEditor this then [ReplaceSelection result] else [])
         ++ [PreventDefault].
Proof.
  apply (paste_cleaned_by_literal_rules textEngine
           {| settings := trackerSettings;
              rules := snd (compileRules textEngine trackerSettings);
              hasEditor := true |}
           (pasteOf (lit "https://example.com/a?utm_source=chatgpt.com"))
           {| types := [lit "text/html"; textPlain];
              getData := fun format =>
                if JS.eqb format textPlain
                then lit "https://example.com/a?utm_source=chatgpt.com" else [] |});
    first [exact textEngine_literal | reflexivity | discriminate].
Defined.

(** X22.  With literal rules, the plugin leaves alone every paste in whose plain
    text the text of no rule occurs: it neither writes to the editor nor
    prevents the default paste. *)
Theorem paste_without_match_untouched
    (newRegExp : jstring -> result (jstring -> jstring))
    (this : PasteCleaner) (event : ClipboardEvent) :
  literalEngine newRegExp ->
  forallb negb (s_isRegex (settings this)) = true ->
  rules this = snd (compileRules newRegExp (settings this)) ->
  (forall d p, clipboardData event = Some d ->
               In p (removalRules (settings this)) -> p <> [] ->
               includes p (getData d textPlain) = false) ->
  actions (onPaste this event) = [].
Proof.
  intros L F R H. rewrite onPaste_actions.
  destruct (defaultPrevented event); [reflexivity|].
  destruct (clipboardData event) as [d|] eqn:Hd; [|reflexivity].
  destruct (existsb (JS.eqb textPlain) (types d)); [|reflexivity].
  destruct (getData d textPlain) as [|c text] eqn:Hg; [reflexivity|].
  cbv zeta.
  pose proof (applyRules_literal newRegExp (settings this) (c :: text) L F) as A.
  rewrite R. unfold jstring in *. rewrite A.
  rewrite fold_absent; [rewrite eqb_refl; reflexivity|].
  intros p Hp. apply filter_In in Hp as [Hp T]. rewrite <- Hg.
  apply (H d p eq_refl).
  - apply (in_firstn _ _ _ Hp).
  - intros N. rewrite N in T. discriminate.
Qed.

Lemma paste_without_match_untouched_witness :
  actions (onPaste {| settings := trackerSettings;
                      rules := snd (compileRules textEngine trackerSettings);
                      hasEditor := true |}
                   (pasteOf (lit "https://example.com/a?page=2")))
  = [].
Proof.
  apply (paste_without_match_untouched textEngine).
  - exact textEngine_literal.
  - reflexivity.
  - reflexivity.
  - intros d p Hd Hp Hn. injection Hd as <-. cbn [getData].
    destruct Hp as [<-|[<-|[]]]; [reflexivity|contradiction].
Defined.

End PluginProps.

(* ===================================================================== *)
(** ** The release script: quiet mode, and writes before commands *)
(* ===================================================================== *)

Module OutputProps.
Import Dec SemVer ReleaseUtils Release Spec Examples Effects Samples.
Import StringFacts OrchestratorProps TraceFacts.

Lemma essential_warnings (ws : list jstring) :
  traceAll essential
    (fold_left (fun acc warning => acc ;;; log_warn warning) ws (ret tt)).
Proof.
  unfold ret. rewrite warn_loop. unfold traceAll. simpl.
  induction ws as [|x ws IH]; simpl; [reflexivity|exact IH].
Qed.

Ltac essential_step :=
  match goal with
  | |- traceAll _ (bind _ _) => apply traceAll_bind; [|intros]
  | |- traceAll _ (log_success true _) => reflexivity
  | |- traceAll _ (log_step true _) => reflexivity
  | |- traceAll _ (log_info true _) => reflexivity
  | |- traceAll _ (log_blank true) => reflexivity
  | |- traceAll _ (when _ _) => apply traceAll_when
  | |- traceAll _ (ret _) => apply traceAll_ret
  | |- traceAll _ (exit _) => apply traceAll_exit
  | |- traceAll _ (exitError _) => unfold exitError
  | |- traceAll _ (try ?r) => destruct r; unfold try
  | |- traceAll _ (fold_left _ _ (ret tt)) => apply essential_warnings
  | |- traceAll _ (emit _) => apply traceAll_emit; reflexivity
  | |- traceAll _ (log_warn _) => unfold log_warn
  | |- traceAll _ (log_error _) => unfold log_error
  | |- traceAll _ (log_info false _) => reflexivity
  | |- traceAll _ (showHelp _) => unfold showHelp
  | |- traceAll _ (run _ _) => unfold run
  | |- traceAll _ (match ?x with _ => _ end) => destruct x
  end.

Ltac essential_all := repeat essential_step.

Lemma release_essential (w : World) (args : Args) (versionArg : jstring) :
  quiet args = true -> traceAll essential (release w args versionArg).
Proof.
  intros Hq. unfold release. rewrite Hq. cbv zeta.
  unfold stageParse, stageEnsure, stageResolve, finishNext, branchPolicy,
    stageCheckHigher, stageConfirm, stageMutate, stagePublish.
  essential_all.
Qed.

(** X23.  In quiet mode the lines of its own that the release script prints on the
    output stream are warnings and, in push mode, the line that says so,
    which it prints before the quiet mode is set (the usage text of a run
    without version argument apart; what the commands and the prompt print
    is theirs).  That line is the first thing a run in push mode prints. *)
Theorem quiet_prints_warnings_only (w : World) (args : Args) :
  quiet args = true -> help args = false -> versionFlag args = false ->
  forallb essential (fst (main w args)) = true
  /\ (forall v rest,
        noPush args = false -> positionals args = v :: rest -> truthy v = true ->
        exists t, fst (main w args) = Stdout pushModeLine :: t).
Proof.
  intros Hq Hh Hv. split.
  - change (traceAll essential (main w args)). unfold main. rewrite Hh, Hv.
    destruct (positionals args) as [|v rest]; [essential_all|].
    destruct (truthy v); [|essential_all].
    apply release_essential. exact Hq.
  - intros v rest Hn Hp Tv. unfold main. rewrite Hh, Hv, Hp, Tv.
    unfold release. rewrite Hn. cbv zeta. rewrite fst_bind.
    eexists. reflexivity.
Qed.

Lemma quiet_prints_warnings_only_witness :
  forallb essential (fst (main (testWorld pendingText None None) quietArgs)) = true
  /\ (forall v rest,
        noPush quietArgs = false -> positionals quietArgs = v :: rest ->
        truthy v = true ->
        exists t, fst (main (testWorld pendingText None None) quietArgs)
                  = Stdout pushModeLine :: t).
Proof.
  apply (quiet_prints_warnings_only (testWorld pendingText None None) quietArgs);
    reflexivity.
Defined.

Lemma main_cases_arg (w : World) (args : Args) :
  forallb quietEvent (fst (main w args)) = true
  \/ exists versionArg rest,
       positionals args = versionArg :: rest
       /\ main w args = release w args versionArg.
Proof.
  unfold main. destruct (help args); [left; reflexivity|].
  destruct (versionFlag args); [left; reflexivity|].
  destruct (positionals args) as [|versionArg rest]; [left; reflexivity|].
  destruct (truthy versionArg); [|left; reflexivity].
  right. eauto.
Qed.

(** X24.  Every file is written before the first command is started through
    [run]: the trace of a run splits into a part without such a command and
    a part without write.  When [run] starts a command at all, the first
    part has written manifest.json and package.json with the version that
    the resolve stage returned for the first argument, versions.json with
    that version added when a look at it found none, and the changelog as
    the writer made it for that version, in this order.  (The branch queries
    made through [capture] while the version is resolved are not events of
    the trace and are not meant.) *)
Theorem writes_precede_commands (w : World) (args : Args) :
  exists before after,
    fst (main w args) = before ++ after
    /\ commandsOf before = [] /\ filter isWrite after = []
    /\ (commandsOf after <> [] ->
        exists versionArg rest meta text pc next out notes,
          positionals args = versionArg :: rest
          /\ getProjectInfo (files w) = Ok meta
          /\ changelogMd (files w) = Some text
          /\ (exists te,
                stageEnsure (strict args) (parseChangelogText text) = (te, Done pc))
          /\ (exists tr,
                stageResolve w (pi_version meta) versionArg (preid args)
                = (tr, Done next))
          /\ updateChangelog pc next (today w) = Ok (out, notes)
          /\ filter isWrite before
             = [WriteManifest next; WritePackage next]
               ++ (if truthyAt next (versions meta) then []
                   else [WriteVersions
                           (assign next (minAppVersion meta) (versions meta))])
               ++ [WriteChangelog out]).
Proof.
  destruct (main_cases_arg w args) as [Q|(versionArg & rest & Hp & E)].
  { exists (fst (main w args)), []. destruct (quiet_no_write _ Q) as (F & C & _).
    rewrite app_nil_r. repeat split; auto. intros N. contradiction N. reflexivity. }
  rewrite E. destruct (release w args versionArg) as [t o] eqn:R.
  destruct (release_inv _ _ _ _ _ R)
    as [[Q _]|(meta & text & pc & next & out & notes & t0 & tm & tp & Hi & _ & Hfs
               & _ & He & Hr & _ & _ & Hup & Q0 & Hmut & Hpub & ->)].
  { exists t, []. destruct (quiet_no_write _ Q) as (F & C & _).
    cbn [fst]. rewrite app_nil_r. repeat split; auto.
    intros N. contradiction N. reflexivity. }
  destruct (stageMutate_done w (quiet args) meta pc next out notes Hi Hup)
    as (tm' & Hmut' & Wm & Cm & _).
  rewrite Hmut in Hmut'. injection Hmut' as <-.
  destruct (publish_plan w (quiet args) (noPush args) next notes) as [_ Pw].
  rewrite Hpub in Pw. cbn [fst] in Pw.
  destruct (quiet_no_write _ Q0) as (F0 & C0 & _).
  exists (t0 ++ tm), tp. cbn [fst]. rewrite <- app_assoc.
  split; [reflexivity|]. split; [rewrite commandsOf_app, C0, Cm; reflexivity|].
  split; [exact Pw|]. intros _.
  exists versionArg, rest, meta, text, pc, next, out, notes.
  repeat (split; [assumption|]).
  rewrite filter_app, F0, Wm. reflexivity.
Qed.

End OutputProps.
